(** * skemi-mall: the JSON API behind the catalogue site

    A shallow embedding of the Express route handlers
    (routes/userRoutes.js, routes/contactRoutes.js, the product, category
    and auth routers, middleware/auth.js) over an explicit datastore.

    Conventions of the embedding:
    - a handler is a function from the request and the store to a response
      and the next store; [await] is sequencing;
    - a table is the list of its rows in storage order, every row carrying
      its primary key; the files under public/ are a set of paths;
    - the ORM calls (findByPk, findOne, findAll, findAndCountAll, count,
      create, update, destroy) are modelled by their documented contract
      on such tables. The database rejects a query that names a column the
      table does not have, a negative LIMIT or OFFSET and, on the contact
      messages, a key outside the range of the INTEGER column; a create is
      refused by the validators that the model declares and by the sizes
      of its columns; the ORM drops from a write the members that are no
      attribute of the model;
    - what the handlers take from libraries or from the environment
      (jsonwebtoken, bcrypt, validator's isEmail, the database's ILIKE,
      path.join, JSON.parse, process.env) is a field of [Platform]; the
      numbers of JavaScript, the collation of the database and the
      validators of the models are fields of [Engine];
    - request members are typed: a string member is present or undefined,
      [page], [limit] and [category_id] are the numbers their numerals
      denote;
    - an exception reaching a handler's [catch] is the 500 response that
      the [catch] sends. *)

From stdpp Require Import base option list strings gmap pretty.
From Stdlib Require Import ZArith Lia.

Set Warnings "-register-all,-clear-no-such-hyp".

Open Scope string_scope.
Open Scope Z_scope.

(** ** JSON values and responses *)

Inductive json : Type :=
  | JNull
  | JBool (b : bool)
  | JNum (n : Z)
  | JStr (s : string)
  | JArr (items : list json)
  | JObj (fields : list (string * json)).

Definition JOpt {A} (f : A → json) (o : option A) : json :=
  match o with Some a => f a | None => JNull end.

(** [const { key: _, ...rest } = obj]. *)
Definition without (k : string) (fields : list (string * json))
  : list (string * json) :=
  filter (λ kv, kv.1 ≠ k) fields.

Record Response : Type := { status : Z; body : json }.

(** [res.json(b)] answers with status 200, [res.status(n).json(b)] with n. *)
Definition json_ok (b : json) : Response := {| status := 200; body := b |}.
Definition failure (code : Z) (msg : string) : Response :=
  {| status := code;
     body := JObj [("success", JBool false); ("message", JStr msg)] |}.
Definition server_error : Response := failure 500 "Server error".

(** The error-handling middleware of server.js, reached by an exception
    thrown outside any [try]. Outside development mode the [error] member
    is undefined and left out of the JSON. *)
Definition internal_server_error : Response :=
  failure 500 "Internal Server Error".

(** ** JavaScript strings *)

Fixpoint drop_chars (n : nat) (s : string) : string :=
  match n, s with
  | S n', String _ s' => drop_chars n' s'
  | _, _ => s
  end.

(** [s.replace(pat, rep)] with a string pattern: the first occurrence. *)
Fixpoint replace (pat rep s : string) : string :=
  if String.prefix pat s then rep +:+ drop_chars (String.length pat) s
  else match s with
       | EmptyString => EmptyString
       | String c s' => String c (replace pat rep s')
       end.

Definition notEmpty (s : string) : bool := negb (String.eqb s "").

(** A body, form or query-string member that is present and not empty:
    [if (x)] on a string. *)
Definition truthy (x : option string) : option string :=
  match x with
  | Some v => if notEmpty v then Some v else None
  | None => None
  end.

(** [a || b] on strings: the empty string and undefined are falsy. *)
Definition or_else (a : option string) (b : string) : string :=
  match a with
  | Some s => if notEmpty s then s else b
  | None => b
  end.

Definition or_null (a : option string) (b : option string) : option string :=
  match a with
  | Some s => if notEmpty s then Some s else b
  | None => b
  end.

(** ** Identity claims and the platform *)

Record Claims : Type :=
  { claim_id : Z; claim_username : string; claim_email : string;
    claim_is_admin : bool }.

Definition Claims_json (c : Claims) : json :=
  JObj [("id", JNum (claim_id c)); ("username", JStr (claim_username c));
        ("email", JStr (claim_email c)); ("is_admin", JBool (claim_is_admin c))].

(** The decoded token: [decoded.user] is undefined when the signed payload
    had no such member. *)
Record Payload : Type := { payload_user : option Claims }.

Record Platform : Type :=
  { JWT_SECRET : string;
    JWT_EXPIRES_IN : option string;
    (** jwt.sign(payload, secret, { expiresIn }) at a clock reading *)
    jwt_sign : Payload → string → string → Z → string;
    (** jwt.verify(token, secret) at a clock reading; None when it throws *)
    jwt_verify : string → string → Z → option Payload;
    (** user.comparePassword(candidate) against the stored secret *)
    comparePassword : string → string → bool;
    (** the hashing hook of the User model *)
    hashPassword : string → string;
    (** express-validator's isEmail *)
    isEmail : string → bool;
    (** the datastore's [value ILIKE '%search%'] *)
    iLike : string → string → bool;
    (** path.join(__dirname, '../../public', url) *)
    public_path : string → string;
    (** JSON.parse; None when it throws *)
    JSON_parse : string → option json }.

(** What the routes get from the JavaScript engine, from the database and
    from the model validation of the ORM. *)
Record Engine : Type :=
  { (** [parseInt(x)] and [Number(x)] for the query string [x] that is the
        decimal numeral of an integer: the nearest double *)
    to_number : Z → Z;
    (** [parseInt((page - 1) * limit)] for the numerals of [page] and
        [limit]: the product is computed on doubles and [parseInt] reads
        its decimal print *)
    parseInt_offset : Z → Z → Z;
    (** ORDER BY on a text column, ascending: [text_le a b] when [a] is
        not after [b] in the collation that the database was created with
        (setup-db.sh: LC_COLLATE 'en_US.UTF-8') *)
    text_le : string → string → bool;
    (** the validators [notEmpty] and [isEmail] of a model attribute *)
    model_notEmpty : string → bool;
    model_isEmail : string → bool }.

(** [Number.MAX_SAFE_INTEGER]: up to it the doubles are the integers. *)
Definition MAX_SAFE_INTEGER : Z := 9007199254740991.

(** ** Requests and middleware *)

Record Request (B : Type) : Type :=
  { authorization : option string;   (* req.header('Authorization') *)
    user : option Claims;            (* req.user *)
    params_id : Z;                   (* req.params.id *)
    payload : B;                     (* req.body, or req.query on a GET *)
    now : Z }.                       (* the clock while the request is served *)
Arguments authorization {B} _.
Arguments user {B} _.
Arguments params_id {B} _.
Arguments payload {B} _.
Arguments now {B} _.

Definition set_user {B} (u : option Claims) (req : Request B) : Request B :=
  {| authorization := authorization req; user := u;
     params_id := params_id req; payload := payload req; now := now req |}.

Inductive Outcome (A : Type) : Type :=
  | Next (a : A)            (* next() *)
  | Send (r : Response).    (* a response was sent, the chain stops *)
Arguments Next {A} _.
Arguments Send {A} _.

Section Middleware.
Variable P : Platform.

(** middleware/auth.js, [auth]. *)
Definition auth {B} (req : Request B) : Outcome (Request B) :=
  let token := replace "Bearer " "" <$> authorization req in
  match token with
  | None | Some EmptyString => Send (failure 401 "No token, authorization denied")
  | Some t =>
      match jwt_verify P t (JWT_SECRET P) (now req) with
      | Some decoded => Next (set_user (payload_user decoded) req)
      | None => Send (failure 401 "Token is not valid")
      end
  end.

(** middleware/auth.js, [admin]. Reading [req.user.is_admin] of an
    undefined [req.user] throws outside any [try]. *)
Definition admin {B} (req : Request B) : Outcome (Request B) :=
  match user req with
  | None => Send internal_server_error
  | Some u =>
      if claim_is_admin u then Next req
      else Send (failure 403 "Access denied. Admin privileges required.")
  end.
End Middleware.

(** A middleware chain in front of a handler, as in
    [router.get(path, [auth, admin], handler)]. *)
Fixpoint through {B S : Type}
    (chain : list (Request B → Outcome (Request B)))
    (handler : Request B → S → Response * S)
    (req : Request B) (s : S) : Response * S :=
  match chain with
  | [] => handler req s
  | mw :: rest =>
      match mw req with
      | Send r => (r, s)
      | Next req' => through rest handler req' s
      end
  end.

(** A request as Express hands it to the first layer of a router: nothing
    has set [req.user] yet. *)
Definition incoming {B} (hdr : option string) (id : Z) (b : B) (t : Z)
  : Request B :=
  {| authorization := hdr; user := None; params_id := id; payload := b;
     now := t |}.

(** ** express-validator *)

Record ValidationError : Type :=
  { err_value : option json; err_msg : string; err_param : string }.

(** An entry of [errors.array()]; an undefined value is left out. *)
Definition ValidationError_json (e : ValidationError) : json :=
  JObj ((match err_value e with Some v => [("value", v)] | None => [] end)
        ++ [("msg", JStr (err_msg e)); ("param", JStr (err_param e));
            ("location", JStr "body")])%list.

Definition check {A} (show : A → json) (ok : A → bool)
    (param msg : string) (v : option A) : list ValidationError :=
  match v with
  | Some a =>
      if ok a then []
      else [{| err_value := Some (show a); err_msg := msg; err_param := param |}]
  | None => [{| err_value := None; err_msg := msg; err_param := param |}]
  end.

Definition validation_failed (errors : list ValidationError) : Response :=
  {| status := 400;
     body := JObj [("success", JBool false);
                   ("errors", JArr (ValidationError_json <$> errors))] |}.

(** [isLength({ min: 6 })] *)
Definition min_length_6 (s : string) : bool :=
  bool_decide (6 ≤ String.length s)%nat.

(** ** Query helpers: ORDER BY, LIMIT and OFFSET *)

Section Query.
Context {A : Type}.

Fixpoint insert_by (le : A → A → bool) (x : A) (l : list A) : list A :=
  match l with
  | [] => [x]
  | y :: l' => if le x y then x :: l else y :: insert_by le x l'
  end.

(** ORDER BY, as a stable sort of the rows in storage order. *)
Fixpoint order_by (le : A → A → bool) (l : list A) : list A :=
  match l with
  | [] => []
  | x :: l' => insert_by le x (order_by le l')
  end.

(** [Model.count({ where })] *)
Definition count (where_ : A → bool) (table : list A) : Z :=
  Z.of_nat (length (filter (λ r, where_ r) table)).

(** [Model.findAndCountAll({ where, include, order, limit, offset })]. The
    count query counts the rows of the join with the included tables,
    [joined r] of them for the row [r] of the table (one when nothing is
    included); the page is cut by LIMIT and OFFSET out of the rows of the
    table itself, in the order asked for. [order] is None when the query
    orders by a column that the table does not have: the database rejects
    it, as it rejects a negative LIMIT or OFFSET. *)
Definition findAndCountAll (joined : A → Z) (where_ : A → bool)
    (order : option (A → A → bool)) (limit offset : Z) (table : list A)
  : option (Z * list A) :=
  match order with
  | None => None
  | Some le =>
      if (limit <? 0) || (offset <? 0) then None
      else Some (foldr (λ r n, joined r + n) 0
                   (filter (λ r, where_ r) table),
                 take (Z.to_nat limit)
                   (drop (Z.to_nat offset)
                      (order_by le (filter (λ r, where_ r) table))))
  end.
End Query.

(** [Math.ceil(count / limit)] as [res.json] prints it: the quotient is
    infinite or NaN for a zero limit, and JSON has [null] for both. The
    counts and limits in play are far below 2^53, where the floating-point
    quotient rounds to the exact ceiling. *)
Definition Math_ceil_div (count limit : Z) : json :=
  if limit =? 0 then JNull else JNum (- ((- count) / limit)).

Record Pagination : Type :=
  { total : Z; page : Z; limit : Z; totalPages : json }.

Definition Pagination_json (p : Pagination) : json :=
  JObj [("total", JNum (total p)); ("page", JNum (page p));
        ("limit", JNum (limit p)); ("totalPages", totalPages p)].

(** ** The datastore *)

(** Modelled from the spec: the User model (models/User.js is not among the
    sources): an integer identity, a unique username, a unique email, a
    hashed password secret and an admin flag; [createdAt] is the column the
    user list orders by. *)
Record User : Type :=
  { user_id : Z; username : string; email : string; password : string;
    is_admin : bool; createdAt : Z }.

(** Modelled from the spec: the Category model (models/Category.js is not
    among the sources): name, unique slug, optional description, optional
    image reference. *)
Record Category : Type :=
  { category_id : Z; category_name : string; category_slug : string;
    category_description : option string; image_url : option string }.

(** models/Product.js *)
Record Product : Type :=
  { product_id : Z; product_name : string; product_slug : string;
    model_number : option string; description : option string;
    features : option string; specifications : option json;
    price : option string; product_category_id : option Z;
    created_at : Z; updated_at : Z }.

(** Modelled from the spec: the ProductImage model (models/ProductImage.js
    is not among the sources): the owning product, the path of the stored
    asset and the primary flag. *)
Record ProductImage : Type :=
  { image_id : Z; image_product_id : Z; product_image_url : string;
    is_primary : bool }.

(** models/ContactMessage.js: the attributes of a stored message. The
    routes also write and read [subject] and [status], which the model
    does not declare: the ORM drops such members from what it writes, and
    a row read back has neither. *)
Record ContactMessage : Type :=
  { message_id : Z; contact_name : string; contact_email : string;
    phone : option string; message : string; contact_created : Z;
    is_read : bool }.

Record Store : Type :=
  { users : list User; users_seq : Z;
    categories : list Category;
    products : list Product;
    product_images : list ProductImage; product_images_seq : Z;
    contact_messages : list ContactMessage; contact_messages_seq : Z;
    files : gset string }.

Definition set_users (us : list User) (seq : Z) (s : Store) : Store :=
  {| users := us; users_seq := seq; categories := categories s;
     products := products s; product_images := product_images s;
     product_images_seq := product_images_seq s;
     contact_messages := contact_messages s;
     contact_messages_seq := contact_messages_seq s; files := files s |}.

Definition set_categories (cs : list Category) (s : Store) : Store :=
  {| users := users s; users_seq := users_seq s; categories := cs;
     products := products s; product_images := product_images s;
     product_images_seq := product_images_seq s;
     contact_messages := contact_messages s;
     contact_messages_seq := contact_messages_seq s; files := files s |}.

Definition set_products (ps : list Product) (s : Store) : Store :=
  {| users := users s; users_seq := users_seq s; categories := categories s;
     products := ps; product_images := product_images s;
     product_images_seq := product_images_seq s;
     contact_messages := contact_messages s;
     contact_messages_seq := contact_messages_seq s; files := files s |}.

Definition set_product_images (imgs : list ProductImage) (seq : Z) (s : Store)
  : Store :=
  {| users := users s; users_seq := users_seq s; categories := categories s;
     products := products s; product_images := imgs;
     product_images_seq := seq;
     contact_messages := contact_messages s;
     contact_messages_seq := contact_messages_seq s; files := files s |}.

Definition set_contact_messages (ms : list ContactMessage) (seq : Z)
    (s : Store) : Store :=
  {| users := users s; users_seq := users_seq s; categories := categories s;
     products := products s; product_images := product_images s;
     product_images_seq := product_images_seq s;
     contact_messages := ms; contact_messages_seq := seq; files := files s |}.

Definition set_files (fs : gset string) (s : Store) : Store :=
  {| users := users s; users_seq := users_seq s; categories := categories s;
     products := products s; product_images := product_images s;
     product_images_seq := product_images_seq s;
     contact_messages := contact_messages s;
     contact_messages_seq := contact_messages_seq s; files := fs |}.

(** [fs.existsSync(p)] and [fs.unlinkSync(p)] behind it. *)
Definition unlink_if_exists (p : string) (fs : gset string) : gset string :=
  if decide (p ∈ fs) then fs ∖ {[p]} else fs.

(** ** Users: the ORM calls the routes make *)

(** [User.findByPk(id)] *)
Definition User_findByPk (id : Z) (us : list User) : option User :=
  find (λ u, user_id u =? id) us.

(** [User.findOne({ where: { username } })] *)
Definition User_findOne_username (name : string) (us : list User)
  : option User :=
  find (λ u, String.eqb (username u) name) us.

(** [User.findOne({ where: { email } })] *)
Definition User_findOne_email (mail : string) (us : list User) : option User :=
  find (λ u, String.eqb (email u) mail) us.

(** [user.destroy()]: DELETE ... WHERE id = the row's key. *)
Definition User_destroy (u : User) (us : list User) : list User :=
  filter (λ v, user_id v ≠ user_id u) us.

(** [user.update(values)]: UPDATE ... WHERE id = the row's key. *)
Definition User_save (u : User) (us : list User) : list User :=
  (λ v, if user_id v =? user_id u then u else v) <$> us.

(** [user.toJSON()]: every column of the row. *)
Definition User_fields (u : User) : list (string * json) :=
  [("id", JNum (user_id u)); ("username", JStr (username u));
   ("email", JStr (email u)); ("password", JStr (password u));
   ("is_admin", JBool (is_admin u)); ("createdAt", JNum (createdAt u))].

(** A row read with [attributes: { exclude: ['password'] }]. *)
Definition User_fields_excluding_password (u : User) : list (string * json) :=
  [("id", JNum (user_id u)); ("username", JStr (username u));
   ("email", JStr (email u));
   ("is_admin", JBool (is_admin u)); ("createdAt", JNum (createdAt u))].

Definition claims_of (u : User) : Claims :=
  {| claim_id := user_id u; claim_username := username u;
     claim_email := email u; claim_is_admin := is_admin u |}.

Definition newest_first (u v : User) : bool := createdAt v <=? createdAt u.

(** ** routes/userRoutes.js and the auth router *)

Record UserBody : Type :=
  { body_username : option string; body_email : option string;
    body_password : option string; body_is_admin : option bool }.

Record LoginBody : Type :=
  { login_username : option string; login_password : option string }.

(** The object [updateData] of PUT /api/users/:id; it has a [password]
    member only when the body has a password. *)
Record UserValues : Type :=
  { new_username : string; new_email : string; new_is_admin : bool;
    new_password : option string }.

Definition user_deleted : Response :=
  json_ok (JObj [("success", JBool true);
                 ("message", JStr "User deleted successfully")]).

Section UserRoutes.
Variable P : Platform.

(** GET /api/users *)
Definition list_users (req : Request unit) (s : Store) : Response * Store :=
  let found := order_by newest_first (users s) in
  (json_ok (JObj [("success", JBool true);
                  ("users", JArr ((λ u, JObj (User_fields_excluding_password u))
                                    <$> found))]), s).

(** GET /api/users/:id *)
Definition get_user (req : Request unit) (s : Store) : Response * Store :=
  match User_findByPk (params_id req) (users s) with
  | None => (failure 404 "User not found", s)
  | Some u =>
      (json_ok (JObj [("success", JBool true);
                      ("user", JObj (User_fields_excluding_password u))]), s)
  end.

(** Modelled from the spec: [User.create(values)] under the hook of the
    User model (models/User.js is not among the sources): the row takes the
    next id of the sequence, the password is stored hashed, and the row is
    stamped with the time of creation. *)
Definition User_create (seq : Z) (name mail pw : string) (adm : bool)
    (t : Z) : User :=
  {| user_id := seq; username := name; email := mail;
     password := hashPassword P pw; is_admin := adm; createdAt := t |}.

(** Modelled from the spec: [user.update(values)] under the hook of the
    User model (models/User.js is not among the sources): a password that
    is written is stored hashed, and a row written without a password keeps
    its secret. *)
Definition User_update (values : UserValues) (u : User) : User :=
  {| user_id := user_id u;
     username := new_username values;
     email := new_email values;
     password := match new_password values with
                 | Some pw => hashPassword P pw
                 | None => password u
                 end;
     is_admin := new_is_admin values;
     createdAt := createdAt u |}.

(** POST /api/users. A body that passes the four validators has the four
    members, so the second branch is never taken. *)
Definition create_user (req : Request UserBody) (s : Store)
  : Response * Store :=
  let b := payload req in
  let errors :=
    (check JStr notEmpty "username" "Username is required" (body_username b)
    ++ check JStr (isEmail P) "email" "Please include a valid email"
         (body_email b)
    ++ check JStr min_length_6 "password"
         "Password must be at least 6 characters long" (body_password b)
    ++ check JBool (λ _, true) "is_admin" "is_admin must be a boolean"
         (body_is_admin b))%list in
  match errors, body_username b, body_email b, body_password b,
        body_is_admin b with
  | [], Some name, Some mail, Some pw, Some adm =>
      match User_findOne_username name (users s) with
      | Some _ => (failure 400 "Username already exists", s)
      | None =>
          match User_findOne_email mail (users s) with
          | Some _ => (failure 400 "Email already exists", s)
          | None =>
              let created :=
                User_create (users_seq s) name mail pw adm (now req) in
              ({| status := 201;
                  body := JObj [("success", JBool true);
                                ("user", JObj (without "password"
                                                 (User_fields created)))] |},
               set_users (users s ++ [created]) (users_seq s + 1) s)
          end
      end
  | [], _, _, _, _ => (server_error, s)
  | _ :: _, _, _, _, _ => (validation_failed errors, s)
  end.

(** [updateData] in PUT /api/users/:id. *)
Definition updateData (b : UserBody) (u : User) : UserValues :=
  {| new_username := or_else (body_username b) (username u);
     new_email := or_else (body_email b) (email u);
     new_is_admin := match body_is_admin b with
                     | Some adm => adm
                     | None => is_admin u
                     end;
     new_password := truthy (body_password b) |}.

(** [req.body.x && req.body.x !== user.x], then a row with that value *)
Definition taken (x : option string) (current : string)
    (lookup : string → option User) : bool :=
  match x with
  | Some v => notEmpty v && negb (String.eqb v current)
              && bool_decide (is_Some (lookup v))
  | None => false
  end.

(** PUT /api/users/:id *)
Definition update_user (req : Request UserBody) (s : Store)
  : Response * Store :=
  let b := payload req in
  match User_findByPk (params_id req) (users s) with
  | None => (failure 404 "User not found", s)
  | Some u =>
      if taken (body_username b) (username u)
           (λ v, User_findOne_username v (users s))
      then (failure 400 "Username already exists", s)
      else if taken (body_email b) (email u)
                (λ v, User_findOne_email v (users s))
      then (failure 400 "Email already exists", s)
      else
        let u' := User_update (updateData b u) u in
        (json_ok (JObj [("success", JBool true);
                        ("user", JObj (without "password" (User_fields u')))]),
         set_users (User_save u' (users s)) (users_seq s) s)
  end.

(** DELETE /api/users/:id *)
Definition delete_user (req : Request unit) (s : Store) : Response * Store :=
  match User_findByPk (params_id req) (users s) with
  | None => (failure 404 "User not found", s)
  | Some u =>
      if is_admin u && (count is_admin (users s) <=? 1)
      then (failure 400 "Cannot delete the last admin user", s)
      else (user_deleted, set_users (User_destroy u (users s)) (users_seq s) s)
  end.

(** POST /api/auth/login *)
Definition login (req : Request LoginBody) (s : Store) : Response * Store :=
  let b := payload req in
  let errors :=
    (check JStr notEmpty "username" "Username is required" (login_username b)
     ++ check JStr notEmpty "password" "Password is required"
          (login_password b))%list in
  match errors, login_username b, login_password b with
  | [], Some name, Some pw =>
      match User_findOne_username name (users s) with
      | None => (failure 401 "Invalid credentials", s)
      | Some u =>
          if negb (comparePassword P pw (password u))
          then (failure 401 "Invalid credentials", s)
          else
            let token :=
              jwt_sign P {| payload_user := Some (claims_of u) |}
                (JWT_SECRET P) (or_else (JWT_EXPIRES_IN P) "1d") (now req) in
            (json_ok (JObj [("success", JBool true); ("token", JStr token);
                            ("user", Claims_json (claims_of u))]), s)
      end
  | [], _, _ => (server_error, s)
  | _ :: _, _, _ => (validation_failed errors, s)
  end.

(** GET /api/auth/me: the handler. Reading [req.user.id] of an undefined
    [req.user] throws inside the [try]. *)
Definition me (req : Request unit) (s : Store) : Response * Store :=
  match user req with
  | None => (server_error, s)
  | Some c =>
      match User_findByPk (claim_id c) (users s) with
      | None => (failure 404 "User not found", s)
      | Some u =>
          (json_ok (JObj [("success", JBool true);
                          ("user", JObj (User_fields_excluding_password u))]),
           s)
      end
  end.

(** The routes as the routers register them. *)
Definition GET_users := through [auth P; admin] list_users.
Definition GET_users_id := through [auth P; admin] get_user.
Definition POST_users := through [auth P; admin] create_user.
Definition PUT_users_id := through [auth P; admin] update_user.
Definition DELETE_users_id := through [auth P; admin] delete_user.
Definition POST_auth_login := through [] login.
Definition GET_auth_me := through [] me.
End UserRoutes.

(** ** The category and product routers *)

Record ProductQuery : Type :=
  { query_category : option string; query_search : option string;
    query_sort : option string;
    (** the numbers that [page] and [limit] denote, when given *)
    query_page : option Z; query_limit : option Z }.

(** The multipart form of PUT /api/products/:id: [category_id] is the
    number its numeral denotes, [uploaded] the names multer gave the
    stored files of [req.files]. *)
Record ProductBody : Type :=
  { form_name : option string; form_model_number : option string;
    form_category_id : option Z; form_description : option string;
    form_features : option string; form_specifications : option string;
    form_price : option string; form_replace_images : option string;
    uploaded : list string }.

Definition Category_findByPk (id : Z) (cs : list Category) : option Category :=
  find (λ c, category_id c =? id) cs.

Definition Category_destroy (c : Category) (cs : list Category)
  : list Category :=
  filter (λ d, category_id d ≠ category_id c) cs.

Definition Product_findByPk (id : Z) (ps : list Product) : option Product :=
  find (λ p, product_id p =? id) ps.

Definition Product_save (p : Product) (ps : list Product) : list Product :=
  (λ q, if product_id q =? product_id p then p else q) <$> ps.

(** [where: { category_id: id }] *)
Definition in_category (id : Z) (p : Product) : bool :=
  bool_decide (product_category_id p = Some id).

(** [where: { product_id: id }] *)
Definition of_product (id : Z) (i : ProductImage) : bool :=
  image_product_id i =? id.

(** The included category, [attributes: ['id', 'name', 'slug']]. *)
Definition category_of (s : Store) (p : Product) : option Category :=
  product_category_id p ≫= λ id, Category_findByPk id (categories s).

Definition Category_summary (c : Category) : json :=
  JObj [("id", JNum (category_id c)); ("name", JStr (category_name c));
        ("slug", JStr (category_slug c))].

Definition ProductImage_summary (i : ProductImage) : json :=
  JObj [("id", JNum (image_id i)); ("image_url", JStr (product_image_url i));
        ("is_primary", JBool (is_primary i))].

(** A product row with its [category] and [images] included. *)
Definition Product_json (s : Store) (p : Product) : json :=
  JObj [("id", JNum (product_id p)); ("name", JStr (product_name p));
        ("slug", JStr (product_slug p));
        ("model_number", JOpt JStr (model_number p));
        ("description", JOpt JStr (description p));
        ("features", JOpt JStr (features p));
        ("specifications", JOpt id (specifications p));
        ("price", JOpt JStr (price p));
        ("category_id", JOpt JNum (product_category_id p));
        ("created_at", JNum (created_at p));
        ("updated_at", JNum (updated_at p));
        ("category", JOpt Category_summary (category_of s p));
        ("images", JArr (ProductImage_summary
                           <$> filter (λ i, of_product (product_id p) i)
                                 (product_images s)))].

(** The columns that the routes name in [order]. models/Product.js and
    models/ContactMessage.js declare [timestamps: false] and a column
    [created_at]: the tables have no column [createdAt], and the database
    rejects a query that orders by it. *)
Inductive OrderColumn : Type := name_column | createdAt_column.

(** [queryOptions.order] after the [switch (sort)]: the column, and
    whether the order is descending. *)
Definition queryOptions_order (sort : option string) : OrderColumn * bool :=
  match truthy sort with
  | Some key =>
      if String.eqb key "name-asc" then (name_column, false)
      else if String.eqb key "name-desc" then (name_column, true)
      else if String.eqb key "oldest" then (createdAt_column, false)
      else (createdAt_column, true)
  | None => (createdAt_column, true)
  end.

(** ORDER BY on the products table; None when the table has no such
    column. *)
Definition Product_order (E : Engine) (order : OrderColumn * bool)
  : option (Product → Product → bool) :=
  match order.1 with
  | name_column =>
      Some (λ a b, if order.2
                   then text_le E (product_name b) (product_name a)
                   else text_le E (product_name a) (product_name b))
  | createdAt_column => None
  end.

(** The rows that the LEFT OUTER JOIN with the included images gives a
    product in the count query of GET /api/products, which is not
    [distinct]: one for each of its images, and one when it has none. The
    included category adds none, a product has at most one. *)
Definition image_rows (s : Store) (p : Product) : Z :=
  Z.max 1 (count (of_product (product_id p)) (product_images s)).

(** [`/uploads/products/${file.filename}`] for each uploaded file, the
    first one primary when the images are being replaced. *)
Fixpoint new_images (product : Z) (replacing : bool) (first : bool)
    (seq : Z) (names : list string) : list ProductImage :=
  match names with
  | [] => []
  | f :: rest =>
      {| image_id := seq; image_product_id := product;
         product_image_url := "/uploads/products/" +:+ f;
         is_primary := first && replacing |}
      :: new_images product replacing false (seq + 1) rest
  end.

Definition category_deleted : Response :=
  json_ok (JObj [("success", JBool true);
                 ("message", JStr "Category deleted successfully")]).

Definition category_in_use (productCount : Z) : Response :=
  failure 400 ("Cannot delete category with " +:+ pretty productCount
               +:+ " products. Please move or delete the products first.").

(** [multer.diskStorage]: the files of the form are on disk under the
    upload directory before the handler runs. *)
Definition store_uploads (P : Platform) (dir : string) (names : list string)
    (fs : gset string) : gset string :=
  foldl (λ fs f, {[ public_path P (dir +:+ f) ]} ∪ fs) fs names.

Section CatalogRoutes.
Variable P : Platform.
Variable E : Engine.

(** The filters of GET /api/products: the category include with
    [where: { slug }] keeps the products of that category, the search is
    an OR of three ILIKE tests, and a NULL column matches nothing. *)
Definition product_matches (q : ProductQuery) (s : Store) (p : Product)
  : bool :=
  match truthy (query_category q) with
  | Some slug =>
      match category_of s p with
      | Some c => String.eqb (category_slug c) slug
      | None => false
      end
  | None => true
  end
  && match truthy (query_search q) with
     | Some text =>
         iLike P text (product_name p)
         || from_option (iLike P text) false (model_number p)
         || from_option (iLike P text) false (description p)
     | None => true
     end.

(** GET /api/products *)
Definition list_products (req : Request ProductQuery) (s : Store)
  : Response * Store :=
  let q := payload req in
  let pg := default 1 (query_page q) in
  let lim := default 10 (query_limit q) in
  let offset := parseInt_offset E pg lim in
  match findAndCountAll (image_rows s) (product_matches q s)
          (Product_order E (queryOptions_order (query_sort q)))
          (to_number E lim) offset (products s) with
  | None => (server_error, s)
  | Some (n, rows) =>
      (json_ok (JObj [("success", JBool true);
                      ("products", JArr (Product_json s <$> rows));
                      ("pagination",
                       Pagination_json
                         {| total := n; page := to_number E pg;
                            limit := to_number E lim;
                            totalPages :=
                              Math_ceil_div n (to_number E lim) |})]), s)
  end.

(** The image step of PUT /api/products/:id, run when files came with the
    form: with [replace_images === 'true'] the stored files and the rows of
    the product's images go first, then a row is added per uploaded file. *)
Definition process_images (product : Z) (b : ProductBody) (s : Store)
  : Store :=
  match uploaded b with
  | [] => s
  | _ :: _ =>
      let replacing :=
        bool_decide (form_replace_images b = Some "true") in
      let s1 :=
        if replacing then
          let existing :=
            filter (λ i, of_product product i) (product_images s) in
          let fs :=
            foldl (λ fs i, unlink_if_exists
                             (public_path P (product_image_url i)) fs)
              (files s) existing in
          set_product_images
            (filter (λ i, ¬ of_product product i) (product_images s))
            (product_images_seq s) (set_files fs s)
        else s in
      let added :=
        new_images product replacing true (product_images_seq s1)
          (uploaded b) in
      set_product_images (product_images s1 ++ added)
        (product_images_seq s1 + Z.of_nat (length added)) s1
  end.

(** The values [product.update({...})] writes, and the model's
    [beforeUpdate] hook, which stamps [updated_at]. *)
Definition updated_product (b : ProductBody) (specs : option json) (t : Z)
    (p : Product) : Product :=
  {| product_id := product_id p;
     product_name := or_else (form_name b) (product_name p);
     product_slug := product_slug p;
     model_number := or_null (form_model_number b) (model_number p);
     description := or_null (form_description b) (description p);
     features := or_null (form_features b) (features p);
     specifications := specs;
     price := or_null (form_price b) (price p);
     product_category_id :=
       match form_category_id b with
       | Some c => Some c
       | None => product_category_id p
       end;
     created_at := created_at p;
     updated_at := t |}.

(** PUT /api/products/:id, after [auth], [admin] and the upload. *)
Definition update_product (req : Request ProductBody) (s : Store)
  : Response * Store :=
  let b := payload req in
  match Product_findByPk (params_id req) (products s) with
  | None => (failure 404 "Product not found", s)
  | Some p =>
      let known :=
        match form_category_id b with
        | Some c => bool_decide (is_Some (Category_findByPk c (categories s)))
        | None => true
        end in
      if negb known then (failure 400 "Invalid category", s)
      else
        let parsed :=
          match truthy (form_specifications b) with
          | Some text => Some <$> JSON_parse P text
          | None => Some (specifications p)
          end in
        match parsed with
        | None => (server_error, s)
        | Some specs =>
            let p' := updated_product b specs (now req) p in
            let s1 := set_products (Product_save p' (products s)) s in
            let s2 := process_images (product_id p) b s1 in
            match Product_findByPk (product_id p) (products s2) with
            | None => (json_ok (JObj [("success", JBool true);
                                      ("product", JNull)]), s2)
            | Some current =>
                (json_ok (JObj [("success", JBool true);
                                ("product", Product_json s2 current)]), s2)
            end
        end
  end.

(** DELETE /api/categories/:id, after [auth] and [admin]. *)
Definition delete_category (req : Request unit) (s : Store)
  : Response * Store :=
  match Category_findByPk (params_id req) (categories s) with
  | None => (failure 404 "Category not found", s)
  | Some category =>
      let productCount :=
        count (in_category (category_id category)) (products s) in
      if 0 <? productCount then (category_in_use productCount, s)
      else
        let fs :=
          match truthy (image_url category) with
          | Some url => unlink_if_exists (public_path P url) (files s)
          | None => files s
          end in
        (category_deleted,
         set_categories (Category_destroy category (categories s))
           (set_files fs s))
  end.

(** [upload.array('images', 10)], the last layer in front of the handlers
    of POST /api/products and PUT /api/products/:id. The form's files,
    [uploaded], are the ones that the file filter and the size limit let
    through, under the names the storage gave them; multer writes them
    under public/uploads/products. With more than [maxCount] files it
    removes what it wrote and passes an error on, which the error-handling
    middleware of server.js answers. *)
Definition upload_array (maxCount : nat)
    (handler : Request ProductBody → Store → Response * Store)
    (req : Request ProductBody) (s : Store) : Response * Store :=
  if bool_decide (maxCount < length (uploaded (payload req)))%nat
  then (internal_server_error, s)
  else handler req
         (set_files (store_uploads P "/uploads/products/"
                       (uploaded (payload req)) (files s)) s).

Definition GET_products := through [] list_products.
Definition PUT_products_id :=
  through [auth P; admin] (upload_array 10 update_product).
Definition DELETE_categories_id := through [auth P; admin] delete_category.
End CatalogRoutes.

(** ** routes/contactRoutes.js *)

Record ContactBody : Type :=
  { form_contact_name : option string; form_contact_email : option string;
    form_phone : option string; form_subject : option string;
    form_message : option string }.

Record MessagesQuery : Type :=
  { messages_page : option Z; messages_limit : option Z;
    messages_status : option string }.

Definition contact_acknowledged : Response :=
  {| status := 201;
     body := JObj [("success", JBool true);
                   ("message", JStr "Your message has been sent successfully. We will get back to you soon.")] |}.

(** [message.toJSON()]: the attributes of the model. *)
Definition ContactMessage_json (m : ContactMessage) : json :=
  JObj [("id", JNum (message_id m)); ("name", JStr (contact_name m));
        ("email", JStr (contact_email m)); ("phone", JOpt JStr (phone m));
        ("message", JStr (message m));
        ("created_at", JNum (contact_created m));
        ("is_read", JBool (is_read m))].

(** What POST /api/contact hands to [ContactMessage.create]. *)
Record ContactValues : Type :=
  { value_contact_name : string; value_contact_email : string;
    value_phone : option string; value_subject : string;
    value_message : string; value_status : string }.

(** The validators of the model, run by [create] before anything is sent
    to the database: [notEmpty] on the name and on the message, [isEmail]
    on the email. *)
Definition ContactMessage_validate (E : Engine) (v : ContactValues) : bool :=
  model_notEmpty E (value_contact_name v)
  && model_isEmail E (value_contact_email v)
  && model_notEmpty E (value_message v).

(** The sizes of the columns, STRING(100), STRING(100) and STRING(50),
    which the database enforces on the INSERT. *)
Definition ContactMessage_fits (v : ContactValues) : bool :=
  bool_decide (String.length (value_contact_name v) ≤ 100)%nat
  && bool_decide (String.length (value_contact_email v) ≤ 100)%nat
  && from_option (λ ph, bool_decide (String.length ph ≤ 50)%nat) true
       (value_phone v).

(** The row that [create] inserts: the attributes of the model, [is_read]
    and [created_at] at their defaults; [subject] and [status] are no
    attributes and are left out. *)
Definition ContactMessage_row (key t : Z) (v : ContactValues)
  : ContactMessage :=
  {| message_id := key; contact_name := value_contact_name v;
     contact_email := value_contact_email v; phone := value_phone v;
     message := value_message v; contact_created := t; is_read := false |}.

(** [where: { status }] on the contact messages: the table has no column
    [status], the database rejects the query. *)
Definition ContactMessage_where_status (wanted : string)
  : option (ContactMessage → bool) := None.

(** [order: [['createdAt', 'DESC']]] on the contact messages: the table has
    no column [createdAt]. *)
Definition ContactMessage_order (E : Engine) (order : OrderColumn * bool)
  : option (ContactMessage → ContactMessage → bool) :=
  match order.1 with
  | name_column =>
      Some (λ a b, if order.2
                   then text_le E (contact_name b) (contact_name a)
                   else text_le E (contact_name a) (contact_name b))
  | createdAt_column => None
  end.

Section ContactRoutes.
Variable P : Platform.
Variable E : Engine.

(** POST /api/contact. A body that passes the four validators has the four
    members, so the second branch is never taken. A row that the model's
    validators refuse is not sent to the database; an INSERT that the
    database refuses has drawn its key from the sequence. *)
Definition submit_contact (req : Request ContactBody) (s : Store)
  : Response * Store :=
  let b := payload req in
  let errors :=
    (check JStr notEmpty "name" "Name is required" (form_contact_name b)
     ++ check JStr (isEmail P) "email" "Please include a valid email"
          (form_contact_email b)
     ++ check JStr notEmpty "subject" "Subject is required" (form_subject b)
     ++ check JStr notEmpty "message" "Message is required"
          (form_message b))%list in
  match errors, form_contact_name b, form_contact_email b, form_subject b,
        form_message b with
  | [], Some name, Some mail, Some subj, Some text =>
      let values :=
        {| value_contact_name := name; value_contact_email := mail;
           value_phone := truthy (form_phone b); value_subject := subj;
           value_message := text; value_status := "unread" |} in
      if negb (ContactMessage_validate E values) then (server_error, s)
      else if negb (ContactMessage_fits values)
      then (server_error,
            set_contact_messages (contact_messages s)
              (contact_messages_seq s + 1) s)
      else
        (contact_acknowledged,
         set_contact_messages
           (contact_messages s
            ++ [ContactMessage_row (contact_messages_seq s) (now req)
                  values])
           (contact_messages_seq s + 1) s)
  | [], _, _, _, _ => (server_error, s)
  | _ :: _, _, _, _, _ => (validation_failed errors, s)
  end.

(** GET /api/contact/messages, after [auth] and [admin]. *)
Definition list_messages (req : Request MessagesQuery) (s : Store)
  : Response * Store :=
  let q := payload req in
  let pg := default 1 (messages_page q) in
  let lim := default 10 (messages_limit q) in
  let offset := parseInt_offset E pg lim in
  let where_ :=
    match truthy (messages_status q) with
    | Some wanted => ContactMessage_where_status wanted
    | None => Some (λ _, true)
    end in
  match where_ with
  | None => (server_error, s)
  | Some matches =>
      match findAndCountAll (λ _, 1) matches
              (ContactMessage_order E (createdAt_column, true))
              (to_number E lim) offset (contact_messages s) with
      | None => (server_error, s)
      | Some (n, rows) =>
          (json_ok (JObj [("success", JBool true);
                          ("messages", JArr (ContactMessage_json <$> rows));
                          ("pagination",
                           Pagination_json
                             {| total := n; page := to_number E pg;
                                limit := to_number E lim;
                                totalPages :=
                                  Math_ceil_div n (to_number E lim) |})]),
           s)
      end
  end.

Definition POST_contact := through [] submit_contact.
Definition GET_contact_messages := through [auth P; admin] list_messages.
End ContactRoutes.

(** ** Vocabulary of the statements *)

(** The request passes the Credential Verifier and the Authorization Gate. *)
Definition by_admin (P : Platform) {B} (req : Request B) : Prop :=
  match auth P req with
  | Next req' => match admin req' with Next _ => True | Send _ => False end
  | Send _ => False
  end.

(** The request as the handler behind [auth] receives it. *)
Definition authenticated (P : Platform) {B} (req : Request B) : Request B :=
  match auth P req with Next req' => req' | Send _ => req end.

Definition admin_count (s : Store) : Z := count is_admin (users s).

(** The primary key of the users table. *)
Definition users_keyed (s : Store) : Prop := NoDup (user_id <$> users s).

(** Some key of the object, at any depth, is [k]. *)
Fixpoint has_key (k : string) (j : json) : bool :=
  match j with
  | JArr items => existsb (has_key k) items
  | JObj fields =>
      existsb (λ kv, String.eqb kv.1 k || has_key k kv.2) fields
  | _ => false
  end.

(** The same user table up to the stored password secrets. *)
Definition forget_password (u : User) : User :=
  {| user_id := user_id u; username := username u; email := email u;
     password := ""; is_admin := is_admin u; createdAt := createdAt u |}.

Definition same_but_passwords (s1 s2 : Store) : Prop :=
  forget_password <$> users s1 = forget_password <$> users s2
  ∧ users_seq s1 = users_seq s2.

(** [k] is the ceiling of [n / d], for a positive [d]. *)
Definition is_ceiling (n d k : Z) : Prop := (k - 1) * d < n ∧ n ≤ k * d.

(** A query with its [page] and [limit] taken out. *)
Definition filters_of (q : ProductQuery) : ProductQuery :=
  {| query_category := query_category q; query_search := query_search q;
     query_sort := query_sort q; query_page := None; query_limit := None |}.

Definition page_of (o : option Z) : Z := default 1 o.
Definition limit_of (o : option Z) : Z := default 10 o.

(** The successful answer of the product list. *)
Definition product_page (s : Store) (rows : list Product) (p : Pagination)
  : Response :=
  json_ok (JObj [("success", JBool true);
                 ("products", JArr (Product_json s <$> rows));
                 ("pagination", Pagination_json p)]).

(** The engine computes on [page] and [limit] as on integers: both are
    positive and, like the offset they give, within the range where the
    doubles are the integers. *)
Definition safe_page (pg lim : Z) : Prop :=
  0 < pg ≤ MAX_SAFE_INTEGER ∧ 0 < lim ≤ MAX_SAFE_INTEGER
  ∧ (pg - 1) * lim ≤ MAX_SAFE_INTEGER.

(** On that range the engine's conversions are exact. *)
Definition exact_numbers (E : Engine) : Prop :=
  (∀ n, 0 < n ≤ MAX_SAFE_INTEGER → to_number E n = n)
  ∧ (∀ pg lim, safe_page pg lim → parseInt_offset E pg lim = (pg - 1) * lim).

(** The collation of the database compares any two texts. *)
Definition collation_total (E : Engine) : Prop :=
  ∀ a b, text_le E a b = true ∨ text_le E b a = true.

(** The request asks for an order by name. *)
Definition by_name_order (q : ProductQuery) : Prop :=
  query_sort q = Some "name-asc" ∨ query_sort q = Some "name-desc".

(** The total of the product list: the rows of the join of the matching
    products with their images. *)
Definition joined_total (P : Platform) (q : ProductQuery) (s : Store) : Z :=
  foldr (λ p n, image_rows s p + n) 0
    (filter (λ p, product_matches P q s p) (products s)).

(** The responses of a route are the same on two stores, request by
    request, and no object in them has a [password] member. *)
Definition hides_passwords {B} (route : Request B → Store → Response * Store)
    (s1 s2 : Store) : Prop :=
  ∀ req, (route req s1).1 = (route req s2).1
         ∧ has_key "password" (body (route req s1).1) = false.

(** The users table as the datastore keeps it: ids are unique and were all
    drawn from the sequence. *)
Definition users_wf (s : Store) : Prop :=
  users_keyed s ∧ ∀ u, u ∈ users s → user_id u < users_seq s.

(** The platform verifies, at the time of signing, the tokens it signs for
    the stored users. *)
Definition tokens_verify (P : Platform) (s : Store) : Prop :=
  ∀ u e t, u ∈ users s →
    jwt_verify P
      (jwt_sign P {| payload_user := Some (claims_of u) |} (JWT_SECRET P) e t)
      (JWT_SECRET P) t
    = Some {| payload_user := Some (claims_of u) |}.

(** What an update of a user leaves alone. *)
Definition user_frame (b : UserBody) (u u' : User) : Prop :=
  user_id u' = user_id u
  ∧ createdAt u' = createdAt u
  ∧ (body_username b = None → username u' = username u)
  ∧ (body_email b = None → email u' = email u)
  ∧ (body_is_admin b = None → is_admin u' = is_admin u)
  ∧ (body_password b = None → password u' = password u).

(** What an update of a product leaves alone: every column but
    [updated_at]. *)
Definition product_frame (b : ProductBody) (p p' : Product) : Prop :=
  product_id p' = product_id p
  ∧ product_slug p' = product_slug p
  ∧ created_at p' = created_at p
  ∧ (form_name b = None → product_name p' = product_name p)
  ∧ (form_model_number b = None → model_number p' = model_number p)
  ∧ (form_category_id b = None
     → product_category_id p' = product_category_id p)
  ∧ (form_description b = None → description p' = description p)
  ∧ (form_features b = None → features p' = features p)
  ∧ (form_specifications b = None → specifications p' = specifications p)
  ∧ (form_price b = None → price p' = price p).

(** ** A small deployment for the examples *)

Definition seeded_admin : User :=
  {| user_id := 1; username := "admin"; email := "admin@example.com";
     password := "hash:admin123"; is_admin := true; createdAt := 10 |}.


Definition has_at_sign (s : string) : bool :=
  bool_decide (is_Some (String.index 0 "@" s)).

Definition demo : Platform :=
  {| JWT_SECRET := "secret";
     JWT_EXPIRES_IN := None;
     jwt_sign := λ _ _ _ _, "admin-token";
     jwt_verify := λ token _ _,
       if String.eqb token "admin-token"
       then Some {| payload_user := Some (claims_of seeded_admin) |}
       else None;
     comparePassword := λ candidate stored,
       String.eqb ("hash:" +:+ candidate) stored;
     hashPassword := λ pw, "hash:" +:+ pw;
     isEmail := has_at_sign;
     iLike := λ text value,
       bool_decide (is_Some (String.index 0 text value));
     public_path := λ url, "/srv/public" +:+ url;
     JSON_parse := λ _, None |}.

(** A text of blanks only, the empty one included. *)
Fixpoint blank (s : string) : bool :=
  match s with
  | EmptyString => true
  | String c s' => Ascii.eqb c (Ascii.ascii_of_nat 32) && blank s'
  end.

Definition demo_engine : Engine :=
  {| to_number := λ n, n;
     parseInt_offset := λ pg lim, (pg - 1) * lim;
     text_le := String.leb;
     model_notEmpty := λ v, negb (blank v);
     model_isEmail := has_at_sign |}.

Definition digital_watches : Category :=
  {| category_id := 1; category_name := "Digital Watch";
     category_slug := "digital-watch";
     category_description := Some "Modern digital watches";
     image_url := Some "/uploads/categories/category-1.png" |}.

Definition smart_watches : Category :=
  {| category_id := 2; category_name := "Smart Watch";
     category_slug := "smart-watch"; category_description := None;
     image_url := Some "/uploads/categories/category-2.png" |}.

Definition watch_1894 : Product :=
  {| product_id := 1; product_name := "Digital Watch 1894";
     product_slug := "digital-watch-1894"; model_number := Some "1894";
     description := Some "The SKMEI 1894 Digital Watch";
     features := None; specifications := None; price := None;
     product_category_id := Some 1; created_at := 100; updated_at := 100 |}.

Definition shop : Store :=
  {| users := [seeded_admin]; users_seq := 2;
     categories := [digital_watches; smart_watches];
     products := [watch_1894];
     product_images := []; product_images_seq := 1;
     contact_messages := []; contact_messages_seq := 1;
     files := {[ "/srv/public/uploads/categories/category-2.png" ]} |}.


Definition as_admin {B} (id : Z) (b : B) (t : Z) : Request B :=
  incoming (Some "Bearer admin-token") id b t.

Definition good_login : LoginBody :=
  {| login_username := Some "admin"; login_password := Some "admin123" |}.

Definition login_without_password : LoginBody :=
  {| login_username := Some "nobody"; login_password := Some "" |}.

Definition enquiry : ContactBody :=
  {| form_contact_name := Some "Lan"; form_contact_email := Some "lan@example.com";
     form_phone := None; form_subject := Some "Strap";
     form_message := Some "Do you sell spare straps?" |}.

(** The same enquiry from a sender whose name is one blank. *)
Definition blank_name_enquiry : ContactBody :=
  {| form_contact_name := Some " "; form_contact_email := Some "lan@example.com";
     form_phone := None; form_subject := Some "Strap";
     form_message := Some "Do you sell spare straps?" |}.

Definition rename_only : ProductBody :=
  {| form_name := Some "Digital Watch 1894 v2"; form_model_number := None;
     form_category_id := None; form_description := None;
     form_features := None; form_specifications := None; form_price := None;
     form_replace_images := None; uploaded := [] |}.

Definition new_email_only : UserBody :=
  {| body_username := None; body_email := Some "owner@example.com";
     body_password := None; body_is_admin := None |}.

Definition shop_other_passwords : Store :=
  set_users
    [{| user_id := 1; username := "admin"; email := "admin@example.com";
        password := "hash:changed"; is_admin := true; createdAt := 10 |}]
    2 shop.

Definition first_page : ProductQuery :=
  {| query_category := Some "digital-watch"; query_search := None;
     query_sort := Some "name-asc"; query_page := None;
     query_limit := Some 5 |}.

Definition seventh_page : ProductQuery :=
  {| query_category := None; query_search := Some "Watch";
     query_sort := None; query_page := Some 7; query_limit := None |}.

Definition unread_messages : MessagesQuery :=
  {| messages_page := Some 1; messages_limit := Some 20;
     messages_status := Some "unread" |}.

Definition all_messages : MessagesQuery :=
  {| messages_page := None; messages_limit := None;
     messages_status := None |}.

(** * The rest of the routers *)

(** ** routes/userRoutes.js: the password change; the auth router: register *)

Record PasswordBody : Type :=
  { body_current_password : option string;
    body_new_password : option string }.

Definition password_changed : Response :=
  json_ok (JObj [("success", JBool true);
                 ("message", JStr "Password changed successfully")]).

Section AccountRoutes.
Variable P : Platform.

(** PUT /api/users/:id/change-password, the handler behind [auth].
    [user.update({ password })] writes the password alone; the other
    columns are written back as they are. *)
Definition change_password (req : Request PasswordBody) (s : Store)
  : Response * Store :=
  let b := payload req in
  let errors :=
    (check JStr notEmpty "current_password" "Current password is required"
       (body_current_password b)
     ++ check JStr min_length_6 "new_password"
          "New password must be at least 6 characters long"
          (body_new_password b))%list in
  match errors, body_current_password b, body_new_password b with
  | [], Some current, Some fresh =>
      match User_findByPk (params_id req) (users s) with
      | None => (failure 404 "User not found", s)
      | Some u =>
          match user req with
          | None => (server_error, s)
          | Some c =>
              if negb (claim_id c =? user_id u) && negb (claim_is_admin c)
              then (failure 403
                      "Not authorized to change this user's password", s)
              else if negb (comparePassword P current (password u))
              then (failure 400 "Current password is incorrect", s)
              else
                let u' :=
                  User_update P
                    {| new_username := username u; new_email := email u;
                       new_is_admin := is_admin u;
                       new_password := Some fresh |} u in
                (password_changed,
                 set_users (User_save u' (users s)) (users_seq s) s)
          end
      end
  | [], _, _ => (server_error, s)
  | _ :: _, _, _ => (validation_failed errors, s)
  end.

(** POST /api/auth/register *)
Definition register (req : Request UserBody) (s : Store)
  : Response * Store :=
  let b := payload req in
  let errors :=
    (check JStr notEmpty "username" "Username is required" (body_username b)
     ++ check JStr (isEmail P) "email" "Please include a valid email"
          (body_email b)
     ++ check JStr min_length_6 "password"
          "Password must be at least 6 characters long" (body_password b)
     ++ check JBool (λ _, true) "is_admin" "is_admin must be a boolean"
          (body_is_admin b))%list in
  match errors, body_username b, body_email b, body_password b,
        body_is_admin b with
  | [], Some name, Some mail, Some pw, Some adm =>
      match User_findOne_username name (users s) with
      | Some _ => (failure 400 "Username already exists", s)
      | None =>
          match User_findOne_email mail (users s) with
          | Some _ => (failure 400 "Email already exists", s)
          | None =>
              let created :=
                User_create P (users_seq s) name mail pw adm (now req) in
              let token :=
                jwt_sign P {| payload_user := Some (claims_of created) |}
                  (JWT_SECRET P) (or_else (JWT_EXPIRES_IN P) "1d")
                  (now req) in
              (json_ok (JObj [("success", JBool true); ("token", JStr token);
                              ("user", Claims_json (claims_of created))]),
               set_users (users s ++ [created]) (users_seq s + 1) s)
          end
      end
  | [], _, _, _, _ => (server_error, s)
  | _ :: _, _, _, _, _ => (validation_failed errors, s)
  end.

Definition PUT_users_id_change_password := through [auth P] change_password.
Definition POST_auth_register := through [] register.
End AccountRoutes.

(** ** routes/contactRoutes.js: one message *)

Record StatusBody : Type := { body_status : option string }.

Definition ContactMessage_findByPk (id : Z) (ms : list ContactMessage)
  : option ContactMessage :=
  find (λ m, message_id m =? id) ms.

Definition ContactMessage_destroy (m : ContactMessage)
    (ms : list ContactMessage) : list ContactMessage :=
  filter (λ n, message_id n ≠ message_id m) ms.

(** The id column is a 32-bit INTEGER: the database rejects the lookup of
    a key outside its range. *)
Definition in_INTEGER (id : Z) : bool :=
  (-2147483648 <=? id) && (id <=? 2147483647).

(** [message.status]: the model has no such attribute, the member is
    undefined on every row read from the table. *)
Definition ContactMessage_status (m : ContactMessage) : option string := None.

Definition message_deleted : Response :=
  json_ok (JObj [("success", JBool true);
                 ("message", JStr "Message deleted successfully")]).

(** The answer that shows one message. *)
Definition shows_message (m : ContactMessage) : Response :=
  json_ok (JObj [("success", JBool true); ("message", ContactMessage_json m)]).

(** GET /api/contact/messages/:id, the handler behind [auth] and [admin].
    In the branch for an unread message, [message.status = 'read'] sets a
    member that is no attribute, and [save] has nothing to write. *)
Definition get_message (req : Request unit) (s : Store) : Response * Store :=
  if negb (in_INTEGER (params_id req)) then (server_error, s)
  else
    match ContactMessage_findByPk (params_id req) (contact_messages s) with
    | None => (failure 404 "Message not found", s)
    | Some m =>
        if bool_decide (ContactMessage_status m = Some "unread")
        then (shows_message m, s)
        else (shows_message m, s)
    end.

(** PUT /api/contact/messages/:id, the handler behind [auth] and [admin].
    [message.update({ status })] names no attribute of the model and
    writes nothing. *)
Definition update_message (req : Request StatusBody) (s : Store)
  : Response * Store :=
  if negb (in_INTEGER (params_id req)) then (server_error, s)
  else
    match ContactMessage_findByPk (params_id req) (contact_messages s) with
    | None => (failure 404 "Message not found", s)
    | Some m => (shows_message m, s)
    end.

(** DELETE /api/contact/messages/:id, the handler behind [auth] and
    [admin] *)
Definition delete_message (req : Request unit) (s : Store)
  : Response * Store :=
  if negb (in_INTEGER (params_id req)) then (server_error, s)
  else
    match ContactMessage_findByPk (params_id req) (contact_messages s) with
    | None => (failure 404 "Message not found", s)
    | Some m =>
        (message_deleted,
         set_contact_messages (ContactMessage_destroy m (contact_messages s))
           (contact_messages_seq s) s)
    end.

(** ** The category router: list, get, products of a category, create,
       update *)

Record CategoryBody : Type :=
  { form_category_name : option string; form_category_slug : option string;
    form_category_description : option string;
    (** [req.file.filename], when a file came with the form *)
    category_file : option string }.

Record CategoryProductsQuery : Type :=
  { params_slug : string;
    category_page : option Z; category_limit : option Z }.

(** [category.toJSON()] *)
Definition Category_json (c : Category) : json :=
  JObj [("id", JNum (category_id c)); ("name", JStr (category_name c));
        ("slug", JStr (category_slug c));
        ("description", JOpt JStr (category_description c));
        ("image_url", JOpt JStr (image_url c))].

(** A product row read without its associations. *)
Definition Product_row_json (p : Product) : json :=
  JObj [("id", JNum (product_id p)); ("name", JStr (product_name p));
        ("slug", JStr (product_slug p));
        ("model_number", JOpt JStr (model_number p));
        ("description", JOpt JStr (description p));
        ("features", JOpt JStr (features p));
        ("specifications", JOpt id (specifications p));
        ("price", JOpt JStr (price p));
        ("category_id", JOpt JNum (product_category_id p));
        ("created_at", JNum (created_at p));
        ("updated_at", JNum (updated_at p))].

(** [Category.findOne({ where: { slug } })] *)
Definition Category_findOne_slug (slug : string) (cs : list Category)
  : option Category :=
  find (λ c, String.eqb (category_slug c) slug) cs.

Definition Category_save (c : Category) (cs : list Category) : list Category :=
  (λ d, if category_id d =? category_id c then c else d) <$> cs.

(** [order: [['name', 'ASC']]] on the categories *)
Definition by_name (E : Engine) (a b : Category) : bool :=
  text_le E (category_name a) (category_name b).

(** [`/uploads/categories/${req.file.filename}`] *)
Definition category_upload (f : string) : string :=
  "/uploads/categories/" +:+ f.

Definition slug_exists : Response :=
  failure 400 "Category with this slug already exists".

Section CategoryRoutes.
Variable P : Platform.
Variable E : Engine.

(** GET /api/categories *)
Definition list_categories (req : Request unit) (s : Store)
  : Response * Store :=
  (json_ok (JObj [("success", JBool true);
                  ("categories",
                   JArr (Category_json
                         <$> order_by (by_name E) (categories s)))]),
   s).

(** GET /api/categories/:id *)
Definition get_category (req : Request unit) (s : Store) : Response * Store :=
  match Category_findByPk (params_id req) (categories s) with
  | None => (failure 404 "Category not found", s)
  | Some c =>
      (json_ok (JObj [("success", JBool true); ("category", Category_json c)]),
       s)
  end.

(** GET /api/categories/:slug/products. Nothing is included, the count is
    of the products. *)
Definition category_products (req : Request CategoryProductsQuery)
    (s : Store) : Response * Store :=
  let q := payload req in
  let pg := default 1 (category_page q) in
  let lim := default 10 (category_limit q) in
  let offset := parseInt_offset E pg lim in
  match Category_findOne_slug (params_slug q) (categories s) with
  | None => (failure 404 "Category not found", s)
  | Some c =>
      match findAndCountAll (λ _, 1) (in_category (category_id c))
              (Product_order E (createdAt_column, true))
              (to_number E lim) offset (products s) with
      | None => (server_error, s)
      | Some (n, rows) =>
          (json_ok (JObj [("success", JBool true);
                          ("category", Category_json c);
                          ("products", JArr (Product_row_json <$> rows));
                          ("pagination",
                           Pagination_json
                             {| total := n; page := to_number E pg;
                                limit := to_number E lim;
                                totalPages :=
                                  Math_ceil_div n (to_number E lim) |})]),
           s)
      end
  end.

(** POST /api/categories, the handler behind [auth], [admin] and the
    upload; [key] is the id that the datastore gives the new row. A body
    that passes the two validators has the two members, so the second
    branch is never taken. *)
Definition create_category (key : Z) (req : Request CategoryBody) (s : Store)
  : Response * Store :=
  let b := payload req in
  let errors :=
    (check JStr notEmpty "name" "Category name is required"
       (form_category_name b)
     ++ check JStr notEmpty "slug" "Category slug is required"
          (form_category_slug b))%list in
  match errors, form_category_name b, form_category_slug b with
  | [], Some name, Some slug =>
      match Category_findOne_slug slug (categories s) with
      | Some _ => (slug_exists, s)
      | None =>
          let category :=
            {| category_id := key; category_name := name;
               category_slug := slug;
               category_description := truthy (form_category_description b);
               image_url := category_upload <$> category_file b |} in
          ({| status := 201;
              body := JObj [("success", JBool true);
                            ("category", Category_json category)] |},
           set_categories (categories s ++ [category]) s)
      end
  | [], _, _ => (server_error, s)
  | _ :: _, _, _ => (validation_failed errors, s)
  end.

(** [req.body.slug && req.body.slug !== category.slug], then a row with
    that slug *)
Definition slug_taken (x : option string) (current : string)
    (cs : list Category) : bool :=
  match x with
  | Some v => notEmpty v && negb (String.eqb v current)
              && bool_decide (is_Some (Category_findOne_slug v cs))
  | None => false
  end.

(** The values [category.update({...})] writes in PUT /api/categories/:id;
    the description is taken from the body whenever the body has one, the
    empty one included. *)
Definition updated_category (b : CategoryBody) (c : Category) : Category :=
  {| category_id := category_id c;
     category_name := or_else (form_category_name b) (category_name c);
     category_slug := or_else (form_category_slug b) (category_slug c);
     category_description :=
       match form_category_description b with
       | Some d => Some d
       | None => category_description c
       end;
     image_url :=
       match category_file b with
       | Some f => Some (category_upload f)
       | None => image_url c
       end |}.

(** PUT /api/categories/:id, the handler behind [auth], [admin] and the
    upload *)
Definition update_category (req : Request CategoryBody) (s : Store)
  : Response * Store :=
  let b := payload req in
  match Category_findByPk (params_id req) (categories s) with
  | None => (failure 404 "Category not found", s)
  | Some category =>
      if slug_taken (form_category_slug b) (category_slug category)
           (categories s)
      then (slug_exists, s)
      else
        let fs :=
          match category_file b, truthy (image_url category) with
          | Some _, Some old => unlink_if_exists (public_path P old) (files s)
          | _, _ => files s
          end in
        let category' := updated_category b category in
        (json_ok (JObj [("success", JBool true);
                        ("category", Category_json category')]),
         set_categories (Category_save category' (categories s))
           (set_files fs s))
  end.
End CategoryRoutes.

(** ** The product router: get, create, delete *)

(** The object handed to [Product.create]. *)
Record ProductValues : Type :=
  { value_name : option string; value_slug : option string;
    value_model_number : option string; value_category_id : option Z;
    value_description : option string; value_features : option string;
    value_specifications : option json; value_price : option string }.

(** [Product.create(values)] under models/Product.js: [name] and [slug] are
    declared [allowNull: false] with [notEmpty], [slug] is unique, every
    other column may be null and both time stamps default to now. The
    result is None when the validation or the unique constraint throws;
    [key] is the id that the datastore gives the new row. *)
Definition Product_create (key t : Z) (v : ProductValues) (ps : list Product)
  : option Product :=
  match truthy (value_name v), truthy (value_slug v) with
  | Some name, Some slug =>
      if bool_decide (is_Some (find (λ p, String.eqb (product_slug p) slug) ps))
      then None
      else Some {| product_id := key; product_name := name;
                   product_slug := slug;
                   model_number := value_model_number v;
                   description := value_description v;
                   features := value_features v;
                   specifications := value_specifications v;
                   price := value_price v;
                   product_category_id := value_category_id v;
                   created_at := t; updated_at := t |}
  | _, _ => None
  end.

Definition Product_destroy (p : Product) (ps : list Product) : list Product :=
  filter (λ q, product_id q ≠ product_id p) ps.

(** The loop over the images of a product that unlinks their files. *)
Definition unlink_images (public : string → string)
    (images : list ProductImage) (fs : gset string) : gset string :=
  foldl (λ fs i, unlink_if_exists (public (product_image_url i)) fs) fs images.

Definition product_deleted : Response :=
  json_ok (JObj [("success", JBool true);
                 ("message", JStr "Product deleted successfully")]).

Section ProductRoutes.
Variable P : Platform.
Variable E : Engine.

(** GET /api/products/:id *)
Definition get_product (req : Request unit) (s : Store) : Response * Store :=
  match Product_findByPk (params_id req) (products s) with
  | None => (failure 404 "Product not found", s)
  | Some p =>
      (json_ok (JObj [("success", JBool true); ("product", Product_json s p)]),
       s)
  end.

(** POST /api/products, the handler behind [auth], [admin] and the upload;
    [key] is the id that the datastore would give the new row. The object
    handed to [Product.create] has no [slug] member. *)
Definition create_product (key : Z) (req : Request ProductBody) (s : Store)
  : Response * Store :=
  let b := payload req in
  let errors :=
    (check JStr notEmpty "name" "Product name is required" (form_name b)
     ++ check JStr notEmpty "model_number" "Model number is required"
          (form_model_number b)
     ++ check JNum (λ _, true) "category_id" "Category is required"
          (form_category_id b)
     ++ check JStr notEmpty "description" "Description is required"
          (form_description b))%list in
  match errors, form_category_id b with
  | [], Some c =>
      match Category_findByPk c (categories s) with
      | None => (failure 400 "Invalid category", s)
      | Some _ =>
          let parsed :=
            match truthy (form_specifications b) with
            | Some text => Some <$> JSON_parse P text
            | None => Some None
            end in
          match parsed with
          | None => (server_error, s)
          | Some specs =>
              let values :=
                {| value_name := form_name b; value_slug := None;
                   value_model_number := form_model_number b;
                   value_category_id := Some c;
                   value_description := form_description b;
                   value_features := truthy (form_features b);
                   value_specifications := specs;
                   value_price := truthy (form_price b) |} in
              match Product_create key (now req) values (products s) with
              | None => (server_error, s)
              | Some product =>
                  let s1 := set_products (products s ++ [product]) s in
                  let added :=
                    new_images (product_id product) true true
                      (product_images_seq s1) (uploaded b) in
                  let s2 :=
                    set_product_images (product_images s1 ++ added)
                      (product_images_seq s1 + Z.of_nat (length added)) s1 in
                  match Product_findByPk (product_id product) (products s2)
                  with
                  | None => ({| status := 201;
                                body := JObj [("success", JBool true);
                                              ("product", JNull)] |}, s2)
                  | Some createdProduct =>
                      ({| status := 201;
                          body := JObj [("success", JBool true);
                                        ("product",
                                         Product_json s2 createdProduct)] |},
                       s2)
                  end
              end
          end
      end
  | [], None => (server_error, s)
  | _ :: _, _ => (validation_failed errors, s)
  end.

(** DELETE /api/products/:id, the handler behind [auth] and [admin]. The
    files of the product's images are unlinked, then the row is destroyed;
    the rows of its images go with it ("cascade will delete images"). *)
Definition delete_product (req : Request unit) (s : Store)
  : Response * Store :=
  match Product_findByPk (params_id req) (products s) with
  | None => (failure 404 "Product not found", s)
  | Some p =>
      let images :=
        filter (λ i, of_product (product_id p) i) (product_images s) in
      let fs := unlink_images (public_path P) images (files s) in
      (product_deleted,
       set_products (Product_destroy p (products s))
         (set_product_images
            (filter (λ i, ¬ of_product (product_id p) i) (product_images s))
            (product_images_seq s) (set_files fs s)))
  end.

(** [upload.single('image')], the last layer in front of the handlers of
    POST /api/categories and PUT /api/categories/:id: the form's file,
    when the file filter and the size limit let it through, is written
    under public/uploads/categories under the name the storage gave it. *)
Definition upload_single
    (handler : Request CategoryBody → Store → Response * Store)
    (req : Request CategoryBody) (s : Store) : Response * Store :=
  handler req
    (set_files (store_uploads P "/uploads/categories/"
                  (option_list (category_file (payload req))) (files s)) s).

(** The other routes as the routers register them. *)
Definition GET_contact_messages_id := through [auth P; admin] get_message.
Definition PUT_contact_messages_id := through [auth P; admin] update_message.
Definition DELETE_contact_messages_id :=
  through [auth P; admin] delete_message.
Definition GET_categories := through [] (list_categories E).
Definition GET_categories_id := through [] get_category.
Definition GET_categories_slug_products :=
  through [] (category_products E).
Definition POST_categories (key : Z) :=
  through [auth P; admin] (upload_single (create_category key)).
Definition PUT_categories_id :=
  through [auth P; admin] (upload_single (update_category P)).
Definition GET_products_id := through [] get_product.
Definition POST_products (key : Z) :=
  through [auth P; admin] (upload_array P 10 (create_product key)).
Definition DELETE_products_id := through [auth P; admin] delete_product.
End ProductRoutes.

(** ** Vocabulary of the further statements *)

(** The answers with which the two gates turn a request away. *)
Definition turned_away : list Response :=
  [failure 401 "No token, authorization denied";
   failure 401 "Token is not valid";
   failure 403 "Access denied. Admin privileges required.";
   internal_server_error].

(** The request body passes the validators of the password change. *)
Definition valid_password_change (b : PasswordBody) (current fresh : string)
  : Prop :=
  body_current_password b = Some current ∧ body_new_password b = Some fresh
  ∧ current ≠ "" ∧ (6 ≤ String.length fresh)%nat.

(** The password hook and the comparison agree: a secret verifies the
    password it was hashed from. *)
Definition hash_verifies (P : Platform) : Prop :=
  ∀ pw, comparePassword P pw (hashPassword P pw) = true.

(** The users table with its unique columns. *)
Definition accounts_wf (s : Store) : Prop :=
  users_wf s ∧ NoDup (username <$> users s) ∧ NoDup (email <$> users s).

(** The request body passes the validators of POST /api/users and of
    POST /api/auth/register. *)
Definition valid_account (P : Platform) (b : UserBody)
    (name mail pw : string) (adm : bool) : Prop :=
  body_username b = Some name ∧ body_email b = Some mail
  ∧ body_password b = Some pw ∧ body_is_admin b = Some adm
  ∧ name ≠ "" ∧ isEmail P mail = true ∧ (6 ≤ String.length pw)%nat.

Definition login_with (name pw : string) : LoginBody :=
  {| login_username := Some name; login_password := Some pw |}.

Definition ordinary_user : User :=
  {| user_id := 2; username := "lan"; email := "lan@example.com";
     password := "hash:secret1"; is_admin := false; createdAt := 30 |}.

Definition shop_with_lan : Store := set_users [seeded_admin; ordinary_user] 3 shop.

Definition lan_changes_password : PasswordBody :=
  {| body_current_password := Some "secret1";
     body_new_password := Some "secret2" |}.

(** A request on which [auth] has set [req.user]. *)
Definition signed_in {B} (c : Claims) (id : Z) (b : B) (t : Z) : Request B :=
  {| authorization := None; user := Some c; params_id := id; payload := b;
     now := t |}.

(** What POST /api/users and POST /api/auth/register do to the store. *)
Definition adds_account (P : Platform) (req : Request UserBody)
    (s s' : Store) : Prop :=
  s' = s
  ∨ ∃ name mail pw adm,
      valid_account P (payload req) name mail pw adm
      ∧ User_findOne_username name (users s) = None
      ∧ User_findOne_email mail (users s) = None
      ∧ s' = set_users
               (users s ++ [User_create P (users_seq s) name mail pw adm
                              (now req)])
               (users_seq s + 1) s.

Definition new_admin_account : UserBody :=
  {| body_username := Some "mallory"; body_email := Some "m@example.com";
     body_password := Some "letmein"; body_is_admin := Some true |}.

(** The answer of a login that succeeds. *)
Definition logged_in (token : string) (u : User) : Response :=
  json_ok (JObj [("success", JBool true); ("token", JStr token);
                 ("user", Claims_json (claims_of u))]).

Definition strap_enquiry : ContactMessage :=
  {| message_id := 1; contact_name := "Lan"; contact_email := "lan@example.com";
     phone := None; message := "Do you sell spare straps?";
     contact_created := 50; is_read := false |}.

Definition archive_it : StatusBody := {| body_status := Some "archived" |}.

Definition shop_with_enquiry : Store :=
  set_contact_messages [strap_enquiry] 2 shop.

(** The categories table with its unique columns. *)
Definition categories_wf (s : Store) : Prop :=
  NoDup (category_id <$> categories s)
  ∧ NoDup (category_slug <$> categories s).

Definition watches_again : CategoryBody :=
  {| form_category_name := Some "Smart Watch 2";
     form_category_slug := Some "smart-watch";
     form_category_description := None; category_file := None |}.

Definition new_picture : CategoryBody :=
  {| form_category_name := None; form_category_slug := None;
     form_category_description := Some ""; category_file := Some "category-9.png" |}.

Definition digital_page_two : CategoryProductsQuery :=
  {| params_slug := "digital-watch"; category_page := Some 2;
     category_limit := Some 1 |}.

Definition new_watch : ProductBody :=
  {| form_name := Some "Digital Watch 2001"; form_model_number := Some "2001";
     form_category_id := Some 1;
     form_description := Some "A new digital watch";
     form_features := None; form_specifications := None; form_price := None;
     form_replace_images := None; uploaded := ["product-1.png"] |}.

Definition front_view : ProductImage :=
  {| image_id := 1; image_product_id := 1;
     product_image_url := "/images/placeholder.jpg"; is_primary := true |}.

Definition side_view : ProductImage :=
  {| image_id := 2; image_product_id := 1;
     product_image_url := "/uploads/products/product-2.png";
     is_primary := false |}.

(** The one product of the shop with two images. *)
Definition shop_two_images : Store :=
  set_product_images [front_view; side_view] 3 shop.

Definition shop_with_image : Store :=
  set_product_images [front_view] 2
    (set_files {[ "/srv/public/images/placeholder.jpg" ]} shop).

Definition two_new_pictures (replace : option string) : ProductBody :=
  {| form_name := None; form_model_number := None; form_category_id := None;
     form_description := None; form_features := None;
     form_specifications := None; form_price := None;
     form_replace_images := replace;
     uploaded := ["product-7.png"; "product-8.png"] |}.

(** The rows of a listing follow the order [le]: each row and the next. *)
Definition in_order {A} (le : A → A → bool) (l : list A) : Prop :=
  ∀ i a b, l !! i = Some a → l !! S i = Some b → le a b = true.






(** A body that passes the four validators of POST /api/contact and
    that the model of the contact messages accepts: its validators and the
    sizes of its columns. *)
Definition valid_enquiry (P : Platform) (E : Engine) (b : ContactBody)
    (name mail subj text : string) : Prop :=
  form_contact_name b = Some name ∧ form_contact_email b = Some mail
  ∧ form_subject b = Some subj ∧ form_message b = Some text
  ∧ name ≠ "" ∧ isEmail P mail = true ∧ subj ≠ "" ∧ text ≠ ""
  ∧ model_notEmpty E name = true ∧ model_isEmail E mail = true
  ∧ model_notEmpty E text = true
  ∧ (String.length name ≤ 100)%nat ∧ (String.length mail ≤ 100)%nat
  ∧ (∀ ph, form_phone b = Some ph → (String.length ph ≤ 50)%nat).

(** Every stored message is unread. *)
Definition all_unread (s : Store) : Prop :=
  ∀ m, m ∈ contact_messages s → is_read m = false.

(** The ids in use are below the next value of the sequence. *)
Definition messages_wf (s : Store) : Prop :=
  ∀ m, m ∈ contact_messages s → message_id m < contact_messages_seq s.

Definition shows_category (c : Category) : json :=
  JObj [("success", JBool true); ("category", Category_json c)].

Definition kids_watches : CategoryBody :=
  {| form_category_name := Some "Kids Watch";
     form_category_slug := Some "kids-watch";
     form_category_description := Some "Fun and durable watches";
     category_file := Some "category-3.png" |}.

(** ** config/seedData.js

    [seedDatabase] fills each of the three tables that it finds empty and
    leaves the others alone. The ids of new categories and products come
    from sequences of the datastore, here the arguments [category_key] and
    [product_key]; [JSON.stringify] is a parameter. [None] stands for the
    exception that the function logs and throws again. *)

(** The lines of a text, joined by the newline character. *)
Definition lines (ls : list string) : string :=
  String.concat (String (Ascii.ascii_of_nat 10) EmptyString) ls.

Definition seeded_categories : list (string * string * string) :=
  [("Digital Watch", "digital-watch",
    "Modern digital watches with multiple functions");
   ("Quartz Watch", "quartz-watch",
    "Classic quartz watches for everyday wear");
   ("Lady Watch", "lady-watch", "Elegant watches designed for women");
   ("Mechanical Watch", "mechanical-watch",
    "Traditional mechanical watches with intricate movements");
   ("Smart Watch", "smart-watch",
    "Advanced smartwatches with connectivity features");
   ("Kids Watch", "kids-watch", "Fun and durable watches for children");
   ("LED Watch", "led-watch", "Modern LED watches with unique displays");
   ("Azan Watch", "azan-watch",
    "Specialized watches with prayer time reminders")].

(** [Category.bulkCreate(categories)], the sequence starting at [key] *)
Fixpoint Category_bulkCreate (key : Z) (vs : list (string * string * string))
  : list Category :=
  match vs with
  | [] => []
  | (name, slug, descr) :: rest =>
      {| category_id := key; category_name := name; category_slug := slug;
         category_description := Some descr; image_url := None |}
      :: Category_bulkCreate (key + 1) rest
  end.

(** [categories.forEach(category => { categoryMap[category.slug] =
    category.id; })] and then [categoryMap[slug]]: the last category with
    the slug counts, and a slug that no category has gives [undefined]. *)
Definition categoryMap (cs : list Category) (slug : string) : option Z :=
  category_id <$> find (λ c, String.eqb (category_slug c) slug) (reverse cs).

Section Seed.
Variable P : Platform.
Variable JSON_stringify : json → string.

Definition seeded_products (map : string → option Z) : list ProductValues :=
  [{| value_name := Some "Digital Watch 1894";
      value_slug := Some "digital-watch-1894";
      value_model_number := Some "1894";
      value_category_id := map "digital-watch";
      value_description := Some "The SKMEI 1894 Digital Watch combines modern technology with sleek design. This versatile timepiece features a clear digital display, comfortable strap, and multiple functions to meet your everyday needs.";
      value_features :=
        Some (lines ["Digital display with backlight";
                     "Water resistant up to 30m";
                     "Chronograph functionality";
                     "Date and day display";
                     "Alarm function";
                     "Comfortable silicone strap";
                     "Long battery life"]);
      value_specifications :=
        Some (JStr (JSON_stringify
                      (JObj [("Case Material", JStr "ABS Plastic");
                             ("Band Material", JStr "Silicone");
                             ("Case Diameter", JStr "42mm");
                             ("Band Width", JStr "20mm");
                             ("Water Resistance", JStr "30m");
                             ("Movement", JStr "Digital");
                             ("Battery", JStr "CR2025")])));
      value_price := None |};
   {| value_name := Some "Quartz Watch 1961";
      value_slug := Some "quartz-watch-1961";
      value_model_number := Some "1961";
      value_category_id := map "quartz-watch";
      value_description := Some "The SKMEI 1961 Quartz Watch offers timeless elegance with reliable performance. Featuring a classic design with modern touches, this watch is perfect for both casual and formal occasions.";
      value_features :=
        Some (lines ["Analog display with precise quartz movement";
                     "Stainless steel case";
                     "Water resistant up to 30m";
                     "Date display";
                     "Durable mineral glass";
                     "Adjustable stainless steel bracelet";
                     "Long battery life"]);
      value_specifications :=
        Some (JStr (JSON_stringify
                      (JObj [("Case Material", JStr "Stainless Steel");
                             ("Band Material", JStr "Stainless Steel");
                             ("Case Diameter", JStr "40mm");
                             ("Band Width", JStr "20mm");
                             ("Water Resistance", JStr "30m");
                             ("Movement", JStr "Quartz");
                             ("Battery", JStr "SR626SW")])));
      value_price := None |};
   {| value_name := Some "Lady Watch 9222";
      value_slug := Some "lady-watch-9222";
      value_model_number := Some "9222";
      value_category_id := map "lady-watch";
      value_description := Some "The SKMEI 9222 Lady Watch combines elegance and functionality in a stylish package. Designed specifically for women, this watch features a slim profile, beautiful detailing, and reliable performance.";
      value_features :=
        Some (lines ["Elegant analog display";
                     "Slim stainless steel case";
                     "Water resistant up to 30m";
                     "Precise quartz movement";
                     "Scratch-resistant mineral glass";
                     "Adjustable stainless steel bracelet";
                     "Long battery life"]);
      value_specifications :=
        Some (JStr (JSON_stringify
                      (JObj [("Case Material", JStr "Stainless Steel");
                             ("Band Material", JStr "Stainless Steel");
                             ("Case Diameter", JStr "32mm");
                             ("Band Width", JStr "16mm");
                             ("Water Resistance", JStr "30m");
                             ("Movement", JStr "Quartz");
                             ("Battery", JStr "SR626SW")])));
      value_price := None |}].

(** [for (const productData of products)]: the product, then its
    placeholder image. *)
Fixpoint create_seeded_products (key t : Z) (vs : list ProductValues)
    (s : Store) : option Store :=
  match vs with
  | [] => Some s
  | v :: rest =>
      match Product_create key t v (products s) with
      | None => None
      | Some product =>
          let image :=
            {| image_id := product_images_seq s;
               image_product_id := product_id product;
               product_image_url := "/images/placeholder.jpg";
               is_primary := true |} in
          create_seeded_products (key + 1) t rest
            (set_product_images (product_images s ++ [image])
               (product_images_seq s + 1)
               (set_products (products s ++ [product]) s))
      end
  end.

Definition seedDatabase (category_key product_key t : Z) (s : Store)
  : option Store :=
  let adminCount := count (λ _, true) (users s) in
  let s1 :=
    if adminCount =? 0
    then set_users
           (users s ++ [User_create P (users_seq s) "admin"
                          "admin@example.com" "admin123" true t])
           (users_seq s + 1) s
    else s in
  let categoryCount := count (λ _, true) (categories s1) in
  let s2 :=
    if categoryCount =? 0
    then set_categories
           (categories s1
            ++ Category_bulkCreate category_key seeded_categories) s1
    else s1 in
  let productCount := count (λ _, true) (products s2) in
  if productCount =? 0
  then create_seeded_products product_key t
         (seeded_products (categoryMap (categories s2))) s2
  else Some s2.
End Seed.

(** A store with nothing in it, as a new database has it. *)
Definition new_database : Store :=
  {| users := []; users_seq := 1; categories := []; products := [];
     product_images := []; product_images_seq := 1;
     contact_messages := []; contact_messages_seq := 1; files := ∅ |}.

Definition shop_without_admin : Store :=
  set_users [ordinary_user] 3 new_database.

Definition admin_login : LoginBody := login_with "admin" "admin123".

(** The image row that seeding gives a product. *)
Definition placeholder (id product : Z) : ProductImage :=
  {| image_id := id; image_product_id := product;
     product_image_url := "/images/placeholder.jpg"; is_primary := true |}.

(** * Properties *)

(** ** The middleware chain *)

Lemma replace_Bearer (t : string) : replace "Bearer " "" ("Bearer " +:+ t) = t.
Proof. by destruct t. Qed.

Lemma through_nil {B S} (h : Request B → S → Response * S) req s :
  through [] h req s = h req s.
Proof. reflexivity. Qed.

Lemma by_admin_inv (P : Platform) {B} (req : Request B) :
  by_admin P req →
  ∃ c, auth P req = Next (set_user (Some c) req) ∧ claim_is_admin c = true.
Proof.
  unfold by_admin. destruct (auth P req) as [req'|r] eqn:Hauth; [|done].
  unfold admin. destruct (user req') as [c|] eqn:Hc; [|done].
  destruct (claim_is_admin c) eqn:Hadm; [|done]. intros _. exists c.
  unfold auth in Hauth. repeat case_match; simplify_eq.
  simpl in Hc. by rewrite Hc.
Qed.

Lemma through_by_admin (P : Platform) {B S}
    (h : Request B → S → Response * S) (req : Request B) (s : S) :
  by_admin P req → through [auth P; admin] h req s = h (authenticated P req) s.
Proof.
  intros (c & Hauth & Hc)%by_admin_inv.
  unfold authenticated. simpl. rewrite Hauth. unfold admin. simpl.
  by rewrite Hc.
Qed.

Lemma authenticated_params_id (P : Platform) {B} (req : Request B) :
  params_id (authenticated P req) = params_id req.
Proof.
  unfold authenticated. destruct (auth P req) as [req'|r] eqn:E; [|done].
  unfold auth in E. repeat case_match; by simplify_eq.
Qed.

Lemma authenticated_same_request (P : Platform) {B} (req : Request B) :
  authorization (authenticated P req) = authorization req
  ∧ params_id (authenticated P req) = params_id req
  ∧ payload (authenticated P req) = payload req
  ∧ now (authenticated P req) = now req.
Proof.
  unfold authenticated. destruct (auth P req) as [req'|r] eqn:E; [|done].
  unfold auth in E. repeat case_match; by simplify_eq.
Qed.

(** A header of the form "Bearer <token>" with a token that verifies. *)
Lemma bearer_passes (P : Platform) {B} (req : Request B) t decoded :
  authorization req = Some ("Bearer " +:+ t) → t ≠ "" →
  jwt_verify P t (JWT_SECRET P) (now req) = Some decoded →
  auth P req = Next (set_user (payload_user decoded) req).
Proof.
  intros Hhdr Ht Hv. unfold auth. rewrite Hhdr.
  change (replace "Bearer " "" <$> Some ("Bearer " +:+ t))
    with (Some (replace "Bearer " "" ("Bearer " +:+ t))).
  rewrite replace_Bearer. destruct t as [|a t]; [done|]. by rewrite Hv.
Qed.



(** ** GET /api/auth/me *)

(** C7. The router registers the handler of GET /api/auth/me with no
    middleware, so [req.user] is never set: every request, whatever its
    Authorization header, is answered 500 "Server error". A request without
    a token is not answered 401, and a request with a valid token gets no
    user back. *)
Theorem me_is_not_guarded (hdr : option string) (id t : Z) (s : Store) :
  GET_auth_me (incoming hdr id () t) s = (server_error, s).
Proof. reflexivity. Qed.

(** The comment on the route promises a private route; behind [auth] the
    same handler does what it promises. *)
Lemma me_behind_auth (P : Platform) (req : Request unit) (s : Store) c u :
  auth P req = Next (set_user (Some c) req) →
  User_findByPk (claim_id c) (users s) = Some u →
  through [auth P] me req s
  = (json_ok (JObj [("success", JBool true);
                    ("user", JObj (User_fields_excluding_password u))]), s).
Proof. intros Hauth Hu. simpl. rewrite Hauth. unfold me. simpl. by rewrite Hu. Qed.

Example me_with_valid_token :
  by_admin demo (as_admin 0 () 50 : Request unit)
  ∧ GET_auth_me (as_admin 0 () 50) shop = (server_error, shop)
  ∧ GET_auth_me (incoming None 0 () 50) shop = (server_error, shop).
Proof. by vm_compute. Qed.

(** ** Users: lookups, counts and deletion *)

Lemma User_findByPk_Some id us u :
  User_findByPk id us = Some u → u ∈ us ∧ user_id u = id.
Proof.
  unfold User_findByPk. intros [Hin Hid]%find_some.
  split; [by apply list_elem_of_In | lia].
Qed.

Lemma count_cons {A} (f : A → bool) x l :
  count f (x :: l) = (if f x then 1 else 0) + count f l.
Proof.
  unfold count. rewrite filter_cons.
  destruct (f x); simpl; try case_decide; simpl; try done;
    rewrite ?Nat2Z.inj_succ; lia.
Qed.

Lemma count_nonneg {A} (f : A → bool) l : 0 ≤ count f l.
Proof. unfold count. lia. Qed.

Lemma count_elem {A} (f : A → bool) x l : x ∈ l → f x = true → 1 ≤ count f l.
Proof.
  induction 1 as [x l|x y l Hin IH]; intros Hf; rewrite count_cons.
  - rewrite Hf. pose proof (count_nonneg f l). lia.
  - specialize (IH Hf). destruct (f y); lia.
Qed.



Lemma User_destroy_elem u l v :
  v ∈ User_destroy u l ↔ v ∈ l ∧ user_id v ≠ user_id u.
Proof. unfold User_destroy. rewrite list_elem_of_filter. tauto. Qed.





(** The key hypothesis of the users table is an invariant of the user
    routes: it holds of the seeded store and every handler keeps it. *)

Lemma users_wf_shop : users_wf shop.
Proof.
  split.
  - apply (bool_decide_unpack (NoDup (user_id <$> users shop))).
    by vm_compute.
  - intros u ->%list_elem_of_singleton. done.
Qed.

Lemma User_save_ids u u' l :
  user_id u' = user_id u →
  user_id <$> User_save u' l = user_id <$> l.
Proof.
  intros Hid. unfold User_save. rewrite <- list_fmap_compose.
  apply list_fmap_ext. intros _ v _. simpl.
  destruct (user_id v =? user_id u') eqn:E; [lia | done].
Qed.

Lemma create_user_wf (P : Platform) req s :
  users_wf s → users_wf (create_user P req s).2.
Proof.
  intros [Hkeys Hseq]. unfold create_user.
  repeat case_match; try done. simpl. split.
  - unfold users_keyed. simpl. rewrite fmap_app. apply NoDup_app.
    split; [done|]. split; [|apply NoDup_singleton].
    intros id (u & -> & Hu)%list_elem_of_fmap Hnew.
    apply list_elem_of_fmap in Hnew as (v & Hid & ->%list_elem_of_singleton).
    specialize (Hseq u Hu). simpl in Hid. lia.
  - simpl. intros u [Hu| ->%list_elem_of_singleton]%elem_of_app.
    + specialize (Hseq u Hu). lia.
    + simpl. lia.
Qed.

Lemma update_user_wf (P : Platform) req s :
  users_wf s → users_wf (update_user P req s).2.
Proof.
  intros [Hkeys Hseq]. unfold update_user.
  destruct (User_findByPk _ _) as [u|] eqn:Hfind; [|done].
  destruct (User_findByPk_Some _ _ _ Hfind) as [Hin _].
  repeat case_match; try done. simpl. split.
  - unfold users_keyed. simpl. by rewrite (User_save_ids u).
  - simpl. intros v Hv.
    assert (user_id v
            ∈ user_id <$> User_save
                            (User_update P (updateData (payload req) u) u)
                            (users s)) as Hid
      by (by apply list_elem_of_fmap_2).
    rewrite (User_save_ids u) in Hid by done.
    apply list_elem_of_fmap in Hid as (w & -> & Hw). by apply Hseq.
Qed.

Lemma delete_user_wf req s : users_wf s → users_wf (delete_user req s).2.
Proof.
  intros [Hkeys Hseq]. unfold delete_user.
  repeat case_match; try done. simpl. split.
  - unfold users_keyed. simpl. eapply sublist_NoDup; [exact Hkeys|].
    apply fmap_sublist, sublist_filter.
  - simpl. intros v [Hv _]%User_destroy_elem. by apply Hseq.
Qed.

(** ** Pagination *)

Lemma insert_by_length {A} (le : A → A → bool) x l :
  length (insert_by le x l) = S (length l).
Proof. induction l as [|y l IH]; simpl; [done|]. destruct (le x y); simpl; lia. Qed.

Lemma order_by_length {A} (le : A → A → bool) l :
  length (order_by le l) = length l.
Proof. induction l as [|x l IH]; simpl; [done|]. by rewrite insert_by_length, IH. Qed.

Lemma insert_by_elem {A} (le : A → A → bool) x l y :
  y ∈ insert_by le x l ↔ y = x ∨ y ∈ l.
Proof.
  induction l as [|z l IH]; simpl.
  - rewrite list_elem_of_singleton, elem_of_nil. tauto.
  - destruct (le x z); rewrite !elem_of_cons; [tauto|]. rewrite IH. tauto.
Qed.

Lemma order_by_elem {A} (le : A → A → bool) l y : y ∈ order_by le l ↔ y ∈ l.
Proof.
  induction l as [|x l IH]; simpl; [done|].
  rewrite insert_by_elem, elem_of_cons, IH. tauto.
Qed.

Lemma Math_ceil_div_pos n lim :
  0 < lim → ∃ k, Math_ceil_div n lim = JNum k ∧ is_ceiling n lim k.
Proof.
  intros Hlim. exists (- (- n / lim)). unfold Math_ceil_div, is_ceiling.
  destruct (lim =? 0) eqn:E; [lia|]. split; [done|].
  pose proof (Z.mul_div_le (- n) lim Hlim).
  pose proof (Z.mul_succ_div_gt (- n) lim Hlim). nia.
Qed.

Lemma is_ceiling_unique n d k k' :
  0 < d → is_ceiling n d k → is_ceiling n d k' → k = k'.
Proof. unfold is_ceiling. nia. Qed.

Lemma findAndCountAll_page {A} (joined : A → Z) (where_ : A → bool) le
    lim offset table :
  0 ≤ lim → 0 ≤ offset →
  ∃ rows,
    findAndCountAll joined where_ (Some le) lim offset table
    = Some (foldr (λ r n, joined r + n) 0 (filter (λ r, where_ r) table),
            rows)
    ∧ (Z.of_nat (length rows) ≤ lim)
    ∧ (∀ r, r ∈ rows → r ∈ table ∧ where_ r = true)
    ∧ (count where_ table ≤ offset → rows = []).
Proof.
  intros Hlim Hoff. unfold findAndCountAll.
  assert ((lim <? 0) || (offset <? 0) = false) as ->
    by (apply orb_false_iff; lia).
  eexists. split; [done|]. split; [|split].
  - rewrite length_take. lia.
  - intros r Hr%subseteq_take%subseteq_drop.
    apply order_by_elem, list_elem_of_filter in Hr as [Hw Hr].
    split; [done|]. by apply Is_true_true.
  - unfold count. intros Hcount. rewrite drop_ge; [apply take_nil|].
    rewrite order_by_length. lia.
Qed.

(** The total of the product list against the number of matching
    products: never less, and more as soon as a matching product has two
    images. *)
Lemma joined_rows_ge {A} (joined : A → Z) (l : list A) :
  (∀ r, r ∈ l → 1 ≤ joined r) →
  Z.of_nat (length l) ≤ foldr (λ r n, joined r + n) 0 l.
Proof.
  induction l as [|r l IH]; intros Hall; simpl; [done|].
  assert (1 ≤ joined r) by (apply Hall; by left).
  assert (Z.of_nat (length l) ≤ foldr (λ r n, joined r + n) 0 l)
    by (apply IH; intros r' Hr'; apply Hall; by right).
  lia.
Qed.

Lemma joined_rows_gt {A} (joined : A → Z) (l : list A) (r : A) :
  (∀ r, r ∈ l → 1 ≤ joined r) → r ∈ l → 1 < joined r →
  Z.of_nat (length l) < foldr (λ r n, joined r + n) 0 l.
Proof.
  induction l as [|x l IH]; intros Hall Hin Hr; simpl;
    [by apply elem_of_nil in Hin|].
  assert (∀ r', r' ∈ l → 1 ≤ joined r') as Hrest
    by (intros r' Hr'; apply Hall; by right).
  apply elem_of_cons in Hin as [<-|Hin].
  - pose proof (joined_rows_ge joined l Hrest). lia.
  - assert (1 ≤ joined x) by (apply Hall; by left).
    pose proof (IH Hrest Hin Hr). lia.
Qed.

Lemma image_rows_pos s p : 1 ≤ image_rows s p.
Proof. unfold image_rows. lia. Qed.

Lemma joined_total_ge (P : Platform) q s :
  count (product_matches P q s) (products s) ≤ joined_total P q s.
Proof.
  unfold count, joined_total. apply joined_rows_ge.
  intros p _. apply image_rows_pos.
Qed.

Lemma joined_total_gt (P : Platform) q s p :
  p ∈ products s → product_matches P q s p = true →
  1 < count (of_product (product_id p)) (product_images s) →
  count (product_matches P q s) (products s) < joined_total P q s.
Proof.
  intros Hp Hmatch Himages. unfold count, joined_total.
  apply (joined_rows_gt _ _ p).
  - intros r _. apply image_rows_pos.
  - apply list_elem_of_filter. split; [by apply Is_true_true | done].
  - unfold image_rows. lia.
Qed.

Lemma by_name_order_Some (E : Engine) (q : ProductQuery) :
  by_name_order q →
  ∃ le, Product_order E (queryOptions_order (query_sort q)) = Some le.
Proof. intros [->| ->]; by eexists. Qed.

Lemma by_name_order_None (E : Engine) (q : ProductQuery) :
  ¬ by_name_order q →
  Product_order E (queryOptions_order (query_sort q)) = None.
Proof.
  intros Hno. unfold queryOptions_order, by_name_order in *.
  destruct (query_sort q) as [key|] eqn:Hsort; [|done]. simpl.
  unfold notEmpty. destruct (String.eqb_spec key ""); simpl; [done|].
  destruct (String.eqb_spec key "name-asc") as [->|_]; [tauto|].
  destruct (String.eqb_spec key "name-desc") as [->|_]; [tauto|].
  by destruct (String.eqb key "oldest").
Qed.

Lemma list_products_by_createdAt (P : Platform) (E : Engine)
    (req : Request ProductQuery) (s : Store) :
  ¬ by_name_order (payload req) → list_products P E req s = (server_error, s).
Proof.
  intros Hno. unfold list_products.
  by rewrite (by_name_order_None E (payload req) Hno).
Qed.

Lemma list_products_by_name (P : Platform) (E : Engine)
    (req : Request ProductQuery) (s : Store) :
  let q := payload req in
  let n := joined_total P (filters_of q) s in
  exact_numbers E → by_name_order q →
  safe_page (page_of (query_page q)) (limit_of (query_limit q)) →
  ∃ rows k,
    list_products P E req s
    = (product_page s rows
         {| total := n; page := page_of (query_page q);
            limit := limit_of (query_limit q); totalPages := JNum k |}, s)
    ∧ is_ceiling n (limit_of (query_limit q)) k
    ∧ Z.of_nat (length rows) ≤ limit_of (query_limit q)
    ∧ (∀ r, r ∈ rows →
         r ∈ products s ∧ product_matches P (filters_of q) s r = true)
    ∧ (n ≤ (page_of (query_page q) - 1) * limit_of (query_limit q) →
       rows = []).
Proof.
  intros q n [Hnum Hoff] Hsort Hsafe. unfold page_of, limit_of in *.
  pose proof Hsafe as (Hpg & Hlim & Hmax).
  destruct (by_name_order_Some E q Hsort) as [le Hle].
  destruct (findAndCountAll_page (image_rows s) (product_matches P q s) le
              (default 10 (query_limit q))
              ((default 1 (query_page q) - 1) * default 10 (query_limit q))
              (products s)) as (rows & Hrows & Hlen & Hin & Hnil); [lia|nia|].
  destruct (Math_ceil_div_pos n (default 10 (query_limit q)))
    as (k & Hk & Hceil); [lia|].
  exists rows, k. unfold list_products. fold q.
  rewrite Hle, (Hoff _ _ Hsafe), !Hnum by done. rewrite Hrows.
  change (foldr (λ p m, image_rows s p + m) 0
            (filter (λ p, product_matches P q s p) (products s))) with n.
  rewrite Hk. split; [done|]. split; [done|]. split; [done|].
  split; [done|]. intros Hbeyond. apply Hnil.
  pose proof (joined_total_ge P q s).
  change (joined_total P q s) with n in *. lia.
Qed.

Lemma list_messages_fails (E : Engine) (req : Request MessagesQuery)
    (s : Store) :
  list_messages E req s = (server_error, s).
Proof.
  unfold list_messages.
  by destruct (truthy (messages_status (payload req))).
Qed.

Lemma demo_engine_exact : exact_numbers demo_engine.
Proof. split; done. Qed.

(** C2, as the code has it. The message list never gets to its
    pagination: it orders by [createdAt] (and filters on [status]), which
    the table of the contact messages does not have, and every request of
    an administrator is answered 500. The product list is answered 500
    whenever the order is not by name, the default order included. Ordered
    by name, with [page] and [limit] positive integers in the range where
    the engine's numbers are exact, it answers 200 with at most [limit]
    rows, all of them matching products, and with [totalPages] the ceiling
    of [total / limit]; but [total], which does not depend on [page] and
    [limit], counts the rows of the join of the matching products with
    their images: it is never less than the number of matching products
    and greater as soon as one of them has two images. *)
Theorem pagination_as_coded (P : Platform) (E : Engine) :
  exact_numbers E →
  (∀ (req : Request MessagesQuery) (s : Store),
     by_admin P req → GET_contact_messages P E req s = (server_error, s))
  ∧ (∀ (req : Request ProductQuery) (s : Store),
       ¬ by_name_order (payload req) →
       GET_products P E req s = (server_error, s))
  ∧ (∀ (req : Request ProductQuery) (s : Store),
       by_name_order (payload req) →
       safe_page (page_of (query_page (payload req)))
         (limit_of (query_limit (payload req))) →
       ∃ rows k,
         GET_products P E req s
         = (product_page s rows
              {| total := joined_total P (filters_of (payload req)) s;
                 page := page_of (query_page (payload req));
                 limit := limit_of (query_limit (payload req));
                 totalPages := JNum k |}, s)
         ∧ is_ceiling (joined_total P (filters_of (payload req)) s)
             (limit_of (query_limit (payload req))) k
         ∧ Z.of_nat (length rows) ≤ limit_of (query_limit (payload req))
         ∧ (∀ r, r ∈ rows →
              r ∈ products s
              ∧ product_matches P (filters_of (payload req)) s r = true)
         ∧ count (product_matches P (filters_of (payload req)) s)
             (products s)
           ≤ joined_total P (filters_of (payload req)) s
         ∧ (∀ p, p ∈ products s →
              product_matches P (filters_of (payload req)) s p = true →
              1 < count (of_product (product_id p)) (product_images s) →
              count (product_matches P (filters_of (payload req)) s)
                (products s)
              < joined_total P (filters_of (payload req)) s)).
Proof.
  intros Hexact. split; [|split].
  - intros req s Hadmin. unfold GET_contact_messages.
    rewrite through_by_admin by done. apply list_messages_fails.
  - intros req s Hsort. unfold GET_products. rewrite through_nil.
    by apply list_products_by_createdAt.
  - intros req s Hsort Hsafe.
    destruct (list_products_by_name P E req s Hexact Hsort Hsafe)
      as (rows & k & Heq & Hceil & Hlen & Hin & _).
    exists rows, k. unfold GET_products. rewrite through_nil.
    split; [done|]. split; [done|]. split; [done|]. split; [done|].
    split; [apply joined_total_ge|].
    intros p. apply joined_total_gt.
Qed.

Lemma pagination_as_coded_witness :
  list_messages demo_engine (as_admin 0 all_messages 50) shop
  = (server_error, shop)
  ∧ ∃ rows,
      GET_products demo demo_engine (incoming None 0 first_page 50)
        shop_two_images
      = (product_page shop_two_images rows
           {| total := 2; page := 1; limit := 5; totalPages := JNum 1 |},
         shop_two_images)
      ∧ count (product_matches demo first_page shop_two_images)
          (products shop_two_images) = 1.
Proof.
  destruct (pagination_as_coded demo demo_engine demo_engine_exact)
    as (_ & _ & Hproducts).
  split; [reflexivity|].
  destruct (Hproducts (incoming None 0 first_page 50) shop_two_images)
    as (rows & k & Heq & Hceil & _).
  - left. reflexivity.
  - repeat split; vm_compute; congruence.
  - assert (k = 1) as ->
      by (apply (is_ceiling_unique 2 5 k 1); [lia | exact Hceil | done]).
    exists rows. split; [exact Heq | reflexivity].
Defined.

(** C3, as the code has it. A product-list request whose page exceeds
    [totalPages], the ceiling of the route's total over the limit, with
    [page] and [limit] in the range where the engine's numbers are exact:
    ordered by name, it is answered 200 with an empty product list and
    with the metadata of that total; in any other order, the default order
    included, it is answered 500 "Server error", because the route orders
    by [createdAt], a column that the products table does not have. *)
Theorem page_beyond_the_last (P : Platform) (E : Engine)
    (req : Request ProductQuery) (s : Store) (k : Z) :
  let q := payload req in
  let n := joined_total P (filters_of q) s in
  exact_numbers E →
  safe_page (page_of (query_page q)) (limit_of (query_limit q)) →
  is_ceiling n (limit_of (query_limit q)) k →
  k < page_of (query_page q) →
  (by_name_order q →
   GET_products P E req s
   = (product_page s []
        {| total := n; page := page_of (query_page q);
           limit := limit_of (query_limit q); totalPages := JNum k |}, s)
   ∧ status (GET_products P E req s).1 = 200)
  ∧ (¬ by_name_order q →
     GET_products P E req s = (server_error, s)
     ∧ status (GET_products P E req s).1 = 500).
Proof.
  intros q n Hexact Hsafe Hceil Hpage. unfold GET_products.
  rewrite through_nil. split.
  - intros Hsort.
    destruct (list_products_by_name P E req s Hexact Hsort Hsafe)
      as (rows & k' & Heq & Hceil' & _ & _ & Hnil).
    fold q n in Heq, Hceil', Hnil.
    destruct Hsafe as (_ & Hlim & _).
    rewrite (is_ceiling_unique _ _ _ _ (proj1 Hlim) Hceil' Hceil) in Heq.
    rewrite Hnil in Heq by (unfold is_ceiling in Hceil; nia).
    by rewrite Heq.
  - intros Hsort. by rewrite list_products_by_createdAt.
Qed.

Lemma page_beyond_the_last_witness :
  GET_products demo demo_engine (incoming None 0 seventh_page 50) shop
  = (server_error, shop).
Proof.
  destruct (page_beyond_the_last demo demo_engine
              (incoming None 0 seventh_page 50) shop 1 demo_engine_exact)
    as [_ Hfails].
  - repeat split; vm_compute; congruence.
  - split; vm_compute; congruence.
  - reflexivity.
  - apply Hfails. intros [Hsort|Hsort]; discriminate Hsort.
Defined.

(** ** Deleting a category *)

Lemma Category_findByPk_Some id cs c :
  Category_findByPk id cs = Some c → c ∈ cs ∧ category_id c = id.
Proof.
  unfold Category_findByPk. intros [Hin Hid]%find_some.
  split; [by apply list_elem_of_In | lia].
Qed.


Lemma unlink_if_exists_gone p fs : p ∉ unlink_if_exists p fs.
Proof. unfold unlink_if_exists. case_decide; set_solver. Qed.

Lemma unlink_if_exists_others p fs f :
  f ∈ unlink_if_exists p fs ↔ f ∈ fs ∧ f ≠ p.
Proof. unfold unlink_if_exists. case_decide; set_solver. Qed.

Lemma truthy_Some x v : truthy x = Some v ↔ x = Some v ∧ v ≠ "".
Proof.
  unfold truthy, notEmpty. destruct x as [w|]; [|naive_solver].
  destruct (String.eqb_spec w ""); simpl; naive_solver.
Qed.

Lemma truthy_None x : truthy x = None ↔ x = None ∨ x = Some "".
Proof.
  unfold truthy, notEmpty. destruct x as [w|]; [|naive_solver].
  destruct (String.eqb_spec w ""); simpl; naive_solver.
Qed.



(** The message names the count: two counts with the same message are the
    same count. *)

Lemma length_append (s t : string) :
  String.length (s +:+ t) = (String.length s + String.length t)%nat.
Proof. induction s as [|a s IH]; simpl; [done | by rewrite IH]. Qed.

Lemma append_inv_tail (s1 s2 t : string) : s1 +:+ t = s2 +:+ t → s1 = s2.
Proof.
  revert s2. induction s1 as [|a s1 IH]; intros [|b s2] H; simpl in H.
  - done.
  - apply (f_equal String.length) in H.
    rewrite !length_append in H. simpl in H. rewrite ?length_append in H. lia.
  - apply (f_equal String.length) in H.
    rewrite !length_append in H. simpl in H. rewrite ?length_append in H. lia.
  - injection H as -> H. f_equal. by apply IH.
Qed.

Lemma category_in_use_names_the_count (n m : Z) :
  category_in_use n = category_in_use m → n = m.
Proof.
  unfold category_in_use, failure. intros [= H].
  change ("" +:+ ?x) with x in H.
  apply append_inv_tail in H. by apply (inj pretty).
Qed.

(** The route is this handler for every request that [auth] and [admin]
    let through. *)
Lemma DELETE_categories_id_by_admin (P : Platform) (req : Request unit)
    (s : Store) :
  by_admin P req → DELETE_categories_id P req s = delete_category P req s.
Proof.
  intros Hadmin. unfold DELETE_categories_id.
  rewrite through_by_admin by done. unfold delete_category.
  by rewrite authenticated_params_id.
Qed.

(** ** Login *)

Lemma User_findOne_username_Some name us u :
  User_findOne_username name us = Some u → u ∈ us ∧ username u = name.
Proof.
  unfold User_findOne_username. intros [Hin Hname]%find_some.
  split; [by apply list_elem_of_In | by apply String.eqb_eq].
Qed.

Lemma User_findOne_username_None name us :
  (∀ u, u ∈ us → username u ≠ name) → User_findOne_username name us = None.
Proof.
  intros Hno. destruct (User_findOne_username name us) as [u|] eqn:Hfind;
    [|done].
  apply User_findOne_username_Some in Hfind as [Hin Hname].
  by destruct (Hno u Hin).
Qed.

Lemma check_notEmpty param msg v :
  v ≠ "" → check JStr notEmpty param msg (Some v) = [].
Proof.
  intros Hv. unfold check, notEmpty.
  by destruct (String.eqb_spec v "").
Qed.

(** C5, as the code has it. A login request whose username and password
    are both non-empty: if the username is that of a stored user and the
    password verifies against that user's stored secret, the answer is 200
    with [{success, token, user}], where [user] is the stored user's
    {id, username, email, is_admin} and the token, signed with the
    process-wide secret, decodes to a payload whose [user] is exactly those
    claims; if no stored user has the username, or the password does not
    verify, the answer is in both cases the same 401 "Invalid credentials"
    and the store is unchanged. A login request whose username or password
    is missing or empty is answered 400 with the validation errors, before
    any lookup: the store is unchanged and the answer is the same
    whatever the stored users are. *)
Theorem login_outcomes (P : Platform) (req : Request LoginBody) (s : Store) :
  (∀ name pw,
     login_username (payload req) = Some name →
     login_password (payload req) = Some pw →
     name ≠ "" → pw ≠ "" →
     (∀ u, User_findOne_username name (users s) = Some u →
           comparePassword P pw (password u) = true →
           tokens_verify P s →
           ∃ token,
             POST_auth_login P req s
             = (json_ok (JObj [("success", JBool true); ("token", JStr token);
                               ("user", Claims_json (claims_of u))]), s)
             ∧ jwt_verify P token (JWT_SECRET P) (now req)
               = Some {| payload_user := Some (claims_of u) |}
             ∧ u ∈ users s ∧ username u = name)
     ∧ ((∀ u, u ∈ users s → username u ≠ name) →
        POST_auth_login P req s = (failure 401 "Invalid credentials", s))
     ∧ (∀ u, User_findOne_username name (users s) = Some u →
             comparePassword P pw (password u) = false →
             POST_auth_login P req s = (failure 401 "Invalid credentials", s)))
  ∧ (login_username (payload req) = None
     ∨ login_username (payload req) = Some ""
     ∨ login_password (payload req) = None
     ∨ login_password (payload req) = Some "" →
     ∃ errors,
       errors ≠ []
       ∧ POST_auth_login P req s = (validation_failed errors, s)
       ∧ status (POST_auth_login P req s).1 = 400
       ∧ ∀ s', (POST_auth_login P req s').1 = validation_failed errors).
Proof.
  unfold POST_auth_login. split.
  - intros name pw Hname Hpw Hn Hp.
    rewrite through_nil. unfold login.
    rewrite Hname, Hpw, !check_notEmpty by done. simpl.
    split; [|split].
    + intros u Hfind Hcmp Hjwt. rewrite Hfind, Hcmp. simpl.
      destruct (User_findOne_username_Some _ _ _ Hfind) as [Hin Hu].
      eexists. split; [done|]. split; [by apply Hjwt | done].
    + intros Hno. by rewrite User_findOne_username_None.
    + intros u Hfind Hcmp. by rewrite Hfind, Hcmp.
  - intros Hbad.
    exists (check JStr notEmpty "username" "Username is required"
              (login_username (payload req))
            ++ check JStr notEmpty "password" "Password is required"
                 (login_password (payload req)))%list.
    assert ((check JStr notEmpty "username" "Username is required"
               (login_username (payload req))
             ++ check JStr notEmpty "password" "Password is required"
                  (login_password (payload req)))%list ≠ []) as Hne.
    { intros [Hu Hp]%app_eq_nil.
      destruct Hbad as [Hb|[Hb|[Hb|Hb]]]; rewrite Hb in *; discriminate. }
    split; [done|].
    assert (∀ s', through [] (login P) req s'
                  = (validation_failed
                       (check JStr notEmpty "username" "Username is required"
                          (login_username (payload req))
                        ++ check JStr notEmpty "password"
                             "Password is required"
                             (login_password (payload req)))%list, s'))
      as Hanswer.
    { intros s'. rewrite through_nil. unfold login.
      destruct (_ ++ _)%list as [|e errors]; [done|]. done. }
    split; [apply Hanswer|]. split; [by rewrite Hanswer|].
    intros s'. by rewrite Hanswer.
Qed.

Lemma login_outcomes_witness :
  (∃ token,
     POST_auth_login demo (incoming None 0 good_login 50) shop
     = (json_ok (JObj [("success", JBool true); ("token", JStr token);
                       ("user", Claims_json (claims_of seeded_admin))]), shop)
     ∧ jwt_verify demo token (JWT_SECRET demo) 50
       = Some {| payload_user := Some (claims_of seeded_admin) |})
  ∧ status (POST_auth_login demo (incoming None 0 login_without_password 50)
              shop).1 = 400.
Proof.
  split.
  - destruct (proj1 (proj1 (login_outcomes demo
                              (incoming None 0 good_login 50) shop)
                       "admin" "admin123" eq_refl eq_refl
                       ltac:(discriminate) ltac:(discriminate))
                seeded_admin eq_refl eq_refl)
      as (token & Heq & Hverify & _).
    + intros u e t Hu. apply list_elem_of_singleton in Hu. subst u.
      reflexivity.
    + exists token. split; [exact Heq | exact Hverify].
  - destruct (proj2 (login_outcomes demo
                       (incoming None 0 login_without_password 50) shop))
      as (errors & _ & _ & Hstatus & _); [|exact Hstatus].
    right. right. right. reflexivity.
Defined.

(** The token of a login, sent back as a bearer token at the time it was
    signed, passes the Credential Verifier with the user's claims. *)
Lemma login_token_passes_auth (P : Platform) (s : Store) (u : User)
    (e : string) {B} (req : Request B) :
  u ∈ users s → tokens_verify P s →
  let token :=
    jwt_sign P {| payload_user := Some (claims_of u) |} (JWT_SECRET P) e
      (now req) in
  token ≠ "" → authorization req = Some ("Bearer " +:+ token) →
  auth P req = Next (set_user (Some (claims_of u)) req).
Proof.
  intros Hu Hjwt token Hne Hhdr.
  apply (bearer_passes P req token {| payload_user := Some (claims_of u) |});
    [done | done | by apply Hjwt].
Qed.

(** C5 as stated fails on a request that does not pass the validators:
    nobody is called "nobody", the empty password verifies against
    nothing, and the answer is the 400 of the validators, not the 401. *)
Lemma login_without_password_is_400 :
  (∀ u, u ∈ users shop → username u ≠ "nobody")
  ∧ (∀ u, u ∈ users shop → comparePassword demo "" (password u) = false)
  ∧ status (POST_auth_login demo (incoming None 0 login_without_password 50)
              shop).1 = 400
  ∧ (POST_auth_login demo (incoming None 0 login_without_password 50) shop).1
    ≠ failure 401 "Invalid credentials".
Proof.
  split; [|split; [|split]].
  - intros u ->%list_elem_of_singleton. discriminate.
  - intros u ->%list_elem_of_singleton. reflexivity.
  - reflexivity.
  - discriminate.
Qed.

(** ** The contact form *)

(** C9, as the code has it. A public contact submission that passes the
    four validators of the route (a non-empty name, a valid email, a
    non-empty subject and a non-empty message). If the validators of the
    model refuse the name, the email or the message (a name of blanks, for
    one) the answer is 500 "Server error" and nothing is stored; if they
    accept but a value is longer than its column, the answer is 500 too and
    no message is added. Otherwise the answer is the fixed 201
    acknowledgment, a constant with nothing of the submission in it, and
    the resulting store has one more message, with the submitted name,
    email, phone and message, [is_read] false, the id the sequence
    offered and the time of the request; no other table changes. The
    subject and the status 'unread' that the route hands over are not
    stored: the model has no such attributes, the stored row shows no
    [subject] and no [status], and a submission that differs in its subject
    only leaves the same store. *)
Theorem contact_submission_as_stored (P : Platform) (E : Engine)
    (req : Request ContactBody) (s : Store) (name mail subj text : string) :
  form_contact_name (payload req) = Some name →
  form_contact_email (payload req) = Some mail →
  form_subject (payload req) = Some subj →
  form_message (payload req) = Some text →
  name ≠ "" → isEmail P mail = true → subj ≠ "" → text ≠ "" →
  let values :=
    {| value_contact_name := name; value_contact_email := mail;
       value_phone := truthy (form_phone (payload req));
       value_subject := subj; value_message := text;
       value_status := "unread" |} in
  (ContactMessage_validate E values = false →
   POST_contact P E req s = (server_error, s))
  ∧ (ContactMessage_validate E values = true →
     ContactMessage_fits values = false →
     (POST_contact P E req s).1 = server_error
     ∧ contact_messages (POST_contact P E req s).2 = contact_messages s)
  ∧ (ContactMessage_validate E values = true →
     ContactMessage_fits values = true →
     (POST_contact P E req s).1
     = {| status := 201;
          body := JObj [("success", JBool true);
                        ("message", JStr "Your message has been sent successfully. We will get back to you soon.")] |}
     ∧ (∃ m,
          contact_messages (POST_contact P E req s).2
          = (contact_messages s ++ [m])%list
          ∧ message_id m = contact_messages_seq s
          ∧ contact_name m = name ∧ contact_email m = mail
          ∧ phone m = truthy (form_phone (payload req))
          ∧ message m = text ∧ is_read m = false
          ∧ contact_created m = now req
          ∧ has_key "subject" (ContactMessage_json m) = false
          ∧ has_key "status" (ContactMessage_json m) = false)
     ∧ contact_messages_seq (POST_contact P E req s).2
       = contact_messages_seq s + 1
     ∧ users (POST_contact P E req s).2 = users s
     ∧ categories (POST_contact P E req s).2 = categories s
     ∧ products (POST_contact P E req s).2 = products s
     ∧ product_images (POST_contact P E req s).2 = product_images s
     ∧ files (POST_contact P E req s).2 = files s
     ∧ (∀ (req' : Request ContactBody) subj',
          form_contact_name (payload req') = Some name →
          form_contact_email (payload req') = Some mail →
          form_phone (payload req') = form_phone (payload req) →
          form_message (payload req') = Some text →
          form_subject (payload req') = Some subj' → subj' ≠ "" →
          now req' = now req →
          POST_contact P E req' s = POST_contact P E req s)).
Proof.
  intros Hname Hmail Hsubj Htext Hn Hm Hs Ht values.
  assert (∀ (r : Request ContactBody) sj,
            form_contact_name (payload r) = Some name →
            form_contact_email (payload r) = Some mail →
            form_phone (payload r) = form_phone (payload req) →
            form_message (payload r) = Some text →
            form_subject (payload r) = Some sj → sj ≠ "" →
            now r = now req →
            POST_contact P E r s
            = if negb (ContactMessage_validate E values)
              then (server_error, s)
              else if negb (ContactMessage_fits values)
              then (server_error,
                    set_contact_messages (contact_messages s)
                      (contact_messages_seq s + 1) s)
              else (contact_acknowledged,
                    set_contact_messages
                      (contact_messages s
                       ++ [ContactMessage_row (contact_messages_seq s)
                             (now req) values])
                      (contact_messages_seq s + 1) s)) as Hpost.
  { intros r sj Hr1 Hr2 Hr3 Hr4 Hr5 Hsj Hr6.
    unfold POST_contact. rewrite through_nil. unfold submit_contact.
    rewrite Hr1, Hr2, Hr3, Hr4, Hr5, Hr6, !check_notEmpty by done.
    unfold check. rewrite Hm. reflexivity. }
  rewrite (Hpost req subj) by done.
  split; [|split].
  - by intros ->.
  - by intros -> ->.
  - intros Hvalid Hfits. rewrite Hvalid, Hfits.
    cbn [negb fst snd users categories products product_images
         contact_messages contact_messages_seq files set_contact_messages].
    split; [done|]. split.
    { eexists. split; [reflexivity|]. unfold ContactMessage_json. simpl.
      by destruct (truthy (form_phone (payload req))). }
    do 6 (split; [done|]).
    intros req' subj' H1 H2 H3 H4 H5 H6 H7.
    rewrite (Hpost req' subj') by done.
    by rewrite Hvalid, Hfits.
Qed.

Lemma contact_submission_as_stored_witness :
  POST_contact demo demo_engine (incoming None 0 blank_name_enquiry 50) shop
  = (server_error, shop)
  ∧ ∃ m,
      contact_messages
        (POST_contact demo demo_engine (incoming None 0 enquiry 50) shop).2
      = [m]
      ∧ is_read m = false
      ∧ has_key "status" (ContactMessage_json m) = false.
Proof.
  split.
  - apply (contact_submission_as_stored demo demo_engine
             (incoming None 0 blank_name_enquiry 50) shop
             " " "lan@example.com" "Strap" "Do you sell spare straps?"
             eq_refl eq_refl eq_refl eq_refl
             ltac:(discriminate) eq_refl ltac:(discriminate)
             ltac:(discriminate)).
    reflexivity.
  - destruct (contact_submission_as_stored demo demo_engine
                (incoming None 0 enquiry 50) shop
                "Lan" "lan@example.com" "Strap" "Do you sell spare straps?"
                eq_refl eq_refl eq_refl eq_refl
                ltac:(discriminate) eq_refl ltac:(discriminate)
                ltac:(discriminate))
      as (_ & _ & Hstored).
    destruct (Hstored eq_refl eq_refl)
      as (_ & (m & Hrows & _ & _ & _ & _ & _ & Hread & _ & _ & Hstatus) & _).
    exists m. split; [exact Hrows|]. split; [exact Hread | exact Hstatus].
Defined.

(** The acknowledgment is the same for every submission that is answered
    201. *)
Lemma contact_acknowledgment_is_constant (P : Platform) (E : Engine)
    (req1 req2 : Request ContactBody) (s1 s2 : Store) :
  status (POST_contact P E req1 s1).1 = 201 →
  status (POST_contact P E req2 s2).1 = 201 →
  (POST_contact P E req1 s1).1 = (POST_contact P E req2 s2).1.
Proof.
  unfold POST_contact. rewrite !through_nil. unfold submit_contact.
  repeat case_match; simpl; intros; discriminate || reflexivity.
Qed.

(** ** Partial updates *)

Section Keyed.
Context {A : Type} (key : A → Z).

Lemma find_save_same (x x' : A) (l : list A) (id : Z) :
  find (λ v, key v =? id) l = Some x → key x' = key x →
  find (λ v, key v =? id) ((λ v, if key v =? key x' then x' else v) <$> l)
  = Some x'.
Proof.
  intros Hfind Hkey. induction l as [|v l IH]; [done|].
  simpl in *. destruct (key v =? id) eqn:Hv.
  - simplify_eq. rewrite Hkey, Z.eqb_refl, Hkey. by rewrite Hv.
  - destruct (find_some _ _ Hfind) as [_ Hx%Z.eqb_eq].
    assert ((key v =? key x') = false) as -> by lia.
    rewrite Hv. by apply IH.
Qed.

Lemma find_save_other (x' : A) (l : list A) (id : Z) :
  id ≠ key x' →
  find (λ v, key v =? id) ((λ v, if key v =? key x' then x' else v) <$> l)
  = find (λ v, key v =? id) l.
Proof.
  intros Hne. induction l as [|v l IH]; [done|].
  simpl. destruct (key v =? key x') eqn:Hv.
  - assert ((key x' =? id) = false) as -> by lia.
    assert ((key v =? id) = false) as -> by lia. done.
  - destruct (key v =? id); [done | apply IH].
Qed.
End Keyed.

Lemma update_user_stored (P : Platform) (req : Request UserBody) (s : Store)
    (u : User) :
  User_findByPk (params_id req) (users s) = Some u →
  ∃ u',
    User_findByPk (params_id req) (users (update_user P req s).2) = Some u'
    ∧ user_frame (payload req) u u'
    ∧ (password u' ≠ password u →
       ∃ pw, body_password (payload req) = Some pw ∧ pw ≠ ""
             ∧ password u' = hashPassword P pw)
    ∧ (∀ id, id ≠ params_id req →
         User_findByPk id (users (update_user P req s).2)
         = User_findByPk id (users s)).
Proof.
  intros Hfind. destruct (User_findByPk_Some _ _ _ Hfind) as [_ Hid].
  assert (user_frame (payload req) u u) as Hsame by (repeat split; done).
  unfold update_user. rewrite Hfind.
  destruct (taken (body_username _) _ _);
    [exists u; repeat split; try done; apply Hsame|].
  destruct (taken (body_email _) _ _);
    [exists u; repeat split; try done; apply Hsame|].
  exists (User_update P (updateData (payload req) u) u). simpl.
  split; [|split; [|split]].
  - by apply (find_save_same user_id u).
  - repeat split; simpl; try done; by intros ->.
  - simpl. destruct (body_password (payload req)) as [pw|]; [|done].
    unfold truthy, notEmpty. destruct (String.eqb_spec pw ""); simpl; [done|].
    intros _. by exists pw.
  - intros id Hne. apply (find_save_other user_id). simpl. lia.
Qed.

Lemma process_images_products (P : Platform) id b s :
  products (process_images P id b s) = products s.
Proof.
  unfold process_images. destruct (uploaded b); [done|].
  by destruct (bool_decide _).
Qed.

Lemma update_product_stored (P : Platform) (req : Request ProductBody)
    (s : Store) (p : Product) :
  Product_findByPk (params_id req) (products s) = Some p →
  ∃ p',
    Product_findByPk (params_id req) (products (update_product P req s).2)
    = Some p'
    ∧ product_frame (payload req) p p'
    ∧ (updated_at p' = updated_at p ∨ updated_at p' = now req)
    ∧ (∀ id, id ≠ params_id req →
         Product_findByPk id (products (update_product P req s).2)
         = Product_findByPk id (products s)).
Proof.
  intros Hfind.
  assert (product_id p = params_id req) as Hid.
  { unfold Product_findByPk in Hfind.
    apply find_some in Hfind as [_ ?]. lia. }
  assert (product_frame (payload req) p p) as Hsame by (repeat split; done).
  unfold update_product. rewrite Hfind.
  destruct (negb _); [exists p; repeat split; try done; by left|].
  destruct (match truthy (form_specifications (payload req)) with
            | Some text => Some <$> JSON_parse P text
            | None => Some (specifications p)
            end) as [specs|] eqn:Hspecs;
    [|exists p; repeat split; try done; by left].
  set (p' := updated_product (payload req) specs (now req) p).
  assert (Product_findByPk (params_id req)
            (Product_save p' (products s)) = Some p') as Hnew
    by (by apply (find_save_same product_id p)).
  assert (products (process_images P (product_id p) (payload req)
                      (set_products (Product_save p' (products s)) s))
          = Product_save p' (products s)) as Hkeep
    by apply process_images_products.
  rewrite Hid in *. rewrite Hkeep, Hnew. simpl. rewrite Hkeep.
  exists p'. split; [done|]. split; [|split; [by right|]].
  - repeat split; simpl; try done; try (by intros ->).
    intros Hnone. rewrite Hnone in Hspecs. simpl in Hspecs. by simplify_eq.
  - intros id Hne. apply (find_save_other product_id). simpl. lia.
Qed.

(** C8, as the code has it. An update of an existing user or product
    leaves every member omitted from the request body at its stored value,
    and leaves the identity and the creation time (and a product's slug)
    alone; the stored password changes only when a non-empty password is
    supplied, and then to its hash; the rows of the other users or products
    do not change. The one stored column that an update changes without
    being asked is a product's [updated_at], which is either left alone
    (the update was refused) or set to the time of the update. *)
Theorem updates_are_partial (P : Platform) :
  (∀ (req : Request UserBody) (s : Store) (u : User),
     User_findByPk (params_id req) (users s) = Some u →
     ∃ u',
       User_findByPk (params_id req) (users (update_user P req s).2) = Some u'
       ∧ user_frame (payload req) u u'
       ∧ (password u' ≠ password u →
          ∃ pw, body_password (payload req) = Some pw ∧ pw ≠ ""
                ∧ password u' = hashPassword P pw)
       ∧ (∀ id, id ≠ params_id req →
            User_findByPk id (users (update_user P req s).2)
            = User_findByPk id (users s)))
  ∧ (∀ (req : Request ProductBody) (s : Store) (p : Product),
       Product_findByPk (params_id req) (products s) = Some p →
       ∃ p',
         Product_findByPk (params_id req)
           (products (update_product P req s).2) = Some p'
         ∧ product_frame (payload req) p p'
         ∧ (updated_at p' = updated_at p ∨ updated_at p' = now req)
         ∧ (∀ id, id ≠ params_id req →
              Product_findByPk id (products (update_product P req s).2)
              = Product_findByPk id (products s))).
Proof.
  split.
  - intros req s u. apply update_user_stored.
  - intros req s p. apply update_product_stored.
Qed.

Lemma updates_are_partial_witness :
  (∃ u',
     User_findByPk 1 (users (update_user demo (as_admin 1 new_email_only 500)
                               shop).2) = Some u'
     ∧ username u' = "admin" ∧ password u' = "hash:admin123"
     ∧ is_admin u' = true)
  ∧ (∃ p',
       Product_findByPk 1
         (products (update_product demo (as_admin 1 rename_only 500) shop).2)
       = Some p'
       ∧ model_number p' = Some "1894" ∧ product_slug p' = "digital-watch-1894"
       ∧ created_at p' = 100).
Proof.
  split.
  - destruct (proj1 (updates_are_partial demo)
                (as_admin 1 new_email_only 500) shop seeded_admin eq_refl)
      as (u' & Hfind & (_ & _ & Hname & _ & Hadm & Hpw) & _).
    exists u'. split; [exact Hfind|].
    split; [exact (Hname eq_refl)|].
    split; [exact (Hpw eq_refl) | exact (Hadm eq_refl)].
  - destruct (proj2 (updates_are_partial demo)
                (as_admin 1 rename_only 500) shop watch_1894 eq_refl)
      as (p' & Hfind & (_ & Hslug & Hcreated & _ & Hmodel & _) & _).
    exists p'. split; [exact Hfind|].
    split; [exact (Hmodel eq_refl)|]. split; [exact Hslug | exact Hcreated].
Defined.

(** C8 as stated fails on [updated_at]: the form below supplies a name and
    nothing else, and the stored [updated_at] of the product moves from
    100 to the time of the request. *)
Lemma update_product_moves_updated_at :
  by_admin demo (as_admin 1 rename_only 500)
  ∧ Product_findByPk 1 (products shop) = Some watch_1894
  ∧ updated_at watch_1894 = 100
  ∧ status (PUT_products_id demo (as_admin 1 rename_only 500) shop).1 = 200
  ∧ updated_at
      <$> Product_findByPk 1
            (products (PUT_products_id demo (as_admin 1 rename_only 500)
                         shop).2)
    = Some 500.
Proof. repeat split. Qed.

(** For a request that [auth] and [admin] let through, with at most ten
    files, the route is this handler on the store that holds the uploaded
    files. *)
Lemma PUT_products_id_by_admin (P : Platform) (req : Request ProductBody)
    (s : Store) :
  by_admin P req →
  (length (uploaded (payload req)) ≤ 10)%nat →
  PUT_products_id P req s
  = update_product P req
      (set_files (store_uploads P "/uploads/products/"
                    (uploaded (payload req)) (files s)) s).
Proof.
  intros Hadmin Hfew. unfold PUT_products_id.
  rewrite through_by_admin by done. unfold upload_array.
  destruct (authenticated_same_request P req) as (_ & Hid & Hbody & Hnow).
  rewrite Hbody. rewrite bool_decide_eq_false_2 by lia.
  unfold update_product. by rewrite Hid, Hbody, Hnow.
Qed.

Lemma PUT_users_id_by_admin (P : Platform) (req : Request UserBody)
    (s : Store) :
  by_admin P req → PUT_users_id P req s = update_user P req s.
Proof.
  intros Hadmin. unfold PUT_users_id.
  rewrite through_by_admin by done. unfold update_user.
  destruct (authenticated_same_request P req) as (_ & -> & -> & _). done.
Qed.

(** ** Passwords stay in the store *)

Lemma without_password_fields (u : User) :
  without "password" (User_fields u) = User_fields_excluding_password u.
Proof. reflexivity. Qed.

Lemma find_forget_password (p : User → bool) (l : list User) :
  (∀ u, p (forget_password u) = p u) →
  find p (forget_password <$> l) = forget_password <$> find p l.
Proof.
  intros Hp. induction l as [|u l IH]; [done|].
  simpl. rewrite Hp. by destruct (p u).
Qed.

Lemma find_same_but_passwords (p : User → bool) (l1 l2 : list User) :
  (∀ u, p (forget_password u) = p u) →
  forget_password <$> l1 = forget_password <$> l2 →
  forget_password <$> find p l1 = forget_password <$> find p l2.
Proof. intros Hp Heq. by rewrite <- !find_forget_password, Heq. Qed.

Lemma insert_by_forget_password u l :
  insert_by newest_first (forget_password u) (forget_password <$> l)
  = forget_password <$> insert_by newest_first u l.
Proof.
  induction l as [|v l IH]; [done|]. simpl.
  change (newest_first (forget_password u) (forget_password v))
    with (newest_first u v).
  destruct (newest_first u v); simpl; [done | f_equal; apply IH].
Qed.

Lemma order_by_forget_password l :
  order_by newest_first (forget_password <$> l)
  = forget_password <$> order_by newest_first l.
Proof.
  induction l as [|u l IH]; [done|].
  simpl. rewrite <- insert_by_forget_password. f_equal. apply IH.
Qed.

Lemma has_key_fmap {A} (k : string) (f : A → json) (l : list A) :
  (∀ x, has_key k (f x) = false) → existsb (has_key k) (f <$> l) = false.
Proof.
  intros Hf. induction l as [|x l IH]; [done|].
  rewrite fmap_cons. cbn [existsb]. by rewrite Hf, IH.
Qed.

Lemma check_has_no_password {A} (show : A → json) ok param msg v :
  (∀ a, has_key "password" (show a) = false) →
  existsb (has_key "password")
    (ValidationError_json <$> check show ok param msg v) = false.
Proof.
  intros Hshow. unfold check. destruct v as [a|]; [|done].
  destruct (ok a); [done|]. simpl. by rewrite Hshow.
Qed.

Lemma list_users_hides (req : Request unit) (s1 s2 : Store) :
  same_but_passwords s1 s2 →
  (list_users req s1).1 = (list_users req s2).1
  ∧ has_key "password" (body (list_users req s1).1) = false.
Proof.
  intros [Heq _]. unfold list_users. simpl. split.
  - do 3 f_equal.
    change (λ u, JObj (User_fields_excluding_password u))
      with ((λ u, JObj (User_fields_excluding_password u)) ∘ forget_password).
    rewrite !list_fmap_compose, <- !order_by_forget_password. by rewrite Heq.
  - rewrite has_key_fmap; done.
Qed.

Lemma same_but_passwords_found (p : User → bool) (s1 s2 : Store) :
  (∀ u, p (forget_password u) = p u) →
  same_but_passwords s1 s2 →
  match find p (users s1), find p (users s2) with
  | Some u1, Some u2 => forget_password u1 = forget_password u2
  | None, None => True
  | _, _ => False
  end.
Proof.
  intros Hp [Heq _]. pose proof (find_same_but_passwords p _ _ Hp Heq) as H.
  destruct (find p (users s1)), (find p (users s2)); simpl in *;
    congruence || done.
Qed.

Lemma excluding_password_forget u1 u2 :
  forget_password u1 = forget_password u2 →
  User_fields_excluding_password u1 = User_fields_excluding_password u2.
Proof.
  intros H.
  change (User_fields_excluding_password (forget_password u1)
          = User_fields_excluding_password (forget_password u2)).
  by rewrite H.
Qed.

Lemma get_user_hides (req : Request unit) (s1 s2 : Store) :
  same_but_passwords s1 s2 →
  (get_user req s1).1 = (get_user req s2).1
  ∧ has_key "password" (body (get_user req s1).1) = false.
Proof.
  intros Hsame. unfold get_user, User_findByPk.
  pose proof (same_but_passwords_found (λ u, user_id u =? params_id req)
                s1 s2 (λ _, eq_refl) Hsame) as H.
  destruct (find _ (users s1)) as [u1|], (find _ (users s2)) as [u2|];
    try done. simpl. split; [|done].
  by rewrite (excluding_password_forget u1 u2).
Qed.

Lemma me_hides (req : Request unit) (s1 s2 : Store) :
  same_but_passwords s1 s2 →
  (me req s1).1 = (me req s2).1
  ∧ has_key "password" (body (me req s1).1) = false.
Proof.
  intros Hsame. unfold me, User_findByPk.
  destruct (user req) as [c|]; [|done].
  pose proof (same_but_passwords_found (λ u, user_id u =? claim_id c)
                s1 s2 (λ _, eq_refl) Hsame) as H.
  destruct (find _ (users s1)) as [u1|], (find _ (users s2)) as [u2|];
    try done. simpl. split; [|done].
  by rewrite (excluding_password_forget u1 u2).
Qed.

Lemma validation_failed_has_no_password errors :
  existsb (has_key "password") (ValidationError_json <$> errors) = false →
  has_key "password" (body (validation_failed errors)) = false.
Proof. intros H. simpl. by rewrite H. Qed.

Lemma is_Some_found_same (p : User → bool) (s1 s2 : Store) :
  (∀ u, p (forget_password u) = p u) →
  same_but_passwords s1 s2 →
  bool_decide (is_Some (find p (users s1)))
  = bool_decide (is_Some (find p (users s2))).
Proof.
  intros Hp Hsame. pose proof (same_but_passwords_found p s1 s2 Hp Hsame) as H.
  destruct (find p (users s1)), (find p (users s2)); done.
Qed.

Lemma create_user_hides (P : Platform) (req : Request UserBody)
    (s1 s2 : Store) :
  same_but_passwords s1 s2 →
  (create_user P req s1).1 = (create_user P req s2).1
  ∧ has_key "password" (body (create_user P req s1).1) = false.
Proof.
  intros Hsame. unfold create_user.
  set (errors := (check JStr notEmpty "username" _ _ ++ _)%list).
  assert (existsb (has_key "password") (ValidationError_json <$> errors)
          = false) as Herrors.
  { subst errors. rewrite !fmap_app, !existsb_app.
    by rewrite !check_has_no_password. }
  destruct errors as [|e errors];
    [|split; [done | by apply validation_failed_has_no_password]].
  destruct (body_username _) as [name|]; [|done].
  destruct (body_email _) as [mail|]; [|done].
  destruct (body_password _) as [pw|]; [|done].
  destruct (body_is_admin _) as [adm|]; [|done].
  unfold User_findOne_username, User_findOne_email.
  pose proof (same_but_passwords_found (λ u, String.eqb (username u) name)
                s1 s2 (λ _, eq_refl) Hsame) as Hname.
  pose proof (same_but_passwords_found (λ u, String.eqb (email u) mail)
                s1 s2 (λ _, eq_refl) Hsame) as Hmail.
  destruct (find _ (users s1)), (find _ (users s2)); try done.
  destruct (find _ (users s1)), (find _ (users s2)); try done.
  destruct Hsame as [_ ->]. done.
Qed.

Lemma taken_same x (u1 u2 : User) (field : User → string)
    (s1 s2 : Store) :
  (∀ u, field (forget_password u) = field u) →
  forget_password u1 = forget_password u2 →
  same_but_passwords s1 s2 →
  taken x (field u1) (λ v, find (λ u, String.eqb (field u) v) (users s1))
  = taken x (field u2) (λ v, find (λ u, String.eqb (field u) v) (users s2)).
Proof.
  intros Hfield Hu Hsame. unfold taken. destruct x as [v|]; [|done].
  rewrite <- (Hfield u1), <- (Hfield u2), Hu. f_equal.
  apply is_Some_found_same; [|done]. intros u. by rewrite Hfield.
Qed.

Lemma User_update_forget (P : Platform) b u1 u2 :
  forget_password u1 = forget_password u2 →
  User_fields_excluding_password (User_update P (updateData b u1) u1)
  = User_fields_excluding_password (User_update P (updateData b u2) u2).
Proof.
  intros H.
  change (User_fields_excluding_password
            (User_update P (updateData b (forget_password u1))
               (forget_password u1))
          = User_fields_excluding_password
              (User_update P (updateData b (forget_password u2))
                 (forget_password u2))).
  by rewrite H.
Qed.

Lemma update_user_hides (P : Platform) (req : Request UserBody)
    (s1 s2 : Store) :
  same_but_passwords s1 s2 →
  (update_user P req s1).1 = (update_user P req s2).1
  ∧ has_key "password" (body (update_user P req s1).1) = false.
Proof.
  intros Hsame. unfold update_user, User_findByPk.
  pose proof (same_but_passwords_found (λ u, user_id u =? params_id req)
                s1 s2 (λ _, eq_refl) Hsame) as H.
  destruct (find _ (users s1)) as [u1|], (find _ (users s2)) as [u2|];
    try done.
  unfold User_findOne_username, User_findOne_email.
  rewrite (taken_same (body_username (payload req)) u1 u2 username s1 s2)
    by done.
  rewrite (taken_same (body_email (payload req)) u1 u2 email s1 s2) by done.
  destruct (taken (body_username _) _ _); [done|].
  destruct (taken (body_email _) _ _); [done|].
  simpl. rewrite !without_password_fields. split; [|done].
  by rewrite (User_update_forget P _ u1 u2).
Qed.

Lemma guarded_hides (P : Platform) {B}
    (h : Request B → Store → Response * Store) (s1 s2 : Store) :
  hides_passwords h s1 s2 →
  hides_passwords (through [auth P; admin] h) s1 s2.
Proof.
  intros Hh req. simpl.
  destruct (auth P req) as [req'|r] eqn:Hauth.
  - unfold admin. destruct (user req') as [c|]; [|done].
    destruct (claim_is_admin c); [apply Hh | done].
  - unfold auth in Hauth. repeat case_match; by simplify_eq.
Qed.

(** C10. On two stores that differ only in the stored password secrets of
    their users, the routes that list users, get a user, create a user and
    update a user, and GET /api/auth/me, answer every request with the same
    response; and no object in any of these responses, at any depth, has a
    [password] member. *)
Theorem user_responses_hide_passwords (P : Platform) (s1 s2 : Store) :
  same_but_passwords s1 s2 →
  hides_passwords (GET_users P) s1 s2
  ∧ hides_passwords (GET_users_id P) s1 s2
  ∧ hides_passwords (POST_users P) s1 s2
  ∧ hides_passwords (PUT_users_id P) s1 s2
  ∧ hides_passwords GET_auth_me s1 s2
  ∧ hides_passwords (through [auth P] me) s1 s2.
Proof.
  intros Hsame. refine (conj _ (conj _ (conj _ (conj _ (conj _ _))))).
  - apply guarded_hides. intros req. by apply list_users_hides.
  - apply guarded_hides. intros req. by apply get_user_hides.
  - apply guarded_hides. intros req. by apply create_user_hides.
  - apply guarded_hides. intros req. by apply update_user_hides.
  - intros req. unfold GET_auth_me. rewrite !through_nil.
    by apply me_hides.
  - intros req. simpl. destruct (auth P req) as [req'|r] eqn:Hauth.
    + by apply me_hides.
    + unfold auth in Hauth. repeat case_match; by simplify_eq.
Qed.

Lemma user_responses_hide_passwords_witness :
  (GET_users demo (as_admin 0 () 50) shop).1
  = (GET_users demo (as_admin 0 () 50) shop_other_passwords).1
  ∧ has_key "password" (body (GET_users demo (as_admin 0 () 50) shop).1)
    = false
  ∧ (PUT_users_id demo (as_admin 1 new_email_only 50) shop).1
    = (PUT_users_id demo (as_admin 1 new_email_only 50)
         shop_other_passwords).1.
Proof.
  assert (same_but_passwords shop shop_other_passwords) as Hsame
    by (split; reflexivity).
  destruct (user_responses_hide_passwords demo shop shop_other_passwords
              Hsame) as (Hlist & _ & _ & Hput & _).
  split; [|split].
  - apply (Hlist (as_admin 0 () 50)).
  - apply (Hlist (as_admin 0 () 50)).
  - apply (Hput (as_admin 1 new_email_only 50)).
Defined.

(** The stored secret is in the row and not in the answer. *)
Example get_user_shows_no_secret :
  password <$> User_findByPk 1 (users shop) = Some "hash:admin123"
  ∧ (GET_users_id demo (as_admin 1 () 50) shop).1
    = json_ok (JObj [("success", JBool true);
                     ("user", JObj [("id", JNum 1); ("username", JStr "admin");
                                    ("email", JStr "admin@example.com");
                                    ("is_admin", JBool true);
                                    ("createdAt", JNum 10)])]).
Proof. by vm_compute. Qed.

(** * Further properties of the routers *)

(** ** The two gates *)

(** X1. A route behind [auth] and [admin] does not run its handler for a
    request that the gates do not let through: the store is unchanged and
    the answer is one of the four answers of the gates. When the token
    verifies and carries the claims of a user who is not an admin, the
    answer is 403 "Access denied. Admin privileges required.". *)
Theorem gates_keep_others_out (P : Platform) {B : Type}
    (h : Request B → Store → Response * Store) (req : Request B) (s : Store) :
  ¬ by_admin P req →
  (∃ r, through [auth P; admin] h req s = (r, s) ∧ r ∈ turned_away)
  ∧ (∀ c, auth P req = Next (set_user (Some c) req) →
          claim_is_admin c = false →
          through [auth P; admin] h req s
          = (failure 403 "Access denied. Admin privileges required.", s)).
Proof.
  intros Hno. split.
  - unfold by_admin in Hno. simpl.
    destruct (auth P req) as [req'|r] eqn:Hauth.
    + unfold admin in *. destruct (user req') as [c|].
      * destruct (claim_is_admin c); [by destruct Hno|].
        eexists. split; [done|]. unfold turned_away. set_solver.
      * eexists. split; [done|]. unfold turned_away. set_solver.
    + exists r. split; [done|]. unfold auth in Hauth.
      repeat case_match; simplify_eq; unfold turned_away; set_solver.
  - intros c Hauth Hc. simpl. rewrite Hauth. unfold admin. simpl.
    by rewrite Hc.
Qed.

Lemma gates_keep_others_out_witness :
  ∃ r, DELETE_users_id demo (incoming None 1 () 50) shop = (r, shop)
       ∧ r ∈ turned_away.
Proof.
  apply (gates_keep_others_out demo delete_user (incoming None 1 () 50) shop).
  intros [].
Defined.

(** ** Changing a password *)

Lemma check_min_length_6 param msg v :
  (6 ≤ String.length v)%nat → check JStr min_length_6 param msg (Some v) = [].
Proof.
  intros Hv. unfold check, min_length_6. by rewrite bool_decide_eq_true_2.
Qed.

(** X2. The password change of a signed-in caller, on a body that passes
    the validators and a user that exists. A caller who is neither the
    user nor an admin is answered 403; any caller, an admin included, whose
    current password does not verify against the secret of the user being
    changed is answered 400 "Current password is incorrect"; in both cases
    the store is unchanged. Otherwise the answer is the acknowledgment, the
    stored secret of that user is the hash of the new password, nothing
    else of the row changes, and no other user's row changes. *)
Theorem change_password_outcomes (P : Platform) (req : Request PasswordBody)
    (s : Store) (c : Claims) (u : User) (current fresh : string) :
  user req = Some c →
  valid_password_change (payload req) current fresh →
  User_findByPk (params_id req) (users s) = Some u →
  (claim_id c ≠ user_id u → claim_is_admin c = false →
   change_password P req s
   = (failure 403 "Not authorized to change this user's password", s))
  ∧ (claim_id c = user_id u ∨ claim_is_admin c = true →
     comparePassword P current (password u) = false →
     change_password P req s
     = (failure 400 "Current password is incorrect", s))
  ∧ (claim_id c = user_id u ∨ claim_is_admin c = true →
     comparePassword P current (password u) = true →
     ∃ u',
       (change_password P req s).1 = password_changed
       ∧ User_findByPk (params_id req) (users (change_password P req s).2)
         = Some u'
       ∧ password u' = hashPassword P fresh
       ∧ forget_password u' = forget_password u
       ∧ ∀ id, id ≠ params_id req →
               User_findByPk id (users (change_password P req s).2)
               = User_findByPk id (users s)).
Proof.
  intros Huser (Hcur & Hnew & Hne & Hlen) Hfind.
  destruct (User_findByPk_Some _ _ _ Hfind) as [_ Hid].
  unfold change_password.
  rewrite Hcur, Hnew, check_notEmpty, check_min_length_6 by done.
  simpl. rewrite Hfind, Huser. split; [|split].
  - intros Hother Hadm. rewrite Hadm.
    assert ((claim_id c =? user_id u) = false) as -> by lia. done.
  - intros Hallowed Hcmp.
    assert (negb (claim_id c =? user_id u) && negb (claim_is_admin c)
            = false) as ->.
    { destruct Hallowed as [->| ->]; [by rewrite Z.eqb_refl|].
      by rewrite andb_false_r. }
    by rewrite Hcmp.
  - intros Hallowed Hcmp.
    assert (negb (claim_id c =? user_id u) && negb (claim_is_admin c)
            = false) as ->.
    { destruct Hallowed as [->| ->]; [by rewrite Z.eqb_refl|].
      by rewrite andb_false_r. }
    rewrite Hcmp. simpl. eexists. split; [done|]. split; [|split; [|split]].
    + by apply (find_save_same user_id u).
    + done.
    + done.
    + intros id Hneq. apply (find_save_other user_id). simpl. lia.
Qed.

Lemma change_password_outcomes_witness :
  change_password demo
    (signed_in (claims_of seeded_admin) 2
       {| body_current_password := Some "guess";
          body_new_password := Some "secret2" |} 50) shop_with_lan
  = (failure 400 "Current password is incorrect", shop_with_lan)
  ∧ ∃ u',
      User_findByPk 2
        (users (change_password demo
                  (signed_in (claims_of ordinary_user) 2 lan_changes_password
                     50) shop_with_lan).2) = Some u'
      ∧ password u' = "hash:secret2".
Proof.
  split.
  - apply (change_password_outcomes demo
             (signed_in (claims_of seeded_admin) 2
                {| body_current_password := Some "guess";
                   body_new_password := Some "secret2" |} 50)
             shop_with_lan (claims_of seeded_admin) ordinary_user
             "guess" "secret2" eq_refl);
      [ repeat split; simpl; (discriminate || lia) | reflexivity
      | right; reflexivity | reflexivity ].
  - destruct (change_password_outcomes demo
                (signed_in (claims_of ordinary_user) 2 lan_changes_password 50)
                shop_with_lan (claims_of ordinary_user) ordinary_user
                "secret1" "secret2" eq_refl)
      as (_ & _ & Hok);
      [ repeat split; simpl; (discriminate || lia) | reflexivity |].
    destruct Hok as (u' & _ & Hfind & Hpw & _);
      [left; reflexivity | reflexivity |].
    exists u'. split; [exact Hfind | exact Hpw].
Defined.

(** ** The unique columns of the users table *)

Lemma check_nil_inv {A} (show : A → json) ok param msg v :
  check show ok param msg v = [] → ∃ a, v = Some a ∧ ok a = true.
Proof.
  unfold check. destruct v as [a|]; [|done].
  destruct (ok a) eqn:Hok; [eauto | done].
Qed.

Lemma find_app_None {A} (p : A → bool) l1 l2 :
  find p l1 = None → find p (l1 ++ l2) = find p l2.
Proof.
  induction l1 as [|x l1 IH]; [done|]. simpl.
  destruct (p x); [done | apply IH].
Qed.

Lemma User_save_fresh u' l :
  user_id u' ∉ user_id <$> l → User_save u' l = l.
Proof.
  unfold User_save. induction l as [|v l IH]; [done|].
  rewrite !fmap_cons, not_elem_of_cons. intros [Hne Hl].
  assert ((user_id v =? user_id u') = false) as -> by lia.
  by rewrite IH.
Qed.

Section Columns.
Context (f : User → string).

Lemma find_column_None x l :
  find (λ v, String.eqb (f v) x) l = None → x ∉ f <$> l.
Proof.
  intros Hfind (u & -> & Hu)%list_elem_of_fmap.
  apply list_elem_of_In in Hu.
  pose proof (find_none _ _ Hfind u Hu) as Hno. simpl in Hno.
  by rewrite String.eqb_refl in Hno.
Qed.

Lemma find_column_unique l u :
  NoDup (f <$> l) → u ∈ l → find (λ v, String.eqb (f v) (f u)) l = Some u.
Proof.
  induction l as [|v l IH]; [by intros _ ?%elem_of_nil|].
  rewrite fmap_cons, NoDup_cons. intros [Hv Hl] Hin. simpl.
  destruct (String.eqb_spec (f v) (f u)) as [Heq|Hne].
  - apply elem_of_cons in Hin as [->|Hin]; [done|].
    destruct Hv. rewrite Heq. by apply list_elem_of_fmap_2.
  - apply elem_of_cons in Hin as [->|Hin]; [done|]. by apply IH.
Qed.

Lemma User_save_column_elem u' l x :
  x ∈ f <$> User_save u' l → x = f u' ∨ x ∈ f <$> l.
Proof.
  unfold User_save. induction l as [|v l IH]; [by intros ?%elem_of_nil|].
  rewrite !fmap_cons, !elem_of_cons. intros [->|Hx].
  - destruct (user_id v =? user_id u'); auto.
  - destruct (IH Hx); auto.
Qed.

Lemma User_save_NoDup u u' l :
  NoDup (user_id <$> l) → NoDup (f <$> l) → u ∈ l →
  user_id u' = user_id u →
  f u' = f u ∨ f u' ∉ f <$> l →
  NoDup (f <$> User_save u' l).
Proof.
  intros Hids Hcol Hin Hid Hnew.
  induction l as [|v l IH]; [by apply elem_of_nil in Hin|].
  rewrite fmap_cons, NoDup_cons in Hids. rewrite fmap_cons, NoDup_cons in Hcol.
  destruct Hids as [Hv Hids], Hcol as [Hfv Hcol].
  apply elem_of_cons in Hin as [<-|Hin].
  - unfold User_save. rewrite fmap_cons.
    assert ((user_id u =? user_id u') = true) as -> by lia.
    fold (User_save u' l).
    rewrite (User_save_fresh u' l) by (by rewrite Hid).
    rewrite fmap_cons. apply NoDup_cons. split; [|done].
    destruct Hnew as [->|Hnew]; [done|].
    rewrite fmap_cons, not_elem_of_cons in Hnew. tauto.
  - assert (user_id v ≠ user_id u) as Hne.
    { intros Heq. apply Hv. rewrite Heq. by apply list_elem_of_fmap_2. }
    unfold User_save. rewrite fmap_cons.
    assert ((user_id v =? user_id u') = false) as -> by lia.
    fold (User_save u' l). rewrite fmap_cons. apply NoDup_cons. split.
    + intros [Hx|Hx]%User_save_column_elem; [|done].
      destruct Hnew as [Hnew|Hnew].
      * apply Hfv. rewrite Hx, Hnew. by apply list_elem_of_fmap_2.
      * apply Hnew. rewrite <- Hx, fmap_cons. apply elem_of_cons. by left.
    + apply IH; try done. destruct Hnew as [?|Hnew]; [by left|right].
      rewrite fmap_cons, not_elem_of_cons in Hnew. tauto.
Qed.
End Columns.

Lemma notEmpty_true v : notEmpty v = true ↔ v ≠ "".
Proof. unfold notEmpty. destruct (String.eqb_spec v ""); naive_solver. Qed.

Lemma long_is_not_empty v : (6 ≤ String.length v)%nat → v ≠ "".
Proof. intros Hlen ->. simpl in Hlen. lia. Qed.

Lemma account_checks (P : Platform) (b : UserBody) :
  (check JStr notEmpty "username" "Username is required" (body_username b)
   ++ check JStr (isEmail P) "email" "Please include a valid email"
        (body_email b)
   ++ check JStr min_length_6 "password"
        "Password must be at least 6 characters long" (body_password b)
   ++ check JBool (λ _, true) "is_admin" "is_admin must be a boolean"
        (body_is_admin b))%list = [] ↔
  ∃ name mail pw adm, valid_account P b name mail pw adm.
Proof.
  split.
  - intros (H1 & (H2 & (H3 & H4)%app_eq_nil)%app_eq_nil)%app_eq_nil.
    apply check_nil_inv in H1 as (name & Hname & Hn%notEmpty_true).
    apply check_nil_inv in H2 as (mail & Hmail & Hm).
    apply check_nil_inv in H3 as (pw & Hpw & Hp%bool_decide_eq_true).
    apply check_nil_inv in H4 as (adm & Hadm & _).
    exists name, mail, pw, adm. by repeat split.
  - intros (name & mail & pw & adm & -> & -> & -> & -> & Hn & Hm & Hp).
    rewrite check_notEmpty, check_min_length_6 by done.
    unfold check. by rewrite Hm.
Qed.

Ltac account_cases name mail pw adm Hvalid Hname Hmail :=
  match goal with
  | |- context [match ?errors with [] => _ | _ :: _ => _ end] =>
      let Herrors := fresh "Herrors" in
      destruct errors as [|? ?] eqn:Herrors;
      [ apply account_checks in Herrors
          as (name & mail & pw & adm & Hvalid);
        let H1 := fresh in let H2 := fresh in
        let H3 := fresh in let H4 := fresh in
        pose proof Hvalid as (H1 & H2 & H3 & H4 & _);
        rewrite H1, H2, H3, H4;
        destruct (User_findOne_username name (users _)) eqn:Hname;
        [|destruct (User_findOne_email mail (users _)) eqn:Hmail]
      |]
  end.

Lemma create_user_adds (P : Platform) (req : Request UserBody) (s : Store) :
  adds_account P req s (create_user P req s).2.
Proof.
  unfold create_user, adds_account.
  account_cases name mail pw adm Hvalid Hname Hmail; try (by left).
  right. by exists name, mail, pw, adm.
Qed.

Lemma register_adds (P : Platform) (req : Request UserBody) (s : Store) :
  adds_account P req s (register P req s).2.
Proof.
  unfold register, adds_account.
  account_cases name mail pw adm Hvalid Hname Hmail; try (by left).
  right. by exists name, mail, pw, adm.
Qed.

Lemma adds_account_wf (P : Platform) (req : Request UserBody) (s s' : Store) :
  accounts_wf s → adds_account P req s s' → accounts_wf s'.
Proof.
  intros Hwf [->|(name & mail & pw & adm & _ & Hname & Hmail & ->)]; [done|].
  destruct Hwf as ([Hkeys Hseq] & Hnames & Hmails).
  split; [split|split]; simpl.
  - unfold users_keyed. simpl. rewrite fmap_app. apply NoDup_app.
    split; [done|]. split; [|apply NoDup_singleton].
    intros id (u & -> & Hu)%list_elem_of_fmap Hnew.
    apply list_elem_of_fmap in Hnew as (v & Hid & ->%list_elem_of_singleton).
    specialize (Hseq u Hu). simpl in Hid. lia.
  - intros u [Hu| ->%list_elem_of_singleton]%elem_of_app.
    + specialize (Hseq u Hu). lia.
    + simpl. lia.
  - rewrite fmap_app. apply NoDup_app. split; [done|].
    split; [|apply NoDup_singleton].
    intros x Hx ->%list_elem_of_singleton. simpl in Hx.
    by apply (find_column_None username) in Hname.
  - rewrite fmap_app. apply NoDup_app. split; [done|].
    split; [|apply NoDup_singleton].
    intros x Hx ->%list_elem_of_singleton. simpl in Hx.
    by apply (find_column_None email) in Hmail.
Qed.

Lemma taken_false_column (f : User → string) x u l :
  taken x (f u) (λ v, find (λ w, String.eqb (f w) v) l) = false →
  or_else x (f u) = f u ∨ or_else x (f u) ∉ f <$> l.
Proof.
  unfold taken, or_else. destruct x as [v|]; [|by left].
  destruct (notEmpty v); [|by left]. simpl.
  destruct (String.eqb_spec v (f u)) as [->|Hne]; [by left|]. simpl.
  intros Hfind%bool_decide_eq_false. right.
  apply find_column_None.
  destruct (find _ l) eqn:E; [|done]. destruct Hfind. by eexists.
Qed.

Lemma update_user_accounts_wf (P : Platform) req s :
  accounts_wf s → accounts_wf (update_user P req s).2.
Proof.
  intros (Hwf & Hnames & Hmails). split; [by apply update_user_wf|].
  destruct Hwf as [Hkeys _]. unfold update_user.
  destruct (User_findByPk _ _) as [u|] eqn:Hfind; [|done].
  destruct (User_findByPk_Some _ _ _ Hfind) as [Hin _].
  destruct (taken (body_username _) _ _) eqn:Hname; [done|].
  destruct (taken (body_email _) _ _) eqn:Hmail; [done|].
  simpl. split.
  - apply (User_save_NoDup username u); try done.
    by apply (taken_false_column username).
  - apply (User_save_NoDup email u); try done.
    by apply (taken_false_column email).
Qed.

Lemma delete_user_accounts_wf req s :
  accounts_wf s → accounts_wf (delete_user req s).2.
Proof.
  intros (Hwf & Hnames & Hmails). split; [by apply delete_user_wf|].
  unfold delete_user. repeat case_match; try done. simpl. split.
  - eapply sublist_NoDup; [exact Hnames|]. apply fmap_sublist, sublist_filter.
  - eapply sublist_NoDup; [exact Hmails|]. apply fmap_sublist, sublist_filter.
Qed.

Lemma change_password_accounts_wf (P : Platform) req s :
  accounts_wf s → accounts_wf (change_password P req s).2.
Proof.
  intros (Hwf & Hnames & Hmails). unfold change_password.
  destruct (_ ++ _)%list; [|done].
  destruct (body_current_password _); [|done].
  destruct (body_new_password _); [|done].
  destruct (User_findByPk _ _) as [u|] eqn:Hfind; [|done].
  destruct (User_findByPk_Some _ _ _ Hfind) as [Hin _].
  repeat case_match; try done. simpl.
  destruct Hwf as [Hkeys Hseq]. split; [split|split]; simpl.
  - unfold users_keyed. simpl. by rewrite (User_save_ids u).
  - intros v Hv.
    apply (list_elem_of_fmap_2 user_id) in Hv.
    rewrite (User_save_ids u) in Hv by done.
    apply list_elem_of_fmap in Hv as (w & -> & Hw). by apply Hseq.
  - apply (User_save_NoDup username u); try done. by left.
  - apply (User_save_NoDup email u); try done. by left.
Qed.

(** X3. The user handlers keep the users table well formed: if ids are
    unique and below the sequence, and usernames and emails are unique,
    then they still are after creating a user, registering, updating a
    user, deleting a user or changing a password, whatever the request and
    its outcome. *)
Theorem accounts_stay_unique (P : Platform) (s : Store) :
  accounts_wf s →
  (∀ req, accounts_wf (create_user P req s).2)
  ∧ (∀ req, accounts_wf (register P req s).2)
  ∧ (∀ req, accounts_wf (update_user P req s).2)
  ∧ (∀ req, accounts_wf (delete_user req s).2)
  ∧ (∀ req, accounts_wf (change_password P req s).2).
Proof.
  intros Hwf. refine (conj _ (conj _ (conj _ (conj _ _)))); intros req.
  - eapply adds_account_wf; [done | apply create_user_adds].
  - eapply adds_account_wf; [done | apply register_adds].
  - by apply update_user_accounts_wf.
  - by apply delete_user_accounts_wf.
  - by apply change_password_accounts_wf.
Qed.

Lemma accounts_stay_unique_witness :
  accounts_wf (register demo (incoming None 0 new_admin_account 50)
                 shop_with_lan).2
  ∧ accounts_wf (delete_user (incoming None 2 () 50) shop_with_lan).2.
Proof.
  assert (accounts_wf shop_with_lan) as Hwf.
  { split; [split|split].
    - apply (bool_decide_unpack (NoDup (user_id <$> users shop_with_lan))).
      vm_compute. exact I.
    - intros u Hu. apply elem_of_cons in Hu as [->|Hu]; [reflexivity|].
      apply list_elem_of_singleton in Hu as ->. reflexivity.
    - apply (bool_decide_unpack (NoDup (username <$> users shop_with_lan))).
      vm_compute. exact I.
    - apply (bool_decide_unpack (NoDup (email <$> users shop_with_lan))).
      vm_compute. exact I. }
  destruct (accounts_stay_unique demo shop_with_lan Hwf)
    as (_ & Hregister & _ & Hdelete & _).
  split; [apply Hregister | apply Hdelete].
Defined.

(** ** Accounts and logins *)

Lemma find_column_fresh (f : User → string) x l :
  (∀ u, u ∈ l → f u ≠ x) → find (λ v, String.eqb (f v) x) l = None.
Proof.
  intros Hno. destruct (find _ l) as [u|] eqn:Hfind; [|done].
  apply find_some in Hfind as [Hin Heq%String.eqb_eq].
  apply list_elem_of_In in Hin. by destruct (Hno u Hin).
Qed.

Lemma count_app {A} (f : A → bool) l1 l2 :
  count f (l1 ++ l2) = count f l1 + count f l2.
Proof. unfold count. rewrite filter_app, length_app. lia. Qed.

Lemma login_finds (P : Platform) (req : Request LoginBody) (s : Store)
    (u : User) (pw : string) :
  payload req = login_with (username u) pw →
  username u ≠ "" → pw ≠ "" →
  User_findOne_username (username u) (users s) = Some u →
  comparePassword P pw (password u) = true →
  login P req s
  = (logged_in
       (jwt_sign P {| payload_user := Some (claims_of u) |} (JWT_SECRET P)
          (or_else (JWT_EXPIRES_IN P) "1d") (now req)) u, s).
Proof.
  intros Hbody Hn Hp Hfind Hcmp. unfold login. rewrite Hbody.
  cbn [login_with login_username login_password].
  rewrite !check_notEmpty by done. simpl. by rewrite Hfind, Hcmp.
Qed.

(** X4. A user created by POST /api/users (answer 201), or registered by
    POST /api/auth/register (answer 200), can log in at once: on the store
    that the creation leaves, a login with the same username and password
    answers 200 with a token and the claims of a stored user who has that
    username, email and admin flag. This needs the password hook and the
    comparison of the User model to agree. *)
Theorem new_account_can_log_in (P : Platform) (req : Request UserBody)
    (s : Store) (lreq : Request LoginBody) (name mail pw : string)
    (adm : bool) :
  hash_verifies P →
  valid_account P (payload req) name mail pw adm →
  payload lreq = login_with name pw →
  (status (create_user P req s).1 = 201 →
   ∃ token u,
     login P lreq (create_user P req s).2
     = (logged_in token u, (create_user P req s).2)
     ∧ u ∈ users (create_user P req s).2
     ∧ username u = name ∧ email u = mail ∧ is_admin u = adm)
  ∧ (status (register P req s).1 = 200 →
     ∃ token u,
       login P lreq (register P req s).2
       = (logged_in token u, (register P req s).2)
       ∧ u ∈ users (register P req s).2
       ∧ username u = name ∧ email u = mail ∧ is_admin u = adm).
Proof.
  intros Hhash Hvalid Hlogin.
  assert (∀ s', s' = set_users
                       (users s ++ [User_create P (users_seq s) name mail pw
                                      adm (now req)])
                       (users_seq s + 1) s →
                User_findOne_username name (users s) = None →
                ∃ token u,
                  login P lreq s' = (logged_in token u, s')
                  ∧ u ∈ users s'
                  ∧ username u = name ∧ email u = mail ∧ is_admin u = adm)
    as Hthen.
  { intros s' -> Hfree. destruct Hvalid as (_ & _ & _ & _ & Hn & _ & Hp).
    eexists _, (User_create P (users_seq s) name mail pw adm (now req)).
    split; [|split; [|done]].
    - apply (login_finds P lreq _
               (User_create P (users_seq s) name mail pw adm (now req)) pw);
        simpl; try done.
      + by apply long_is_not_empty.
      + unfold User_findOne_username in *. rewrite find_app_None by done.
        simpl. by rewrite String.eqb_refl.
    - simpl. apply elem_of_app. right. by apply list_elem_of_singleton. }
  pose proof Hvalid as (Hb1 & Hb2 & Hb3 & Hb4 & _).
  split.
  - unfold create_user.
    rewrite (proj2 (account_checks P (payload req))) by eauto 6.
    rewrite Hb1, Hb2, Hb3, Hb4.
    destruct (User_findOne_username name (users s)) eqn:Hname; [done|].
    destruct (User_findOne_email mail (users s)) eqn:Hmail; [done|].
    intros _. by apply Hthen.
  - unfold register.
    rewrite (proj2 (account_checks P (payload req))) by eauto 6.
    rewrite Hb1, Hb2, Hb3, Hb4.
    destruct (User_findOne_username name (users s)) eqn:Hname; [done|].
    destruct (User_findOne_email mail (users s)) eqn:Hmail; [done|].
    intros _. by apply Hthen.
Qed.

Lemma new_account_can_log_in_witness :
  ∃ token u,
    login demo (incoming None 0 (login_with "mallory" "letmein") 60)
      (register demo (incoming None 0 new_admin_account 50) shop).2
    = (logged_in token u,
       (register demo (incoming None 0 new_admin_account 50) shop).2)
    ∧ username u = "mallory" ∧ is_admin u = true.
Proof.
  destruct (new_account_can_log_in demo (incoming None 0 new_admin_account 50)
              shop (incoming None 0 (login_with "mallory" "letmein") 60)
              "mallory" "m@example.com" "letmein" true)
    as (_ & Hregister).
  - intros pw. apply String.eqb_refl.
  - repeat split; simpl; (discriminate || lia).
  - reflexivity.
  - destruct (Hregister eq_refl) as (token & u & Hlogin & _ & Hname & _ & Hadm).
    exists token, u. split; [exact Hlogin|]. split; [exact Hname | exact Hadm].
Defined.

(** X5. After a password change that was acknowledged, the user logs in
    with the new password: on the store that the change leaves, a login
    with the user's username and the new password answers 200 with a token
    and the user's claims. This needs a well-formed users table, a user
    with a non-empty username, and the password hook and the comparison of
    the User model to agree. *)
Theorem changed_password_logs_in (P : Platform) (req : Request PasswordBody)
    (s : Store) (lreq : Request LoginBody) (u : User) (fresh : string) :
  hash_verifies P →
  accounts_wf s →
  User_findByPk (params_id req) (users s) = Some u →
  body_new_password (payload req) = Some fresh →
  (change_password P req s).1 = password_changed →
  username u ≠ "" →
  payload lreq = login_with (username u) fresh →
  ∃ token,
    login P lreq (change_password P req s).2
    = (logged_in token u, (change_password P req s).2).
Proof.
  intros Hhash ((Hkeys & _) & Hnames & _) Hfind Hnew Hok Hname Hlogin.
  destruct (User_findByPk_Some _ _ _ Hfind) as [Hin _].
  unfold change_password in *. rewrite Hnew, Hfind in *.
  destruct (_ ++ _)%list eqn:Herrors; [|done].
  apply app_eq_nil in Herrors as [_ Hlen].
  apply check_nil_inv in Hlen as (a & [= <-] & Hlen%bool_decide_eq_true).
  destruct (body_current_password _); [|done].
  destruct (user req) as [c|]; [|done].
  destruct (negb (claim_id c =? user_id u) && negb (claim_is_admin c));
    [done|].
  destruct (negb (comparePassword P _ (password u))); [done|].
  cbn [fst snd] in *.
  set (u' := User_update P _ u).
  assert (Some u' = Some u' ∧ u' ∈ User_save u' (users s)) as [_ Hu'].
  { split; [done|].
    pose proof (find_save_same user_id u u' (users s) _ Hfind eq_refl) as H.
    apply find_some in H as [H _]. by apply list_elem_of_In. }
  eexists.
  apply (login_finds P lreq _ u' fresh); try done.
  - by apply long_is_not_empty.
  - apply (find_column_unique username); [|done].
    apply (User_save_NoDup username u); try done. by left.
Qed.

Lemma accounts_wf_shop_with_lan : accounts_wf shop_with_lan.
Proof.
  split; [split|split].
  - apply (bool_decide_unpack (NoDup (user_id <$> users shop_with_lan))).
    by vm_compute.
  - intros u Hu. apply elem_of_cons in Hu as [->|Hu]; [done|].
    by apply list_elem_of_singleton in Hu as ->.
  - apply (bool_decide_unpack (NoDup (username <$> users shop_with_lan))).
    by vm_compute.
  - apply (bool_decide_unpack (NoDup (email <$> users shop_with_lan))).
    by vm_compute.
Qed.

Lemma changed_password_logs_in_witness :
  ∃ token,
    login demo (incoming None 0 (login_with "lan" "secret2") 60)
      (change_password demo
         (signed_in (claims_of ordinary_user) 2 lan_changes_password 50)
         shop_with_lan).2
    = (logged_in token ordinary_user,
       (change_password demo
          (signed_in (claims_of ordinary_user) 2 lan_changes_password 50)
          shop_with_lan).2).
Proof.
  apply (changed_password_logs_in demo
           (signed_in (claims_of ordinary_user) 2 lan_changes_password 50)
           shop_with_lan (incoming None 0 (login_with "lan" "secret2") 60)
           ordinary_user "secret2").
  - intros pw. apply String.eqb_refl.
  - exact accounts_wf_shop_with_lan.
  - reflexivity.
  - reflexivity.
  - reflexivity.
  - discriminate.
  - reflexivity.
Defined.

(** X6. Registration asks for no credentials: a request with no
    Authorization header whose body passes the validators with
    [is_admin = true], and whose username and email no stored user has, is
    answered 200 with a token, and the store gains a user with that
    username who is an admin, so that the number of admins grows by one. *)
Theorem register_needs_no_credentials (P : Platform) (id t : Z)
    (b : UserBody) (s : Store) (name mail pw : string) :
  valid_account P b name mail pw true →
  (∀ u, u ∈ users s → username u ≠ name) →
  (∀ u, u ∈ users s → email u ≠ mail) →
  ∃ token u,
    (POST_auth_register P (incoming None id b t) s).1 = logged_in token u
    ∧ u ∈ users (POST_auth_register P (incoming None id b t) s).2
    ∧ (u ∉ users s)
    ∧ username u = name ∧ is_admin u = true
    ∧ admin_count (POST_auth_register P (incoming None id b t) s).2
      = admin_count s + 1.
Proof.
  intros Hvalid Hname Hmail.
  pose proof Hvalid as (Hb1 & Hb2 & Hb3 & Hb4 & _).
  unfold POST_auth_register. rewrite through_nil. unfold register.
  cbn [payload incoming].
  rewrite (proj2 (account_checks P b)) by eauto 6.
  rewrite Hb1, Hb2, Hb3, Hb4.
  unfold User_findOne_username, User_findOne_email.
  rewrite (find_column_fresh username), (find_column_fresh email) by done.
  eexists _, _. split; [done|]. cbn [fst snd]. split; [|split; [|split]].
  - simpl. apply elem_of_app. right. by apply list_elem_of_singleton.
  - intros Hold. by apply (Hname _ Hold).
  - done.
  - split; [done|]. unfold admin_count. simpl. rewrite count_app.
    rewrite count_cons. simpl. unfold count. simpl. lia.
Qed.

Lemma register_needs_no_credentials_witness :
  ∃ token u,
    (POST_auth_register demo (incoming None 0 new_admin_account 50) shop).1
    = logged_in token u
    ∧ username u = "mallory" ∧ is_admin u = true
    ∧ admin_count
        (POST_auth_register demo (incoming None 0 new_admin_account 50) shop).2
      = admin_count shop + 1.
Proof.
  destruct (register_needs_no_credentials demo 0 50 new_admin_account shop
              "mallory" "m@example.com" "letmein")
    as (token & u & Hres & _ & _ & Hname & Hadm & Hcount).
  - repeat split; simpl; (discriminate || lia).
  - intros u ->%list_elem_of_singleton. discriminate.
  - intros u ->%list_elem_of_singleton. discriminate.
  - exists token, u. split; [exact Hres|]. split; [exact Hname|].
    split; [exact Hadm | exact Hcount].
Defined.

(** ** One contact message *)

Section Destroyed.
Context {A : Type} (key : A → Z).

Lemma find_destroy_same (k : Z) (l : list A) :
  find (λ v, key v =? k) (filter (λ v, key v ≠ k) l) = None.
Proof.
  destruct (find _ _) as [n|] eqn:Hn; [|done].
  apply find_some in Hn as [Hin Hn]. apply list_elem_of_In in Hin.
  apply list_elem_of_filter in Hin as [Hne _]. lia.
Qed.

Lemma find_destroy_other (k id : Z) (l : list A) :
  id ≠ k →
  find (λ v, key v =? id) (filter (λ v, key v ≠ k) l)
  = find (λ v, key v =? id) l.
Proof.
  intros Hne. induction l as [|n l IH]; [done|].
  rewrite filter_cons. simpl. case_decide as Hn; simpl.
  - by rewrite IH.
  - assert ((key n =? id) = false) as -> by lia. done.
Qed.
End Destroyed.

Lemma ContactMessage_findByPk_Some id ms m :
  ContactMessage_findByPk id ms = Some m → m ∈ ms ∧ message_id m = id.
Proof.
  unfold ContactMessage_findByPk. intros [Hin Hid]%find_some.
  split; [by apply list_elem_of_In | lia].
Qed.

Lemma submit_contact_adds (P : Platform) (E : Engine)
    (req : Request ContactBody) (s : Store) :
  contact_messages (submit_contact P E req s).2 = contact_messages s
  ∨ ∃ m, contact_messages (submit_contact P E req s).2
         = (contact_messages s ++ [m])%list
         ∧ is_read m = false.
Proof.
  unfold submit_contact.
  destruct (_ ++ _)%list as [|e errors]; [|by left].
  destruct (form_contact_name (payload req)) as [name|]; [|by left].
  destruct (form_contact_email (payload req)) as [mail|]; [|by left].
  destruct (form_subject (payload req)) as [subj|]; [|by left].
  destruct (form_message (payload req)) as [text|]; [|by left].
  destruct (negb (ContactMessage_validate _ _)); [by left|].
  destruct (negb (ContactMessage_fits _)); [by left|].
  right. by eexists.
Qed.

(** X7. No route of the contact router marks a message read. Viewing a
    message tests [message.status], which is no attribute of the model
    and undefined on every row: the view writes nothing and shows the
    message as it is stored. The message list and the status update leave
    the store as it is too, a submission adds at most one message, with
    [is_read] false, and a deletion only removes: if every stored message
    is unread, so is every stored message after any of the five
    handlers. *)
Theorem messages_stay_unread (P : Platform) (E : Engine) (s : Store) :
  all_unread s →
  (∀ req, all_unread (submit_contact P E req s).2)
  ∧ (∀ req, (list_messages E req s).2 = s)
  ∧ (∀ req, (get_message req s).2 = s)
  ∧ (∀ req, (update_message req s).2 = s)
  ∧ (∀ req, all_unread (delete_message req s).2)
  ∧ (∀ req m,
       in_INTEGER (params_id req) = true →
       ContactMessage_findByPk (params_id req) (contact_messages s) = Some m →
       get_message req s = (shows_message m, s)
       ∧ body (get_message req s).1
         = JObj [("success", JBool true);
                 ("message",
                  JObj [("id", JNum (message_id m));
                        ("name", JStr (contact_name m));
                        ("email", JStr (contact_email m));
                        ("phone", JOpt JStr (phone m));
                        ("message", JStr (message m));
                        ("created_at", JNum (contact_created m));
                        ("is_read", JBool false)])]).
Proof.
  intros Hunread. split; [|split; [|split; [|split; [|split]]]].
  - intros req m.
    destruct (submit_contact_adds P E req s) as [->|(m' & -> & Hm')];
      [apply Hunread|].
    intros [Hm|Hm%list_elem_of_singleton]%elem_of_app;
      [by apply Hunread | by subst m].
  - intros req. by rewrite list_messages_fails.
  - intros req. unfold get_message.
    destruct (negb _); [done|].
    destruct (ContactMessage_findByPk _ _); [|done].
    by destruct (bool_decide _).
  - intros req. unfold update_message.
    destruct (negb _); [done|].
    by destruct (ContactMessage_findByPk _ _).
  - intros req m. unfold delete_message.
    destruct (negb _); [apply Hunread|].
    destruct (ContactMessage_findByPk _ _); [|apply Hunread].
    cbn [snd contact_messages set_contact_messages].
    unfold ContactMessage_destroy.
    intros [_ Hm]%list_elem_of_filter. by apply Hunread.
  - intros req m Hrange Hfind. unfold get_message.
    rewrite Hrange, Hfind. cbn [negb].
    assert ((if bool_decide (ContactMessage_status m = Some "unread")
             then (shows_message m, s) else (shows_message m, s))
            = (shows_message m, s)) as -> by (by destruct (bool_decide _)).
    split; [done|].
    destruct (ContactMessage_findByPk_Some _ _ _ Hfind) as [Hin _].
    cbn [fst body shows_message json_ok]. unfold ContactMessage_json.
    by rewrite (Hunread m Hin).
Qed.

Lemma messages_stay_unread_witness :
  get_message (incoming None 1 () 60) shop_with_enquiry
  = (shows_message strap_enquiry, shop_with_enquiry).
Proof.
  assert (all_unread shop_with_enquiry) as Hunread.
  { intros m Hm. apply list_elem_of_singleton in Hm. by subst m. }
  destruct (messages_stay_unread demo demo_engine shop_with_enquiry Hunread)
    as (_ & _ & _ & _ & _ & Hview).
  apply (Hview (incoming None 1 () 60) strap_enquiry); reflexivity.
Defined.

(** X8. The status update is a view. [message.update({ status })] names
    no attribute of the model and writes nothing: whatever the body, the
    handler answers as the view of the same message answers and leaves the
    store as it is; for a message that exists and a key in the range of
    the id column the answer is 200 with the stored message, in which
    there is no [status]. *)
Theorem status_update_is_a_view (req : Request StatusBody)
    (view : Request unit) (s : Store) :
  params_id view = params_id req →
  update_message req s = get_message view s
  ∧ (update_message req s).2 = s
  ∧ (∀ req' : Request StatusBody,
       params_id req' = params_id req →
       update_message req' s = update_message req s)
  ∧ (∀ m, in_INTEGER (params_id req) = true →
          ContactMessage_findByPk (params_id req) (contact_messages s)
          = Some m →
          update_message req s = (shows_message m, s)
          ∧ status (update_message req s).1 = 200
          ∧ has_key "status" (body (update_message req s).1) = false).
Proof.
  intros Hview. unfold update_message, get_message. rewrite Hview.
  split; [|split; [|split]].
  - destruct (negb _); [done|].
    destruct (ContactMessage_findByPk _ _); [|done].
    by destruct (bool_decide _).
  - destruct (negb _); [done|].
    by destruct (ContactMessage_findByPk _ _).
  - intros req' Hreq'. by rewrite Hreq'.
  - intros m Hrange Hfind. rewrite Hrange, Hfind. cbn [negb].
    split; [done|]. split; [done|].
    cbn [fst body shows_message json_ok]. unfold ContactMessage_json.
    simpl. by destruct (phone m).
Qed.

Lemma status_update_is_a_view_witness :
  update_message (incoming None 1 archive_it 60) shop_with_enquiry
  = (shows_message strap_enquiry, shop_with_enquiry).
Proof.
  destruct (status_update_is_a_view (incoming None 1 archive_it 60)
              (incoming None 1 () 60) shop_with_enquiry eq_refl)
    as (_ & _ & _ & Hshown).
  apply (Hshown strap_enquiry); reflexivity.
Defined.

(** X9. Deleting a message that exists, under a key in the range of the
    id column, answers with the acknowledgment and removes it: in the
    resulting store the stored messages are the former ones but this one,
    a view of the same id is answered 404, every other id is found as
    before, and no other table changes. Deleting or viewing an id in that
    range that no message has is answered 404 and changes nothing; a key
    outside the range is a database error, answered 500, and changes
    nothing. *)
Theorem deleted_message_is_gone (req view : Request unit) (s : Store) :
  params_id view = params_id req →
  (in_INTEGER (params_id req) = true →
   (∀ m, ContactMessage_findByPk (params_id req) (contact_messages s)
         = Some m →
         (delete_message req s).1 = message_deleted
         ∧ (∀ n, n ∈ contact_messages (delete_message req s).2
                 ↔ n ∈ contact_messages s ∧ message_id n ≠ params_id req)
         ∧ (get_message view (delete_message req s).2).1
           = failure 404 "Message not found"
         ∧ (∀ id, id ≠ params_id req →
                  ContactMessage_findByPk id
                    (contact_messages (delete_message req s).2)
                  = ContactMessage_findByPk id (contact_messages s))
         ∧ contact_messages_seq (delete_message req s).2
           = contact_messages_seq s
         ∧ users (delete_message req s).2 = users s
         ∧ categories (delete_message req s).2 = categories s
         ∧ products (delete_message req s).2 = products s
         ∧ product_images (delete_message req s).2 = product_images s
         ∧ files (delete_message req s).2 = files s)
   ∧ (ContactMessage_findByPk (params_id req) (contact_messages s) = None →
      delete_message req s = (failure 404 "Message not found", s)
      ∧ get_message view s = (failure 404 "Message not found", s)))
  ∧ (in_INTEGER (params_id req) = false →
     delete_message req s = (server_error, s)
     ∧ get_message view s = (server_error, s)).
Proof.
  intros Hview. split; [|intros Hrange; unfold delete_message, get_message;
                         by rewrite Hview, Hrange].
  intros Hrange. split.
  - intros m Hfind.
    destruct (ContactMessage_findByPk_Some _ _ _ Hfind) as [_ Hid].
    unfold delete_message. rewrite Hrange, Hfind.
    cbn [negb fst snd users categories products product_images
         contact_messages contact_messages_seq files set_contact_messages].
    split; [done|]. split.
    { intros n. unfold ContactMessage_destroy.
      rewrite list_elem_of_filter, Hid. tauto. }
    split.
    + unfold get_message. rewrite Hview, Hrange.
      cbn [negb contact_messages set_contact_messages]. rewrite <- Hid.
      assert (ContactMessage_findByPk (message_id m)
                (ContactMessage_destroy m (contact_messages s)) = None) as ->;
        [|done].
      apply (find_destroy_same message_id).
    + split; [|done].
      intros id Hne. apply (find_destroy_other message_id). lia.
  - intros Hfind. unfold delete_message, get_message.
    by rewrite Hview, Hrange, Hfind.
Qed.

Lemma deleted_message_is_gone_witness :
  (get_message (incoming None 1 () 70)
     (delete_message (incoming None 1 () 60) shop_with_enquiry).2).1
  = failure 404 "Message not found"
  ∧ delete_message (incoming None 99999999999 () 60) shop_with_enquiry
    = (server_error, shop_with_enquiry).
Proof.
  destruct (deleted_message_is_gone (incoming None 1 () 60)
              (incoming None 1 () 70) shop_with_enquiry eq_refl)
    as [Hin _].
  destruct (deleted_message_is_gone (incoming None 99999999999 () 60)
              (incoming None 99999999999 () 70) shop_with_enquiry eq_refl)
    as [_ Hout].
  split.
  - apply (proj1 (Hin eq_refl) strap_enquiry eq_refl).
  - apply (Hout eq_refl).
Defined.

(** ** Categories *)

Section Saved.
Context {A : Type} (key : A → Z) (f : A → string).

Lemma save_fresh (x' : A) (l : list A) :
  key x' ∉ key <$> l →
  (λ v, if key v =? key x' then x' else v) <$> l = l.
Proof.
  induction l as [|v l IH]; [done|].
  rewrite !fmap_cons, not_elem_of_cons. intros [Hne Hl].
  assert ((key v =? key x') = false) as -> by lia.
  by rewrite IH.
Qed.

Lemma save_column_elem (x' : A) (l : list A) (y : string) :
  y ∈ f <$> ((λ v, if key v =? key x' then x' else v) <$> l) →
  y = f x' ∨ y ∈ f <$> l.
Proof.
  induction l as [|v l IH]; [by intros ?%elem_of_nil|].
  rewrite !fmap_cons, !elem_of_cons. intros [->|Hy].
  - destruct (key v =? key x'); auto.
  - destruct (IH Hy); auto.
Qed.

Lemma save_NoDup (x x' : A) (l : list A) :
  NoDup (key <$> l) → NoDup (f <$> l) → x ∈ l → key x' = key x →
  f x' = f x ∨ f x' ∉ f <$> l →
  NoDup (f <$> ((λ v, if key v =? key x' then x' else v) <$> l)).
Proof.
  intros Hids Hcol Hin Hid Hnew.
  induction l as [|v l IH]; [by apply elem_of_nil in Hin|].
  rewrite fmap_cons, NoDup_cons in Hids.
  rewrite fmap_cons, NoDup_cons in Hcol.
  destruct Hids as [Hv Hids], Hcol as [Hfv Hcol].
  apply elem_of_cons in Hin as [<-|Hin].
  - rewrite fmap_cons.
    assert ((key x =? key x') = true) as -> by lia.
    rewrite save_fresh by (by rewrite Hid).
    rewrite fmap_cons. apply NoDup_cons. split; [|done].
    destruct Hnew as [->|Hnew]; [done|].
    rewrite fmap_cons, not_elem_of_cons in Hnew. tauto.
  - assert (key v ≠ key x) as Hne.
    { intros Heq. apply Hv. rewrite Heq. by apply list_elem_of_fmap_2. }
    rewrite fmap_cons.
    assert ((key v =? key x') = false) as -> by lia.
    rewrite fmap_cons. apply NoDup_cons. split.
    + intros [Hy|Hy]%save_column_elem; [|done].
      destruct Hnew as [Hnew|Hnew].
      * apply Hfv. rewrite Hy, Hnew. by apply list_elem_of_fmap_2.
      * apply Hnew. rewrite <- Hy, fmap_cons. apply elem_of_cons. by left.
    + apply IH; try done. destruct Hnew as [?|Hnew]; [by left|right].
      rewrite fmap_cons, not_elem_of_cons in Hnew. tauto.
Qed.

Lemma save_keys (x x' : A) (l : list A) :
  key x' = key x →
  key <$> ((λ v, if key v =? key x' then x' else v) <$> l) = key <$> l.
Proof.
  intros Hid. rewrite <- list_fmap_compose.
  apply list_fmap_ext. intros _ v _. simpl.
  destruct (key v =? key x') eqn:E; [lia | done].
Qed.

Lemma find_string_None (y : string) (l : list A) :
  find (λ v, String.eqb (f v) y) l = None → y ∉ f <$> l.
Proof.
  intros Hfind (u & -> & Hu)%list_elem_of_fmap.
  apply list_elem_of_In in Hu.
  pose proof (find_none _ _ Hfind u Hu) as Hno. simpl in Hno.
  by rewrite String.eqb_refl in Hno.
Qed.

Lemma find_string_Some (y : string) (l : list A) (x : A) :
  x ∈ l → f x = y → is_Some (find (λ v, String.eqb (f v) y) l).
Proof.
  intros Hin Hy. destruct (find _ l) eqn:Hfind; [by eexists|].
  apply list_elem_of_In in Hin.
  pose proof (find_none _ _ Hfind x Hin) as Hno. simpl in Hno.
  by rewrite Hy, String.eqb_refl in Hno.
Qed.
End Saved.

Lemma slug_taken_false x c cs :
  slug_taken x (category_slug c) cs = false →
  or_else x (category_slug c) = category_slug c
  ∨ or_else x (category_slug c) ∉ category_slug <$> cs.
Proof.
  unfold slug_taken, or_else. destruct x as [v|]; [|by left].
  destruct (notEmpty v); [|by left]. simpl.
  destruct (String.eqb_spec v (category_slug c)) as [->|Hne]; [by left|].
  simpl. intros Hfind%bool_decide_eq_false. right.
  apply (find_string_None category_slug).
  unfold Category_findOne_slug in Hfind.
  destruct (find _ cs) eqn:E; [|done]. destruct Hfind. by eexists.
Qed.

(** X10. The category handlers keep the categories table well formed: if
    ids and slugs are unique, they still are after a create (with a key
    that is not in use), an update or a delete, whatever the request and
    its outcome. A create with a name and the non-empty slug of a stored
    category is answered 400 "Category with this slug already exists" and
    changes nothing. *)
Theorem slugs_stay_unique (P : Platform) (s : Store) :
  categories_wf s →
  (∀ key req, key ∉ category_id <$> categories s →
              categories_wf (create_category key req s).2)
  ∧ (∀ req, categories_wf (update_category P req s).2)
  ∧ (∀ req, categories_wf (delete_category P req s).2)
  ∧ (∀ key req name c,
       form_category_name (payload req) = Some name → name ≠ "" →
       c ∈ categories s → category_slug c ≠ "" →
       form_category_slug (payload req) = Some (category_slug c) →
       create_category key req s = (slug_exists, s)).
Proof.
  intros [Hids Hslugs]. refine (conj _ (conj _ (conj _ _))).
  - intros key req Hkey. unfold create_category.
    destruct (_ ++ _)%list; [|done].
    destruct (form_category_name (payload req)),
      (form_category_slug (payload req)); try done.
    destruct (Category_findOne_slug _ _) eqn:Hfree; [done|].
    split; simpl.
    + rewrite fmap_app. apply NoDup_app. split; [done|].
      split; [|apply NoDup_singleton].
      intros x Hx ->%list_elem_of_singleton. done.
    + rewrite fmap_app. apply NoDup_app. split; [done|].
      split; [|apply NoDup_singleton].
      intros x Hx ->%list_elem_of_singleton. simpl in Hx.
      by eapply (find_string_None category_slug).
  - intros req. unfold update_category.
    destruct (Category_findByPk _ _) as [c|] eqn:Hfind; [|done].
    destruct (Category_findByPk_Some _ _ _ Hfind) as [Hin _].
    destruct (slug_taken _ _ _) eqn:Htaken; [done|].
    split; simpl.
    + unfold Category_save. by rewrite (save_keys category_id c).
    + apply (save_NoDup category_id category_slug c); try done.
      by apply slug_taken_false.
  - intros req. unfold delete_category.
    destruct (Category_findByPk _ _); [|done].
    destruct (0 <? _); [done|]. split; simpl.
    + eapply sublist_NoDup; [exact Hids|]. apply fmap_sublist, sublist_filter.
    + eapply sublist_NoDup; [exact Hslugs|].
      apply fmap_sublist, sublist_filter.
  - intros key req name c Hname Hn Hin Hne Hslug. unfold create_category.
    rewrite Hname, Hslug, !check_notEmpty by done. simpl.
    destruct (find_string_Some category_slug (category_slug c) _ c Hin eq_refl)
      as [d Hd].
    unfold Category_findOne_slug. by rewrite Hd.
Qed.

Lemma slugs_stay_unique_witness :
  create_category 3 (incoming None 0 watches_again 50) shop
  = (slug_exists, shop)
  ∧ categories_wf (update_category demo (incoming None 2 new_picture 50)
                     shop).2.
Proof.
  assert (categories_wf shop) as Hwf.
  { split.
    - apply (bool_decide_unpack (NoDup (category_id <$> categories shop))).
      vm_compute. exact I.
    - apply (bool_decide_unpack (NoDup (category_slug <$> categories shop))).
      vm_compute. exact I. }
  destruct (slugs_stay_unique demo shop Hwf) as (_ & Hupdate & _ & Hdup).
  split; [|apply Hupdate].
  apply (Hdup 3 (incoming None 0 watches_again 50) "Smart Watch 2"
           smart_watches); [reflexivity | discriminate | | discriminate
                           | reflexivity].
  apply list_elem_of_In. right. left. reflexivity.
Defined.

(** X11. An update of a category that is answered 200. The stored row
    keeps its id; a name or slug that is missing or empty leaves the stored
    one, any other replaces it; a description in the body replaces the
    stored one even when it is empty, a missing one leaves it. Without an
    uploaded file the image reference and the files on disk are as before;
    with one, the image reference is the upload's path, the file of the
    previous image (when the category had one) is not on disk afterwards,
    and no other file is removed or added. *)
Theorem category_update_effects (P : Platform) (req : Request CategoryBody)
    (s : Store) (c : Category) :
  Category_findByPk (params_id req) (categories s) = Some c →
  status (update_category P req s).1 = 200 →
  ∃ c',
    Category_findByPk (params_id req) (categories (update_category P req s).2)
    = Some c'
    ∧ category_id c' = category_id c
    ∧ category_name c'
      = or_else (form_category_name (payload req)) (category_name c)
    ∧ category_slug c'
      = or_else (form_category_slug (payload req)) (category_slug c)
    ∧ (∀ d, form_category_description (payload req) = Some d →
            category_description c' = Some d)
    ∧ (form_category_description (payload req) = None →
       category_description c' = category_description c)
    ∧ (category_file (payload req) = None →
       image_url c' = image_url c
       ∧ files (update_category P req s).2 = files s)
    ∧ (∀ f, category_file (payload req) = Some f →
            image_url c' = Some ("/uploads/categories/" +:+ f)
            ∧ (∀ old, image_url c = Some old → old ≠ "" →
                      public_path P old ∉ files (update_category P req s).2)
            ∧ (∀ p, p ∈ files (update_category P req s).2 ↔
                    (p ∈ files s
                     ∧ (∀ old, image_url c = Some old → old ≠ "" →
                               p ≠ public_path P old)))).
Proof.
  intros Hfind. unfold update_category. rewrite Hfind.
  destruct (slug_taken _ _ _); [done|]. intros _.
  exists (updated_category (payload req) c). cbn [fst snd].
  split; [by apply (find_save_same category_id c)|].
  split; [done|]. split; [done|]. split; [done|].
  split; [intros d Hd; simpl; by rewrite Hd|].
  split; [intros Hd; simpl; by rewrite Hd|].
  split; [intros Hf; simpl; by rewrite Hf|]. intros f Hf. simpl. rewrite Hf.
  split; [done|].
  destruct (truthy (image_url c)) as [old|] eqn:Hold.
  - apply truthy_Some in Hold as [Hold Hne]. split.
    + intros old' Hold' _. simplify_eq. apply unlink_if_exists_gone.
    + intros p. rewrite unlink_if_exists_others. naive_solver.
  - apply truthy_None in Hold. split; [naive_solver|].
    intros p. naive_solver.
Qed.

Lemma category_update_effects_witness :
  ∃ c',
    Category_findByPk 2
      (categories (update_category demo (incoming None 2 new_picture 50)
                     shop).2) = Some c'
    ∧ category_name c' = "Smart Watch"
    ∧ category_description c' = Some ""
    ∧ image_url c' = Some "/uploads/categories/category-9.png"
    ∧ "/srv/public/uploads/categories/category-2.png"
      ∉ files (update_category demo (incoming None 2 new_picture 50) shop).2.
Proof.
  destruct (category_update_effects demo (incoming None 2 new_picture 50) shop
              smart_watches eq_refl eq_refl)
    as (c' & Hfind & _ & Hname & _ & Hdesc & _ & _ & Hfile).
  destruct (Hfile "category-9.png" eq_refl) as (Hurl & Hgone & _).
  exists c'. split; [exact Hfind|]. split; [exact Hname|].
  split; [exact (Hdesc "" eq_refl)|]. split; [exact Hurl|].
  apply (Hgone "/uploads/categories/category-2.png");
    [reflexivity | discriminate].
Defined.

(** X12. The products of a category, by slug, are never listed. An unknown
    slug is answered 404. For a known slug the route orders the products
    by [createdAt], a column that the products table does not have
    (models/Product.js declares [created_at] and [timestamps: false]): the
    answer is 500 "Server error", whatever the page and the limit. The
    store is never changed. *)
Theorem category_products_never_lists (E : Engine)
    (req : Request CategoryProductsQuery) (s : Store) :
  (Category_findOne_slug (params_slug (payload req)) (categories s) = None →
   GET_categories_slug_products E req s
   = (failure 404 "Category not found", s))
  ∧ (∀ c, Category_findOne_slug (params_slug (payload req)) (categories s)
          = Some c →
          GET_categories_slug_products E req s = (server_error, s))
  ∧ status (GET_categories_slug_products E req s).1 ≠ 200
  ∧ (GET_categories_slug_products E req s).2 = s.
Proof.
  unfold GET_categories_slug_products. rewrite through_nil.
  unfold category_products.
  destruct (Category_findOne_slug _ _) as [c|]; simpl; done.
Qed.

Lemma category_products_never_lists_witness :
  GET_categories_slug_products demo_engine
    (incoming None 0 digital_page_two 50) shop
  = (server_error, shop).
Proof.
  apply (proj1 (proj2 (category_products_never_lists demo_engine
                         (incoming None 0 digital_page_two 50) shop))
           digital_watches).
  reflexivity.
Defined.

(** ** Products *)

(** X13. POST /api/products never stores a product. The object that the
    handler hands to [Product.create] has no [slug], and the Product model
    declares [slug] as [allowNull: false], so the creation throws and the
    handler's [catch] answers 500: whatever the request, the store is
    unchanged and the answer is a 400 or a 500; a form that passes the
    validators and names a stored category is answered 500 "Server
    error". *)
Theorem create_product_never_stores (P : Platform) (key : Z)
    (req : Request ProductBody) (s : Store) :
  (create_product P key req s).2 = s
  ∧ (status (create_product P key req s).1 = 400
     ∨ status (create_product P key req s).1 = 500)
  ∧ (∀ name model c descr,
       form_name (payload req) = Some name → name ≠ "" →
       form_model_number (payload req) = Some model → model ≠ "" →
       form_description (payload req) = Some descr → descr ≠ "" →
       form_category_id (payload req) = Some c →
       is_Some (Category_findByPk c (categories s)) →
       create_product P key req s = (server_error, s)).
Proof.
  assert (∀ t v ps, value_slug v = None → Product_create key t v ps = None)
    as Hthrows.
  { intros t v ps Hslug. unfold Product_create. rewrite Hslug. simpl.
    by destruct (truthy (value_name v)). }
  split; [|split].
  - unfold create_product. destruct (_ ++ _)%list; [|done].
    destruct (form_category_id _); [|done].
    destruct (Category_findByPk _ _); [|done].
    destruct (match truthy _ with Some _ => _ | None => _ end); [|done].
    by rewrite Hthrows.
  - unfold create_product. destruct (_ ++ _)%list; [|by left].
    destruct (form_category_id _); [|by right].
    destruct (Category_findByPk _ _); [|by left].
    destruct (match truthy _ with Some _ => _ | None => _ end); [|by right].
    rewrite Hthrows by done. by right.
  - intros name model c descr Hname Hn Hmodel Hm Hdescr Hd Hc [d Hfound].
    unfold create_product.
    rewrite Hname, Hmodel, Hdescr, Hc, !check_notEmpty by done.
    simpl. rewrite Hfound.
    destruct (match truthy _ with Some _ => _ | None => _ end); [|done].
    by rewrite Hthrows.
Qed.

Lemma create_product_never_stores_witness :
  create_product demo 2 (incoming None 0 new_watch 50) shop
  = (server_error, shop).
Proof.
  apply (proj2 (proj2 (create_product_never_stores demo 2
                         (incoming None 0 new_watch 50) shop))
           "Digital Watch 2001" "2001" 1 "A new digital watch");
    try reflexivity; try discriminate.
  exists digital_watches. reflexivity.
Defined.

Lemma unlink_loop_elem (public : string → string) (images : list ProductImage)
    (fs : gset string) (f : string) :
  f ∈ foldl (λ fs i, unlink_if_exists (public (product_image_url i)) fs)
        fs images
  ↔ f ∈ fs ∧ ∀ i, i ∈ images → f ≠ public (product_image_url i).
Proof.
  revert fs. induction images as [|i images IH]; intros fs; simpl.
  - split; [intros Hf; split; [done|]; by intros i ?%elem_of_nil | tauto].
  - rewrite IH, unlink_if_exists_others. split.
    + intros [[Hf Hi] Hrest]. split; [done|].
      intros j [->|Hj]%elem_of_cons; auto.
    + intros [Hf Hall]. split; [split; [done|]|].
      * apply Hall. by left.
      * intros j Hj. apply Hall. by right.
Qed.

(** X14. Deleting a product that exists answers with the acknowledgment.
    Afterwards the product is not found, no image row of it is left, the
    image rows of other products and the other products are as before, and
    a path is on disk exactly when it was on disk and is not the path of
    one of the deleted product's images. So the file of another product's
    image that shares its path with an image of the deleted product is
    not on disk any more. *)
Theorem deleted_product_takes_its_files (P : Platform) (req : Request unit)
    (s : Store) (p : Product) :
  Product_findByPk (params_id req) (products s) = Some p →
  (delete_product P req s).1 = product_deleted
  ∧ Product_findByPk (params_id req) (products (delete_product P req s).2)
    = None
  ∧ (∀ id, id ≠ params_id req →
       Product_findByPk id (products (delete_product P req s).2)
       = Product_findByPk id (products s))
  ∧ (∀ i, i ∈ product_images (delete_product P req s).2 ↔
          (i ∈ product_images s ∧ image_product_id i ≠ product_id p))
  ∧ (∀ f, f ∈ files (delete_product P req s).2 ↔
          (f ∈ files s
           ∧ (∀ i, i ∈ product_images s →
                   image_product_id i = product_id p →
                   f ≠ public_path P (product_image_url i))))
  ∧ (∀ i j, i ∈ product_images s → image_product_id i = product_id p →
            j ∈ product_images (delete_product P req s).2 →
            product_image_url j = product_image_url i →
            public_path P (product_image_url j)
            ∉ files (delete_product P req s).2).
Proof.
  intros Hfind.
  assert (product_id p = params_id req) as Hid.
  { unfold Product_findByPk in Hfind.
    apply find_some in Hfind as [_ ?]. lia. }
  assert (∀ f, f ∈ unlink_images (public_path P)
                     (filter (λ i, of_product (product_id p) i)
                        (product_images s)) (files s)
               ↔ f ∈ files s
                 ∧ (∀ i, i ∈ product_images s →
                         image_product_id i = product_id p →
                         f ≠ public_path P (product_image_url i)))
    as Hfiles.
  { intros f. unfold unlink_images. rewrite unlink_loop_elem.
    split; intros [Hf Hall]; (split; [done|]).
    - intros i Hi Hp. apply Hall. apply list_elem_of_filter. split; [|done].
      unfold of_product. apply Is_true_true. lia.
    - intros i [Hp Hi]%list_elem_of_filter. apply Hall; [done|].
      unfold of_product in Hp. apply Is_true_true in Hp. lia. }
  unfold delete_product. rewrite Hfind. cbn [fst snd].
  split; [done|]. simpl. rewrite <- Hid.
  split; [apply (find_destroy_same product_id)|].
  split; [intros id Hne; by apply (find_destroy_other product_id)|].
  split; [|split; [exact Hfiles|]].
  - intros i. rewrite list_elem_of_filter. unfold of_product.
    destruct (Z.eqb_spec (image_product_id i) (product_id p)); simpl;
      split; intros [H1 H2]; (split; [|done]); tauto.
  - intros i j Hi Hp Hj Hurl Hdisk. apply Hfiles in Hdisk as [_ Hall].
    apply (Hall i Hi Hp). by rewrite Hurl.
Qed.

Lemma deleted_product_takes_its_files_witness :
  Product_findByPk 1
    (products (delete_product demo (incoming None 1 () 50) shop_with_image).2)
  = None
  ∧ "/srv/public/images/placeholder.jpg"
    ∉ files (delete_product demo (incoming None 1 () 50) shop_with_image).2.
Proof.
  destruct (deleted_product_takes_its_files demo (incoming None 1 () 50)
              shop_with_image watch_1894 eq_refl)
    as (_ & Hgone & _ & _ & Hfiles & _).
  split; [exact Hgone|].
  intros Hdisk. apply Hfiles in Hdisk as [_ Hall].
  apply (Hall front_view); [|reflexivity|reflexivity].
  apply list_elem_of_In. left. reflexivity.
Defined.

Lemma new_images_urls product replacing first seq names :
  product_image_url <$> new_images product replacing first seq names
  = (λ f, "/uploads/products/" +:+ f) <$> names.
Proof.
  revert first seq. induction names as [|f names IH]; intros first seq;
    simpl; [done|]. by rewrite IH.
Qed.

Lemma new_images_owner product replacing first seq names i :
  i ∈ new_images product replacing first seq names →
  image_product_id i = product.
Proof.
  revert first seq. induction names as [|f names IH]; intros first seq; simpl.
  - by intros ?%elem_of_nil.
  - intros [->|Hin]%elem_of_cons; [done|]. by apply (IH false (seq + 1)).
Qed.

Lemma new_images_rest_secondary product replacing seq names :
  is_primary <$> new_images product replacing false seq names
  = replicate (length names) false.
Proof.
  revert seq. induction names as [|f names IH]; intros seq; simpl; [done|].
  by rewrite IH.
Qed.

Lemma new_images_primaries product replacing seq f names :
  is_primary <$> new_images product replacing true seq (f :: names)
  = replacing :: replicate (length names) false.
Proof. simpl. by rewrite new_images_rest_secondary. Qed.

Lemma filter_of_product_others (id : Z) (images : list ProductImage) :
  filter (λ i, of_product id i)
    (filter (λ i, ¬ of_product id i) images) = [].
Proof.
  induction images as [|i images IH]; [done|].
  rewrite (filter_cons (λ i, ¬ of_product id i)).
  destruct (decide (¬ of_product id i)) as [Hi|Hi]; [|done].
  rewrite filter_cons. by destruct (decide (of_product id i)).
Qed.

Lemma filter_of_product_own (id : Z) (images : list ProductImage) :
  (∀ i, i ∈ images → image_product_id i = id) →
  filter (λ i, of_product id i) images = images.
Proof.
  induction images as [|i images IH]; intros Hall; [done|].
  rewrite filter_cons. destruct (decide (of_product id i)) as [Hi|Hi].
  - rewrite IH; [done|]. intros j Hj. apply Hall. by right.
  - destruct Hi. unfold of_product. apply Is_true_true.
    apply Z.eqb_eq, Hall. by left.
Qed.

Lemma update_product_image_step (P : Platform) (req : Request ProductBody)
    (s : Store) :
  status (update_product P req s).1 = 200 →
  ∃ s1, (update_product P req s).2
        = process_images P (params_id req) (payload req) s1
        ∧ product_images s1 = product_images s
        ∧ product_images_seq s1 = product_images_seq s
        ∧ files s1 = files s.
Proof.
  unfold update_product.
  destruct (Product_findByPk _ _) as [p|] eqn:Hfind; [|done].
  assert (product_id p = params_id req) as Hid.
  { unfold Product_findByPk in Hfind.
    apply find_some in Hfind as [_ ?]. lia. }
  destruct (negb _); [done|].
  destruct (match truthy (form_specifications (payload req)) with
            | Some text => Some <$> JSON_parse P text
            | None => Some (specifications p)
            end) as [specs|]; [|done].
  intros _. rewrite Hid.
  exists (set_products
            (Product_save (updated_product (payload req) specs (now req) p)
               (products s)) s).
  clear Hfind. split; [by destruct (Product_findByPk _ _)|]. done.
Qed.

(** X15. The image step of a product update that is answered 200. The
    image rows of other products never change. Without uploaded files the
    image rows and the files on disk stay as they are. With files and
    [replace_images] equal to 'true', the product's image rows afterwards
    are exactly one row per uploaded file, in order, under
    /uploads/products/, the first one primary and no other, and a path is
    on disk exactly when it was and is not the path of one of the product's
    former images. With files and any other [replace_images], the former
    rows stay, one row per file is appended, none of them primary, and no
    file is removed. *)
Theorem product_upload_replaces_or_appends (P : Platform)
    (req : Request ProductBody) (s : Store) :
  status (update_product P req s).1 = 200 →
  (∀ i, image_product_id i ≠ params_id req →
        i ∈ product_images (update_product P req s).2
        ↔ i ∈ product_images s)
  ∧ (uploaded (payload req) = [] →
       product_images (update_product P req s).2 = product_images s
       ∧ files (update_product P req s).2 = files s)
  ∧ (∀ f names,
       uploaded (payload req) = f :: names →
       form_replace_images (payload req) = Some "true" →
       ∃ added,
         filter (λ i, of_product (params_id req) i)
           (product_images (update_product P req s).2) = added
         ∧ product_image_url <$> added
           = (λ f, "/uploads/products/" +:+ f) <$> f :: names
         ∧ is_primary <$> added = true :: replicate (length names) false
         ∧ (∀ g, g ∈ files (update_product P req s).2 ↔
                 (g ∈ files s
                  ∧ (∀ i, i ∈ product_images s →
                          image_product_id i = params_id req →
                          g ≠ public_path P (product_image_url i)))))
  ∧ (∀ f names,
       uploaded (payload req) = f :: names →
       form_replace_images (payload req) ≠ Some "true" →
       files (update_product P req s).2 = files s
       ∧ ∃ added,
           product_images (update_product P req s).2
           = (product_images s ++ added)%list
           ∧ (∀ i, i ∈ added → image_product_id i = params_id req)
           ∧ product_image_url <$> added
             = (λ f, "/uploads/products/" +:+ f) <$> f :: names
           ∧ is_primary <$> added = replicate (S (length names)) false).
Proof.
  intros Hok.
  destruct (update_product_image_step P req s Hok)
    as (s1 & -> & Himages & Hseq & Hfiles).
  unfold process_images. rewrite Himages, Hfiles.
  split; [|split; [|split]].
  - intros i Hne. destruct (uploaded (payload req)) as [|f names];
      [by rewrite Himages|].
    destruct (bool_decide _);
      cbn [product_images files set_product_images set_files].
    + rewrite elem_of_app, list_elem_of_filter. split.
      * intros [[_ ?]|Hnew]; [done|].
        by apply new_images_owner in Hnew.
      * intros Hi. left. split; [|done]. unfold of_product.
        intros Heq%Is_true_true. lia.
    + rewrite elem_of_app, Himages. split; [|by left].
      intros [?|Hnew]; [done|]. by apply new_images_owner in Hnew.
  - intros ->. by rewrite Himages, Hfiles.
  - intros f names -> Hreplace.
    rewrite bool_decide_eq_true_2 by done.
    cbn [product_images files set_product_images set_files].
    eexists. split; [|split; [|split]].
    + rewrite filter_app, filter_of_product_others. simpl.
      apply filter_of_product_own. intros i [->|Hi]%elem_of_cons; [done|].
      by apply new_images_owner in Hi.
    + by rewrite <- (new_images_urls (params_id req) true true
                       (product_images_seq s1) (f :: names)).
    + by rewrite <- (new_images_primaries (params_id req) true
                       (product_images_seq s1) f names).
    + intros g. rewrite unlink_loop_elem. split; intros [Hg Hall];
        (split; [done|]).
      * intros i Hi Hp. apply Hall. apply list_elem_of_filter.
        split; [|done]. unfold of_product. apply Is_true_true. lia.
      * intros i [Hp Hi]%list_elem_of_filter. apply Hall; [done|].
        unfold of_product in Hp. apply Is_true_true in Hp. lia.
  - intros f names -> Hreplace.
    rewrite bool_decide_eq_false_2 by done.
    cbn [product_images files set_product_images set_files].
    split; [done|]. rewrite Himages. eexists. split; [done|].
    split; [|split].
    + intros i [->|Hi]%elem_of_cons; [done|].
      by apply new_images_owner in Hi.
    + by rewrite <- (new_images_urls (params_id req) false true
                       (product_images_seq s1) (f :: names)).
    + exact (new_images_primaries (params_id req) false
               (product_images_seq s1) f names).
Qed.

Lemma product_upload_replaces_or_appends_witness :
  product_image_url
  <$> filter (λ i, of_product 1 i)
        (product_images
           (update_product demo
              (incoming None 1 (two_new_pictures (Some "true")) 500)
              shop_with_image).2)
  = ["/uploads/products/product-7.png"; "/uploads/products/product-8.png"].
Proof.
  destruct (product_upload_replaces_or_appends demo
              (incoming None 1 (two_new_pictures (Some "true")) 500)
              shop_with_image eq_refl)
    as (_ & _ & Hreplace & _).
  destruct (Hreplace "product-7.png" ["product-8.png"] eq_refl eq_refl)
    as (added & Hadded & Hurls & _).
  change (params_id
            (incoming None 1 (two_new_pictures (Some "true")) 500))
    with 1 in Hadded.
  rewrite Hadded. exact Hurls.
Defined.

(** ** Listings *)

Lemma insert_by_perm {A} (le : A → A → bool) x (l : list A) :
  insert_by le x l ≡ₚ x :: l.
Proof.
  induction l as [|y l IH]; simpl; [done|].
  destruct (le x y); [done|]. rewrite IH. apply Permutation_swap.
Qed.

Lemma order_by_perm {A} (le : A → A → bool) (l : list A) :
  order_by le l ≡ₚ l.
Proof.
  induction l as [|x l IH]; simpl; [done|].
  by rewrite insert_by_perm, IH.
Qed.

Lemma in_order_cons {A} (le : A → A → bool) x (l : list A) :
  in_order le (x :: l)
  ↔ match l with [] => True | y :: _ => le x y = true end ∧ in_order le l.
Proof.
  unfold in_order. split.
  - intros Hall. split.
    + destruct l as [|y l]; [done|]. by apply (Hall 0%nat).
    + intros i a b Ha Hb. by apply (Hall (S i)).
  - intros [Hhead Hrest] [|i] a b Ha Hb.
    + destruct l as [|y l]; simpl in *; by simplify_eq.
    + by apply (Hrest i).
Qed.

Lemma insert_by_in_order {A} (le : A → A → bool) x (l : list A) :
  (∀ a b, le a b = true ∨ le b a = true) →
  in_order le l → in_order le (insert_by le x l).
Proof.
  intros Htotal. induction l as [|y l IH]; intros Hl; simpl.
  - by apply in_order_cons.
  - destruct (le x y) eqn:Hxy; [by apply in_order_cons|].
    apply in_order_cons in Hl as [Hhead Hl].
    apply in_order_cons. split; [|by apply IH].
    destruct l as [|z l]; simpl.
    + destruct (Htotal x y); congruence.
    + destruct (le x z); [|done]. destruct (Htotal x y); congruence.
Qed.

Lemma order_by_in_order {A} (le : A → A → bool) (l : list A) :
  (∀ a b, le a b = true ∨ le b a = true) → in_order le (order_by le l).
Proof.
  intros Htotal. induction l as [|x l IH]; simpl.
  - by intros i a b ?.
  - by apply insert_by_in_order.
Qed.






Lemma demo_engine_total : collation_total demo_engine.
Proof. intros a b. apply String.leb_total. Qed.


(** X17. The message list never lists. Behind the two gates the handler
    orders by [createdAt] (and filters on [status] when asked to), columns
    that the table of the contact messages does not have: an administrator
    is answered 500 "Server error" whatever the filter, the page and the
    limit; anybody else gets one of the answers of the gates. No request
    is answered 200 and none changes the store. *)
Theorem message_list_never_lists (P : Platform) (E : Engine)
    (req : Request MessagesQuery) (s : Store) :
  (by_admin P req → GET_contact_messages P E req s = (server_error, s))
  ∧ (¬ by_admin P req →
     ∃ r, GET_contact_messages P E req s = (r, s) ∧ r ∈ turned_away)
  ∧ status (GET_contact_messages P E req s).1 ≠ 200
  ∧ (GET_contact_messages P E req s).2 = s.
Proof.
  assert (by_admin P req →
          GET_contact_messages P E req s = (server_error, s)) as Hadmin.
  { intros Hadmin. unfold GET_contact_messages.
    rewrite through_by_admin by done. apply list_messages_fails. }
  assert (¬ by_admin P req →
          ∃ r, GET_contact_messages P E req s = (r, s)
               ∧ r ∈ turned_away) as Hother.
  { intros Hno. unfold GET_contact_messages, by_admin in *. simpl.
    destruct (auth P req) as [req'|r] eqn:Hauth.
    - unfold admin in *. destruct (user req') as [c|].
      + destruct (claim_is_admin c); [by destruct Hno|].
        eexists. split; [done|]. unfold turned_away. set_solver.
      + eexists. split; [done|]. unfold turned_away. set_solver.
    - exists r. split; [done|]. unfold auth in Hauth.
      repeat case_match; simplify_eq; unfold turned_away; set_solver. }
  split; [done|]. split; [done|].
  assert (by_admin P req ∨ ¬ by_admin P req) as [Hyes|Hno].
  { unfold by_admin. destruct (auth P req) as [req'|]; [|tauto].
    destruct (admin req'); tauto. }
  - by rewrite (Hadmin Hyes).
  - destruct (Hother Hno) as (r & -> & Hr). split; [|done].
    unfold turned_away in Hr. simpl.
    repeat (apply elem_of_cons in Hr as [->|Hr]; [done|]).
    by apply elem_of_nil in Hr.
Qed.

Lemma message_list_never_lists_witness :
  GET_contact_messages demo demo_engine (as_admin 0 unread_messages 50)
    shop_with_enquiry
  = (server_error, shop_with_enquiry).
Proof.
  apply (message_list_never_lists demo demo_engine
           (as_admin 0 unread_messages 50) shop_with_enquiry).
  exact I.
Defined.

(** X18. The two listings without pages. GET /api/categories answers with
    every stored category once, names ascending in the collation of the
    database, provided that the collation compares any two names;
    GET /api/users, for an administrator, answers with every stored user
    once, newest first, each without its password. Neither changes the
    store. *)
Theorem listings_are_sorted (P : Platform) (E : Engine) (s : Store) :
  collation_total E →
  (∃ all,
     all ≡ₚ categories s
     ∧ (∀ i a b, all !! i = Some a → all !! S i = Some b →
                 text_le E (category_name a) (category_name b) = true)
     ∧ ∀ req : Request unit,
         GET_categories E req s
         = (json_ok (JObj [("success", JBool true);
                           ("categories", JArr (Category_json <$> all))]),
            s))
  ∧ (∃ all,
       all ≡ₚ users s
       ∧ (∀ i a b, all !! i = Some a → all !! S i = Some b →
                   createdAt b ≤ createdAt a)
       ∧ ∀ req : Request unit,
           by_admin P req →
           GET_users P req s
           = (json_ok
                (JObj [("success", JBool true);
                       ("users",
                        JArr ((λ u, JObj (User_fields_excluding_password u))
                              <$> all))]), s)).
Proof.
  intros Hcollation. split.
  - exists (order_by (by_name E) (categories s)).
    split; [apply order_by_perm|]. split; [|done].
    apply (order_by_in_order (by_name E)). intros a b. apply Hcollation.
  - assert (∀ a b, newest_first a b = true ∨ newest_first b a = true)
      as Htotal by (intros a b; unfold newest_first; lia).
    exists (order_by newest_first (users s)).
    split; [apply order_by_perm|]. split.
    + intros i a b Ha Hb.
      pose proof (order_by_in_order newest_first _ Htotal i a b Ha Hb) as Hle.
      unfold newest_first in Hle. lia.
    + intros req Hadmin. unfold GET_users.
      by rewrite through_by_admin.
Qed.

Lemma listings_are_sorted_witness :
  ∃ all,
    all ≡ₚ [digital_watches; smart_watches]
    ∧ (GET_categories demo_engine (incoming None 0 () 50) shop).1
      = json_ok (JObj [("success", JBool true);
                       ("categories", JArr (Category_json <$> all))]).
Proof.
  destruct (listings_are_sorted demo demo_engine shop demo_engine_total)
    as [(all & Hperm & _ & Hall) _].
  exists all. split; [exact Hperm|]. by rewrite Hall.
Defined.

(** ** From the contact form to the inbox *)

Section Fresh.
Context {A : Type} (key : A → Z).

Lemma find_fresh (k : Z) (l : list A) :
  (∀ x, x ∈ l → key x ≠ k) → find (λ v, key v =? k) l = None.
Proof.
  intros Hall. induction l as [|v l IH]; [done|]. simpl.
  assert ((key v =? k) = false) as ->.
  { apply Z.eqb_neq, Hall. by left. }
  apply IH. intros x Hx. apply Hall. by right.
Qed.

Lemma destroy_fresh (k : Z) (l : list A) :
  (∀ x, x ∈ l → key x ≠ k) → filter (λ v, key v ≠ k) l = l.
Proof.
  intros Hall. induction l as [|v l IH]; [done|].
  rewrite filter_cons. destruct (decide (key v ≠ k)) as [Hv|Hv].
  - rewrite IH; [done|]. intros x Hx. apply Hall. by right.
  - destruct Hv. apply Hall. by left.
Qed.

Lemma save_unused (x' : A) (l : list A) :
  (∀ x, x ∈ l → key x ≠ key x') →
  (λ v, if key v =? key x' then x' else v) <$> l = l.
Proof.
  intros Hall. induction l as [|v l IH]; [done|].
  rewrite fmap_cons.
  assert ((key v =? key x') = false) as ->.
  { apply Z.eqb_neq, Hall. by left. }
  rewrite IH; [done|]. intros x Hx. apply Hall. by right.
Qed.
End Fresh.

Lemma valid_enquiry_stored (P : Platform) (E : Engine)
    (req : Request ContactBody) (s : Store) (name mail subj text : string) :
  valid_enquiry P E (payload req) name mail subj text →
  POST_contact P E req s
  = (contact_acknowledged,
     set_contact_messages
       (contact_messages s
        ++ [{| message_id := contact_messages_seq s; contact_name := name;
               contact_email := mail;
               phone := truthy (form_phone (payload req));
               message := text; contact_created := now req;
               is_read := false |}])
       (contact_messages_seq s + 1) s).
Proof.
  intros (Hname & Hmail & Hsubj & Htext & Hn & Hm & Hs & Ht & Hmn & Hmm
          & Hmt & Hln & Hlm & Hlp).
  unfold POST_contact. rewrite through_nil. unfold submit_contact.
  rewrite Hname, Hmail, Hsubj, Htext, !check_notEmpty by done.
  unfold check. rewrite Hm. cbn [app].
  unfold ContactMessage_validate, ContactMessage_fits. simpl.
  rewrite Hmn, Hmm, Hmt, !bool_decide_eq_true_2 by done. simpl.
  assert (from_option (λ ph, bool_decide (String.length ph ≤ 50)%nat) true
            (truthy (form_phone (payload req))) = true) as ->; [|done].
  destruct (truthy (form_phone (payload req))) as [ph|] eqn:Hph; [|done].
  apply truthy_Some in Hph as [Hph _]. simpl.
  apply bool_decide_eq_true_2. by apply Hlp.
Qed.

(** X19. From the contact form to the inbox. After a submission that the
    validators of the route and the model of the contact messages accept,
    in a store whose message ids are below the next value of the sequence,
    a value in the range of the id column: the answer is 201; an
    administrator's view of the new message, whose id is that value, shows
    the submitted name, email and message, unread and without a subject,
    and leaves the store as it is, so that a second view answers the same;
    deleting the new message leaves the stored messages exactly as they
    were before the submission, and the id is then answered 404. *)
Theorem inbox_life_cycle (P : Platform) (E : Engine)
    (req : Request ContactBody) (s : Store) (name mail subj text : string) :
  valid_enquiry P E (payload req) name mail subj text →
  messages_wf s →
  in_INTEGER (contact_messages_seq s) = true →
  status (POST_contact P E req s).1 = 201
  ∧ messages_wf (POST_contact P E req s).2
  ∧ ∀ r : Request unit,
      params_id r = contact_messages_seq s →
      (∃ m,
         get_message r (POST_contact P E req s).2
         = (shows_message m, (POST_contact P E req s).2)
         ∧ message_id m = contact_messages_seq s
         ∧ contact_name m = name ∧ contact_email m = mail
         ∧ message m = text ∧ is_read m = false
         ∧ has_key "subject" (body (shows_message m)) = false)
      ∧ get_message r (get_message r (POST_contact P E req s).2).2
        = get_message r (POST_contact P E req s).2
      ∧ (delete_message r (POST_contact P E req s).2).1 = message_deleted
      ∧ contact_messages (delete_message r (POST_contact P E req s).2).2
        = contact_messages s
      ∧ (get_message r (delete_message r (POST_contact P E req s).2).2).1
        = failure 404 "Message not found".
Proof.
  intros Hvalid Hwf Hrange.
  rewrite (valid_enquiry_stored P E req s name mail subj text Hvalid).
  cbn [fst snd].
  set (m := {| message_id := contact_messages_seq s; contact_name := name;
               contact_email := mail;
               phone := truthy (form_phone (payload req));
               message := text; contact_created := now req;
               is_read := false |}).
  assert (∀ x, x ∈ contact_messages s → message_id x ≠ message_id m)
    as Hfresh by (intros x Hx%Hwf; simpl; lia).
  split; [done|]. split.
  - intros x. simpl.
    intros [Hx%Hwf|Hx%list_elem_of_singleton]%elem_of_app;
      [lia | subst x; simpl; lia].
  - intros r Hr.
    assert (ContactMessage_findByPk (params_id r)
              (contact_messages s ++ [m]) = Some m) as Hfind.
    { unfold ContactMessage_findByPk.
      rewrite find_app_None
        by (apply (find_fresh message_id); by rewrite Hr).
      simpl. by rewrite Hr, Z.eqb_refl. }
    assert (∀ s', contact_messages s' = (contact_messages s ++ [m])%list →
                  get_message r s' = (shows_message m, s')) as Hview.
    { intros s' Hs'. unfold get_message.
      rewrite Hr, Hrange, Hs', <- Hr, Hfind. cbn [negb].
      by destruct (bool_decide _). }
    set (s1 := set_contact_messages (contact_messages s ++ [m])
                 (contact_messages_seq s + 1) s).
    assert (contact_messages s1 = (contact_messages s ++ [m])%list) as Hs1
      by reflexivity.
    rewrite (Hview s1 Hs1). cbn [snd]. rewrite (Hview s1 Hs1).
    split.
    { exists m. do 6 (split; [done|]).
      cbn [body shows_message json_ok]. unfold ContactMessage_json. simpl.
      by destruct (truthy (form_phone (payload req))). }
    split; [done|].
    unfold delete_message, s1.
    cbn [contact_messages contact_messages_seq set_contact_messages].
    rewrite Hr, Hrange, <- Hr, Hfind.
    cbn [negb fst snd contact_messages set_contact_messages].
    assert (ContactMessage_destroy m (contact_messages s ++ [m])
            = contact_messages s) as ->.
    { unfold ContactMessage_destroy. rewrite filter_app.
      rewrite (destroy_fresh message_id) by done.
      rewrite filter_cons. simpl.
      destruct (decide _) as [Hne|_]; [done|]. by rewrite app_nil_r. }
    split; [done|]. split; [done|].
    unfold get_message.
    cbn [contact_messages set_contact_messages].
    rewrite Hr, Hrange. cbn [negb]. unfold ContactMessage_findByPk.
    rewrite (find_fresh message_id); [done|].
    intros x Hx. by apply Hfresh.
Qed.

Lemma inbox_life_cycle_witness :
  status (POST_contact demo demo_engine (incoming None 0 enquiry 50) shop).1
  = 201
  ∧ contact_messages
      (delete_message (incoming None 1 () 60)
         (POST_contact demo demo_engine (incoming None 0 enquiry 50) shop).2).2
    = [].
Proof.
  assert (valid_enquiry demo demo_engine
            (payload (incoming None 0 enquiry 50))
            "Lan" "lan@example.com" "Strap" "Do you sell spare straps?")
    as Hvalid.
  { do 13 (split; [first [reflexivity | discriminate | simpl; lia]|]).
    intros ph. discriminate. }
  assert (messages_wf shop) as Hwf by (by intros m ?%elem_of_nil).
  destruct (inbox_life_cycle demo demo_engine (incoming None 0 enquiry 50)
              shop _ _ _ _ Hvalid Hwf eq_refl) as (Hok & _ & Hview).
  split; [exact Hok|].
  exact (proj1 (proj2 (proj2 (proj2 (Hview (incoming None 1 () 60)
                                       eq_refl))))).
Defined.

(** ** The life of a category *)

Lemma find_string_fresh {A} (f : A → string) (y : string) (l : list A) :
  y ∉ f <$> l → find (λ v, String.eqb (f v) y) l = None.
Proof.
  intros Hno. destruct (find _ l) as [u|] eqn:Hfind; [|done].
  apply find_some in Hfind as [Hin Heq%String.eqb_eq].
  destruct Hno. rewrite <- Heq. apply list_elem_of_fmap_2.
  by apply list_elem_of_In.
Qed.

(** X20. The life of a category. A creation with a non-empty name, a
    non-empty slug that no category has, and an id that no category has,
    answers 201 with the new category, whose id, name and slug are the
    given ones. Afterwards the category is served under its id; a second
    creation with the same form is refused with 400 for any id and stores
    nothing; and if no product refers to the category, deleting it succeeds,
    leaves the stored categories exactly as before the creation, and the
    category is then answered 404. *)
Theorem category_life_cycle (P : Platform) (key : Z)
    (req : Request CategoryBody) (s : Store) (name slug : string) :
  form_category_name (payload req) = Some name → name ≠ "" →
  form_category_slug (payload req) = Some slug → slug ≠ "" →
  key ∉ category_id <$> categories s →
  slug ∉ category_slug <$> categories s →
  ∃ c,
    category_id c = key ∧ category_name c = name ∧ category_slug c = slug
    ∧ (create_category key req s).1
      = {| status := 201; body := shows_category c |}
    ∧ (∀ r : Request unit,
         params_id r = key →
         get_category r (create_category key req s).2
         = (json_ok (shows_category c), (create_category key req s).2))
    ∧ (∀ key',
         create_category key' req (create_category key req s).2
         = (slug_exists, (create_category key req s).2))
    ∧ (∀ r : Request unit,
         params_id r = key →
         count (in_category key) (products s) = 0 →
         (delete_category P r (create_category key req s).2).1
         = category_deleted
         ∧ categories (delete_category P r (create_category key req s).2).2
           = categories s
         ∧ get_category r
             (delete_category P r (create_category key req s).2).2
           = (failure 404 "Category not found",
              (delete_category P r (create_category key req s).2).2)).
Proof.
  intros Hname Hn Hslug Hs Hkey Hfree.
  assert (∀ s', create_category key req s'
                = match Category_findOne_slug slug (categories s') with
                  | Some _ => (slug_exists, s')
                  | None =>
                      let category :=
                        {| category_id := key; category_name := name;
                           category_slug := slug;
                           category_description :=
                             truthy (form_category_description (payload req));
                           image_url :=
                             category_upload <$> category_file (payload req)
                        |} in
                      ({| status := 201; body := shows_category category |},
                       set_categories (categories s' ++ [category]) s')
                  end) as Hcreate.
  { intros s'. unfold create_category.
    by rewrite Hname, Hslug, !check_notEmpty by done. }
  set (c := {| category_id := key; category_name := name;
               category_slug := slug;
               category_description :=
                 truthy (form_category_description (payload req));
               image_url :=
                 category_upload <$> category_file (payload req) |}).
  assert (create_category key req s
          = ({| status := 201; body := shows_category c |},
             set_categories (categories s ++ [c]) s)) as Hnew.
  { rewrite Hcreate. unfold Category_findOne_slug.
    by rewrite (find_string_fresh category_slug). }
  assert (∀ x, x ∈ categories s → category_id x ≠ key) as Hfresh.
  { intros x Hx Heq. apply Hkey. rewrite <- Heq.
    by apply list_elem_of_fmap_2. }
  assert (∀ r : Request unit, params_id r = key →
            Category_findByPk (params_id r) (categories s ++ [c]) = Some c)
    as Hfind.
  { intros r ->. unfold Category_findByPk.
    rewrite find_app_None by (by apply (find_fresh category_id)).
    simpl. by rewrite Z.eqb_refl. }
  exists c. rewrite Hnew. cbn [fst snd].
  split; [done|]. split; [done|]. split; [done|]. split; [done|].
  split; [|split].
  - intros r Hr. unfold get_category. simpl. by rewrite (Hfind r Hr).
  - intros key'. unfold create_category.
    rewrite Hname, Hslug, !check_notEmpty by done. simpl.
    unfold Category_findOne_slug.
    destruct (find_string_Some category_slug slug (categories s ++ [c]) c)
      as [d Hd]; [|done|by rewrite Hd].
    apply elem_of_app. right. by apply list_elem_of_singleton.
  - intros r Hr Hnone.
    assert (Category_destroy c (categories s ++ [c]) = categories s)
      as Hgone.
    { unfold Category_destroy. rewrite filter_app.
      rewrite (destroy_fresh category_id) by done.
      rewrite filter_cons. simpl.
      destruct (decide _) as [Hne|_]; [done|]. by rewrite app_nil_r. }
    unfold delete_category. cbn [categories products set_categories].
    rewrite (Hfind r Hr).
    change (category_id c) with key. rewrite Hnone.
    cbn [fst snd Z.ltb Z.compare]. rewrite Hgone.
    split; [done|]. split; [done|].
    unfold get_category. cbn [categories set_categories set_files].
    unfold Category_findByPk. rewrite Hr.
    by rewrite (find_fresh category_id).
Qed.

Lemma category_life_cycle_witness :
  status (create_category 3 (incoming None 0 kids_watches 50) shop).1 = 201
  ∧ categories
      (delete_category demo (incoming None 3 () 60)
         (create_category 3 (incoming None 0 kids_watches 50) shop).2).2
    = categories shop.
Proof.
  destruct (category_life_cycle demo 3 (incoming None 0 kids_watches 50)
              shop "Kids Watch" "kids-watch" eq_refl ltac:(discriminate)
              eq_refl ltac:(discriminate))
    as (c & _ & _ & _ & Hcreated & _ & _ & Hdelete).
  - apply (bool_decide_unpack (3 ∉ category_id <$> categories shop)).
    vm_compute. exact I.
  - apply (bool_decide_unpack
             ("kids-watch" ∉ category_slug <$> categories shop)).
    vm_compute. exact I.
  - split; [by rewrite Hcreated|].
    apply (Hdelete (incoming None 3 () 60) eq_refl). reflexivity.
Defined.

(** ** Seeding *)

Lemma count_all_zero {A} (l : list A) :
  (count (λ _, true) l =? 0) = true ↔ l = [].
Proof.
  destruct l as [|x l]; [done|]. rewrite count_cons.
  pose proof (count_nonneg (λ _ : A, true) l). split; [|done].
  intros ?%Z.eqb_eq. lia.
Qed.

Lemma count_all_pos {A} (l : list A) :
  l ≠ [] → (count (λ _, true) l =? 0) = false.
Proof.
  intros Hne. destruct (count _ l =? 0) eqn:E; [|done].
  by apply count_all_zero in E.
Qed.

Lemma create_seeded_products_new (stringify : json → string) (pk t : Z)
    (map : string → option Z) (s : Store) :
  products s = [] →
  ∃ s1,
    create_seeded_products pk t (seeded_products stringify map) s = Some s1
    ∧ users s1 = users s ∧ users_seq s1 = users_seq s
    ∧ categories s1 = categories s
    ∧ contact_messages s1 = contact_messages s ∧ files s1 = files s
    ∧ product_id <$> products s1 = [pk; pk + 1; pk + 1 + 1]
    ∧ product_slug <$> products s1
      = ["digital-watch-1894"; "quartz-watch-1961"; "lady-watch-9222"]
    ∧ product_category_id <$> products s1
      = [map "digital-watch"; map "quartz-watch"; map "lady-watch"]
    ∧ product_images s1
      = (product_images s
         ++ [placeholder (product_images_seq s) pk;
             placeholder (product_images_seq s + 1) (pk + 1);
             placeholder (product_images_seq s + 1 + 1) (pk + 1 + 1)])%list.
Proof.
  destruct s as [us useq cs ps imgs iseq ms mseq fs]. simpl. intros ->.
  eexists. split; [cbn -[lines]; reflexivity|].
  cbn -[lines]. rewrite <- !app_assoc. done.
Qed.

Lemma seedDatabase_steps (P : Platform) (stringify : json → string)
    (ck pk t : Z) (s : Store) :
  ∃ s1,
    seedDatabase P stringify ck pk t s = Some s1
    ∧ users s1
      = (if bool_decide (users s = [])
         then [User_create P (users_seq s) "admin" "admin@example.com"
                 "admin123" true t]
         else users s)
    ∧ categories s1
      = (if bool_decide (categories s = [])
         then Category_bulkCreate ck seeded_categories
         else categories s)
    ∧ (products s ≠ [] →
       products s1 = products s ∧ product_images s1 = product_images s)
    ∧ (products s = [] →
       product_id <$> products s1 = [pk; pk + 1; pk + 1 + 1]
       ∧ product_slug <$> products s1
         = ["digital-watch-1894"; "quartz-watch-1961"; "lady-watch-9222"]
       ∧ product_category_id <$> products s1
         = [categoryMap (categories s1) "digital-watch";
            categoryMap (categories s1) "quartz-watch";
            categoryMap (categories s1) "lady-watch"]
       ∧ product_images s1
         = (product_images s
            ++ [placeholder (product_images_seq s) pk;
                placeholder (product_images_seq s + 1) (pk + 1);
                placeholder (product_images_seq s + 1 + 1)
                  (pk + 1 + 1)])%list)
    ∧ contact_messages s1 = contact_messages s ∧ files s1 = files s.
Proof.
  unfold seedDatabase.
  set (s1 := if count (λ _, true) (users s) =? 0
             then set_users
                    (users s ++ [User_create P (users_seq s) "admin"
                                   "admin@example.com" "admin123" true t])
                    (users_seq s + 1) s
             else s).
  set (s2 := if count (λ _, true) (categories s1) =? 0
             then set_categories
                    (categories s1
                     ++ Category_bulkCreate ck seeded_categories) s1
             else s1).
  assert (users s1 = (if bool_decide (users s = [])
                      then [User_create P (users_seq s) "admin"
                              "admin@example.com" "admin123" true t]
                      else users s)
          ∧ categories s1 = categories s ∧ products s1 = products s
          ∧ product_images s1 = product_images s
          ∧ product_images_seq s1 = product_images_seq s
          ∧ contact_messages s1 = contact_messages s ∧ files s1 = files s)
    as (Hu1 & Hc1 & Hp1 & Hi1 & Hq1 & Hm1 & Hf1).
  { unfold s1. destruct (decide (users s = [])) as [Hus|Hus].
    - rewrite bool_decide_eq_true_2 by done.
      rewrite (proj2 (count_all_zero (users s)) Hus). simpl.
      by rewrite Hus.
    - rewrite bool_decide_eq_false_2 by done. by rewrite count_all_pos. }
  assert (users s2 = users s1
          ∧ categories s2
            = (if bool_decide (categories s = [])
               then Category_bulkCreate ck seeded_categories
               else categories s)
          ∧ products s2 = products s
          ∧ product_images s2 = product_images s
          ∧ product_images_seq s2 = product_images_seq s
          ∧ contact_messages s2 = contact_messages s ∧ files s2 = files s)
    as (Hu2 & Hc2 & Hp2 & Hi2 & Hq2 & Hm2 & Hf2).
  { unfold s2. rewrite Hc1. destruct (decide (categories s = [])) as [Hcs|Hcs].
    - rewrite bool_decide_eq_true_2 by done.
      rewrite (proj2 (count_all_zero (categories s)) Hcs).
      cbn [users categories products product_images product_images_seq
           contact_messages files set_categories].
      by rewrite Hcs.
    - rewrite bool_decide_eq_false_2 by done. by rewrite count_all_pos. }
  clearbody s1 s2. rewrite Hp2.
  destruct (products s) as [|p ps] eqn:Hps.
  - rewrite (proj2 (count_all_zero [])) by done.
    destruct (create_seeded_products_new stringify pk t
                (categoryMap (categories s2)) s2 Hp2)
      as (s3 & -> & Hu3 & _ & Hc3 & Hm3 & Hf3 & Hids & Hslugs & Hcats
          & Himgs).
    exists s3. split; [done|].
    rewrite Hu3, Hu2, Hc3, Hm3, Hf3, Hids, Hslugs, Hcats, Himgs, Hi2, Hq2.
    done.
  - rewrite count_all_pos by done. exists s2. split; [done|].
    rewrite Hu2, Hp2, Hi2. done.
Qed.

(** X21. Seeding fills the tables that are empty and only those. It
    always completes. A table of users, categories or products that has a
    row keeps exactly its rows (and with the products their images);
    messages and files are never touched. After seeding none of the three
    tables is empty, so seeding a second time, at any time and with any
    ids on offer, changes nothing. *)
Theorem seeding_fills_empty_tables (P : Platform)
    (stringify : json → string) (ck pk t : Z) (s : Store) :
  ∃ s1,
    seedDatabase P stringify ck pk t s = Some s1
    ∧ (users s ≠ [] → users s1 = users s)
    ∧ (categories s ≠ [] → categories s1 = categories s)
    ∧ (products s ≠ [] →
       products s1 = products s ∧ product_images s1 = product_images s)
    ∧ contact_messages s1 = contact_messages s ∧ files s1 = files s
    ∧ users s1 ≠ [] ∧ categories s1 ≠ [] ∧ products s1 ≠ []
    ∧ (∀ ck' pk' t', seedDatabase P stringify ck' pk' t' s1 = Some s1).
Proof.
  destruct (seedDatabase_steps P stringify ck pk t s)
    as (s1 & Hseed & Hu & Hc & Hkeep & Hnew & Hm & Hf).
  assert (users s1 ≠ []) as Hu1.
  { rewrite Hu. by destruct (bool_decide_reflect (users s = [])). }
  assert (categories s1 ≠ []) as Hc1.
  { rewrite Hc. by destruct (bool_decide_reflect (categories s = [])). }
  assert (products s1 ≠ []) as Hp1.
  { destruct (products s) as [|p ps] eqn:Hps.
    - destruct (Hnew eq_refl) as (Hids & _). intros Hnil.
      by rewrite Hnil in Hids.
    - destruct Hkeep as [-> _]; done. }
  exists s1. split; [done|].
  split; [intros Hne; rewrite Hu; by rewrite bool_decide_eq_false_2|].
  split; [intros Hne; rewrite Hc; by rewrite bool_decide_eq_false_2|].
  split; [done|]. split; [done|]. split; [done|].
  split; [done|]. split; [done|]. split; [done|].
  intros ck' pk' t'. unfold seedDatabase.
  rewrite (count_all_pos (users s1)) by done.
  rewrite (count_all_pos (categories s1)) by done.
  by rewrite (count_all_pos (products s1)).
Qed.

Lemma seeding_fills_empty_tables_witness :
  ∃ s1,
    seedDatabase demo (λ _, "{}") 1 1 0 shop_without_admin = Some s1
    ∧ users s1 = [ordinary_user]
    ∧ seedDatabase demo (λ _, "{}") 9 4 100 s1 = Some s1.
Proof.
  destruct (seeding_fills_empty_tables demo (λ _, "{}") 1 1 0
              shop_without_admin)
    as (s1 & Hseed & Husers & _ & _ & _ & _ & _ & _ & _ & Hagain).
  exists s1. split; [exact Hseed|].
  split; [apply Husers; discriminate | apply Hagain].
Defined.

(** X22. Who can sign in after seeding. If the users table was empty,
    the account admin / admin123 exists afterwards, is an administrator
    and, given a hash that verifies, logs in. If the table had any row,
    seeding adds no account: a shop whose users are all ordinary has no
    administrator after seeding either. *)
Theorem seeded_admin_logs_in (P : Platform) (stringify : json → string)
    (ck pk t : Z) (s s1 : Store) :
  hash_verifies P →
  seedDatabase P stringify ck pk t s = Some s1 →
  (users s = [] →
   ∀ lreq : Request LoginBody,
     payload lreq = admin_login →
     ∃ token u,
       login P lreq s1 = (logged_in token u, s1)
       ∧ users s1 = [u] ∧ username u = "admin" ∧ is_admin u = true)
  ∧ (users s ≠ [] → users s1 = users s ∧ admin_count s1 = admin_count s).
Proof.
  intros Hhash Hseed.
  destruct (seedDatabase_steps P stringify ck pk t s)
    as (s1' & Hseed' & Hu & _).
  rewrite Hseed in Hseed'. injection Hseed' as <-. split.
  - intros Hnone lreq Hbody.
    rewrite bool_decide_eq_true_2 in Hu by done.
    eexists _, _. split; [|split; [exact Hu|done]].
    apply (login_finds P lreq s1
             (User_create P (users_seq s) "admin" "admin@example.com"
                "admin123" true t) "admin123"); try done.
    unfold User_findOne_username. by rewrite Hu.
  - intros Hsome. rewrite bool_decide_eq_false_2 in Hu by done.
    unfold admin_count. by rewrite Hu.
Qed.

Lemma seeded_admin_logs_in_witness :
  ∃ s1,
    seedDatabase demo (λ _, "{}") 1 1 0 shop_without_admin = Some s1
    ∧ admin_count s1 = 0.
Proof.
  assert (hash_verifies demo) as Hhash.
  { intros pw. apply String.eqb_refl. }
  destruct (seedDatabase_steps demo (λ _, "{}") 1 1 0 shop_without_admin)
    as (s1 & Hseed & _).
  exists s1. split; [exact Hseed|].
  destruct (seeded_admin_logs_in demo (λ _, "{}") 1 1 0 shop_without_admin
              s1 Hhash Hseed) as [_ Hkept].
  rewrite (proj2 (Hkept ltac:(discriminate))). reflexivity.
Defined.

(** X23. Seeded products find their categories by slug. When the
    products table is empty, seeding stores three products with the ids
    the sequence offers, each with one primary image at the placeholder
    path. Each product's category is the id of the stored category that has
    the slug digital-watch, quartz-watch or lady-watch: with an empty
    categories table these are the first three seeded categories, and in a
    shop whose categories have other slugs the three products have no
    category. *)
Theorem seeded_products_find_categories (P : Platform)
    (stringify : json → string) (ck pk t : Z) (s s1 : Store) :
  seedDatabase P stringify ck pk t s = Some s1 →
  products s = [] →
  product_id <$> products s1 = [pk; pk + 1; pk + 1 + 1]
  ∧ product_images s1
    = (product_images s
       ++ [placeholder (product_images_seq s) pk;
           placeholder (product_images_seq s + 1) (pk + 1);
           placeholder (product_images_seq s + 1 + 1) (pk + 1 + 1)])%list
  ∧ product_category_id <$> products s1
    = [categoryMap (categories s1) "digital-watch";
       categoryMap (categories s1) "quartz-watch";
       categoryMap (categories s1) "lady-watch"]
  ∧ (categories s = [] →
     product_category_id <$> products s1
     = [Some ck; Some (ck + 1); Some (ck + 1 + 1)]
     ∧ ∀ p, p ∈ products s1 →
            ∃ c, product_category_id p = Some c
                 ∧ is_Some (Category_findByPk c (categories s1)))
  ∧ (categories s ≠ [] →
     (∀ c, c ∈ categories s →
           category_slug c ∉ ["digital-watch"; "quartz-watch"; "lady-watch"])
     → product_category_id <$> products s1 = [None; None; None]).
Proof.
  intros Hseed Hnone.
  destruct (seedDatabase_steps P stringify ck pk t s)
    as (s1' & Hseed' & _ & Hc & _ & Hnew & _).
  rewrite Hseed in Hseed'. injection Hseed' as <-.
  destruct (Hnew Hnone) as (Hids & _ & Hcats & Himgs).
  split; [done|]. split; [done|]. split; [done|]. split.
  - intros Hempty. rewrite bool_decide_eq_true_2 in Hc by done.
    assert (product_category_id <$> products s1
            = [Some ck; Some (ck + 1); Some (ck + 1 + 1)]) as Hlinked.
    { rewrite Hcats, Hc. reflexivity. }
    split; [done|].
    intros p Hp.
    assert (product_category_id p ∈ product_category_id <$> products s1)
      as Hin by (by apply list_elem_of_fmap_2).
    rewrite Hlinked in Hin. rewrite Hc.
    unfold Category_findByPk. simpl.
    repeat (apply elem_of_cons in Hin as [->|Hin];
            [eexists; split; [done|];
             rewrite ?Z.eqb_refl;
             repeat (destruct (_ =? _); [by eexists|]); by eexists|]).
    by apply elem_of_nil in Hin.
  - intros Hsome Hslugs. rewrite bool_decide_eq_false_2 in Hc by done.
    rewrite Hcats, Hc.
    assert (∀ slug, slug ∈ ["digital-watch"; "quartz-watch"; "lady-watch"] →
                    categoryMap (categories s) slug = None) as Hmap.
    { intros slug Hslug. unfold categoryMap.
      rewrite (find_string_fresh category_slug); [done|].
      intros (c & -> & Hin)%list_elem_of_fmap.
      apply (proj1 (elem_of_reverse _ _)) in Hin. by apply (Hslugs c). }
    rewrite !Hmap; [done| | |];
      apply (bool_decide_unpack (_ ∈ _)); vm_compute; exact I.
Qed.

Lemma seeded_products_find_categories_witness :
  ∃ s1,
    seedDatabase demo (λ _, "{}") 1 1 0 new_database = Some s1
    ∧ product_category_id <$> products s1 = [Some 1; Some 2; Some 3].
Proof.
  destruct (seedDatabase_steps demo (λ _, "{}") 1 1 0 new_database)
    as (s1 & Hseed & _).
  exists s1. split; [exact Hseed|].
  destruct (seeded_products_find_categories demo (λ _, "{}") 1 1 0
              new_database s1 Hseed eq_refl) as (_ & _ & _ & Hlinked & _).
  exact (proj1 (Hlinked eq_refl)).
Defined.
